(** * InstaGen: the size-bounded image optimisers

    A shallow embedding of the three byte-budget compression loops of the
    backend,

      - [ImageOptimizer.optimize_for_retail]  (backend/services/image_processing.py)
      - [ImageOptimizer.optimize_export]      (backend/services/image_processing.py)
      - [recursive_optimize_export]           (MODULE_C_ImageOptimizer.py)

    together with the part of Pillow they drive.  Python objects live in an
    explicit store, the file system is a finite map from paths to contents,
    and every call to the JPEG encoder and every [print]/[logger] line is
    recorded in an output trace, so that statements about "encode attempts"
    and about the reported outcome are statements about that trace. *)

From Stdlib Require Import ZArith List Lia Bool.
From Stdlib Require Import Strings.String Strings.Byte.
From Stdlib Require Import Floats.SpecFloat.
From stdpp Require Import base option list gmap strings.

Local Open Scope Z_scope.

(** ** Images *)

(** Pillow image modes that the three functions can meet after
    [Image.open]. *)
Inductive Mode := L | LA | P | RGB | RGBA | CMYK.

Definition Mode_eqb (a b : Mode) : bool :=
  match a, b with
  | L, L | LA, LA | P, P | RGB, RGB | RGBA, RGBA | CMYK, CMYK => true
  | _, _ => false
  end.

(** Number of bands of a mode, and whether one of them is an alpha band. *)
Definition nbands (m : Mode) : nat :=
  match m with
  | L | P => 1
  | LA => 2
  | RGB => 3
  | RGBA | CMYK => 4
  end%nat.

Definition has_alpha (m : Mode) : bool :=
  match m with
  | LA | RGBA => true
  | _ => false
  end.

(** A pixel is the list of its band values (0..255). *)
Definition pixel := list Z.

Record Image := mkImage {
  mode : Mode;
  width : Z;
  height : Z;
  data : list pixel
}.

Definition size (im : Image) : Z * Z := (width im, height im).

Definition bytes := list byte.

(** [len(buffer)] *)
Definition len (b : bytes) : Z := Z.of_nat (length b).

(** ** The codec: what the functions need from Pillow's codecs

    [jpeg_save im q] is [im.save(_, format="JPEG", quality=q, optimize=True)]:
    the encoded bytes, or the message of the exception Pillow raises.
    [image_open b] is [Image.open] on the bytes [b].  [convert_rgb] is
    [im.convert("RGB")] and [resize_lanczos] is
    [im.resize((w, h), Image.Resampling.LANCZOS)]; both build a new image. *)
Class Codec := {
  jpeg_save : Image -> Z -> bytes + string;
  image_open : bytes -> Image + string;
  convert_rgb : Image -> Image;
  resize_lanczos : Image -> Z -> Z -> Image;
  convert_rgb_mode : forall im, mode (convert_rgb im) = RGB;
  resize_lanczos_mode : forall im w h, mode (resize_lanczos im w h) = mode im;
  resize_lanczos_width : forall im w h, width (resize_lanczos im w h) = w;
  resize_lanczos_height : forall im w h, height (resize_lanczos im w h) = h
}.

(** ** Pixel operations of Pillow used for flattening *)

(** [Image.new(mode, size, color)] *)
Definition new_image (m : Mode) (sz : Z * Z) (color : pixel) : Image :=
  {| mode := m; width := fst sz; height := snd sz;
     data := repeat color (Z.to_nat (fst sz * snd sz)) |}.

(** Band [k] of an image, as an [L] image: one element of [im.split()]. *)
Definition band (k : nat) (im : Image) : Image :=
  {| mode := L; width := width im; height := height im;
     data := map (fun px => [nth k px 0]) (data im) |}.

Definition split_image (im : Image) : list Image :=
  map (fun k => band k im) (seq 0 (nbands (mode im))).

(** Pillow's rounding division by 255 and its 8-bit blend (Paste.c). *)
Definition MULDIV255 (a b : Z) : Z :=
  let tmp := a * b + 128 in
  Z.shiftr (Z.shiftr tmp 8 + tmp) 8.

Definition BLEND8 (mask in1 in2 : Z) : Z :=
  MULDIV255 in1 (255 - mask) + MULDIV255 in2 mask.

Fixpoint blend_px (m : Z) (dst src : pixel) : pixel :=
  match dst, src with
  | d :: dst', s :: src' => BLEND8 m d s :: blend_px m dst' src'
  | _, _ => dst
  end.

Fixpoint paste_data (dst src : list pixel) (mask : list pixel) : list pixel :=
  match dst, src, mask with
  | d :: dst', s :: src', m :: mask' =>
      blend_px (nth 0 m 0) d s :: paste_data dst' src' mask'
  | _, _, _ => dst
  end.

(** [dst.paste(src, mask=mask)] with no box: the destination keeps its mode
    and size, each band is blended with the source through the mask. *)
Definition paste_image (dst src mask : Image) : Image :=
  {| mode := mode dst; width := width dst; height := height dst;
     data := paste_data (data dst) (data src) (data mask) |}.

Definition white : pixel := [255; 255; 255].

(** ** The world: object store, file system, output trace *)

Inductive Msg :=
| Retail_iteration (iteration quality nbytes : Z)
| Retail_ok (nbytes quality : Z)
| Retail_warning_could_not_compress
| Retail_warning_final_size (nbytes : Z)
| Export_iteration (iteration nbytes quality : Z)
| Export_warning_could_not_optimize (max_iterations : Z)
| Export_warning_final_size (nbytes : Z)
| Export_ok (nbytes : Z)
| Log_file_not_found (path : string)
| Log_starting (nbytes : Z)
| Log_already_optimized (nbytes : Z)
| Log_image_mode (sz : Z * Z)
| Log_iteration (iteration quality nbytes : Z)
| Log_max_iterations (max_iterations : Z)
| Log_complete (nbytes quality iteration : Z)
| Log_failed (msg : string).

Inductive Event :=
| EvEncode (im : Image) (quality : Z)
| EvPrint (m : Msg).

Definition ref := nat.

Record World := mkWorld {
  heap : list Image;
  fs : gmap string bytes;
  out : list Event
}.

(** ** Python control flow: results, exceptions, fuel *)

Inductive Res (A : Type) :=
| Ok (a : A)
| Raise (msg : string)
| OutOfFuel.
Arguments Ok {A} a.
Arguments Raise {A} msg.
Arguments OutOfFuel {A}.

Definition M (A : Type) : Type := World -> Res A * World.

Definition ret {A} (a : A) : M A := fun w => (Ok a, w).

Definition bind {A B} (m : M A) (k : A -> M B) : M B :=
  fun w =>
    match m w with
    | (Ok a, w') => k a w'
    | (Raise e, w') => (Raise e, w')
    | (OutOfFuel, w') => (OutOfFuel, w')
    end.

Notation "'let!' x ':=' c 'in' k" := (bind c (fun x => k))
  (at level 10, x name, c at level 100, k at level 200).
Notation "'do!' c 'in' k" := (bind c (fun _ => k))
  (at level 10, c at level 100, k at level 200).

Definition raise {A} (msg : string) : M A := fun w => (Raise msg, w).

Definition out_of_fuel {A} : M A := fun w => (OutOfFuel, w).

(** [try: m  except Exception as e: h(str(e))] *)
Definition try_except {A} (m : M A) (h : string -> M A) : M A :=
  fun w =>
    match m w with
    | (Raise e, w') => h e w'
    | r => r
    end.

Definition emit (e : Event) : M unit :=
  fun w => (Ok tt, {| heap := heap w; fs := fs w; out := out w ++ [e] |}).

Definition print (m : Msg) : M unit := emit (EvPrint m).

(** Object store. *)
Definition alloc (im : Image) : M ref :=
  fun w => (Ok (length (heap w)),
            {| heap := heap w ++ [im]; fs := fs w; out := out w |}).

Definition deref (r : ref) : M Image :=
  fun w =>
    match heap w !! r with
    | Some im => (Ok im, w)
    | None => (Raise "dangling image reference", w)
    end.

Definition store (r : ref) (im : Image) : M unit :=
  fun w => (Ok tt, {| heap := <[r := im]> (heap w); fs := fs w; out := out w |}).

(** File system. *)
Definition path_exists (p : string) : M bool :=
  fun w => (Ok (bool_decide (is_Some (fs w !! p))), w).

Definition getsize (p : string) : M Z :=
  fun w =>
    match fs w !! p with
    | Some b => (Ok (len b), w)
    | None => (Raise "No such file or directory", w)
    end.

Definition read_file (p : string) : M bytes :=
  fun w =>
    match fs w !! p with
    | Some b => (Ok b, w)
    | None => (Raise "No such file or directory", w)
    end.

Definition write_file (p : string) (b : bytes) : M unit :=
  fun w => (Ok tt, {| heap := heap w; fs := <[p := b]> (fs w); out := out w |}).

(** ** Sizes in kilobytes

    The source compares [nbytes / 1024] (a float) with a whole number of
    kilobytes.  Division by 1024 is exact in binary floating point, so the
    comparison is the comparison of [nbytes] with [kb * 1024]. *)
Definition kb_lt (nbytes kb : Z) : bool := nbytes <? kb * 1024.
Definition kb_le (nbytes kb : Z) : bool := nbytes <=? kb * 1024.
Definition kb_gt (nbytes kb : Z) : bool := kb * 1024 <? nbytes.

(** [int(n * 0.95)] for a non-negative integer [n].  The double nearest to
    0.95 lies below it by less than 2^-54 relatively, so the rounded product
    is the exact integer whenever [n * 95 / 100] is one and truncation gives
    the floor of [n * 95 / 100] otherwise. *)
Definition scale95 (n : Z) : Z := n * 95 / 100.

Module Py.
(** Python's [seq[i]]. *)
Definition index {A} (l : list A) (i : nat) : M A :=
  match l !! i with
  | Some x => ret x
  | None => raise "tuple index out of range"
  end.
End Py.

Section Optimizers.
Context `{Codec}.

(** *** Pillow calls on stored objects *)

(** [Image.new(mode, size, color)] allocates a fresh image. *)
Definition Image_new (m : Mode) (sz : Z * Z) (color : pixel) : M ref :=
  alloc (new_image m sz color).

(** [im.split()]: a tuple of freshly allocated band images. *)
Fixpoint alloc_all (ims : list Image) : M (list ref) :=
  match ims with
  | [] => ret []
  | im :: ims' =>
      let! r := alloc im in
      let! rs := alloc_all ims' in
      ret (r :: rs)
  end.

Definition Image_split (r : ref) : M (list ref) :=
  let! im := deref r in
  alloc_all (split_image im).

(** [dst.paste(src, mask=mask)] updates [dst] in place. *)
Definition Image_paste (dst src mask : ref) : M unit :=
  let! d := deref dst in
  let! s := deref src in
  let! m := deref mask in
  store dst (paste_image d s m).

(** [im.convert("RGB")] *)
Definition Image_convert_RGB (r : ref) : M ref :=
  let! im := deref r in
  alloc (convert_rgb im).

(** [im.resize((w, h), Image.Resampling.LANCZOS)] *)
Definition Image_resize (r : ref) (w h : Z) : M ref :=
  let! im := deref r in
  alloc (resize_lanczos im w h).

(** [im.save(buffer, format="JPEG", quality=q, optimize=True)] followed by
    [buffer.getvalue()]. *)
Definition Image_save_buffer (r : ref) (quality : Z) : M bytes :=
  let! im := deref r in
  do! emit (EvEncode im quality) in
  match jpeg_save im quality with
  | inl b => ret b
  | inr e => raise e
  end.

(** [im.save(path, format="JPEG", quality=q, optimize=True)] *)
Definition Image_save_file (r : ref) (path : string) (quality : Z) : M unit :=
  let! b := Image_save_buffer r quality in
  write_file path b.

(** [Image.open(io.BytesIO(data))] *)
Definition Image_open_bytes (b : bytes) : M ref :=
  match image_open b with
  | inl im => alloc im
  | inr e => raise e
  end.

(** [Image.open(path)] *)
Definition Image_open_file (path : string) : M ref :=
  let! b := read_file path in
  Image_open_bytes b.

(** The flattening block shared by the three functions:
<<
    background = Image.new("RGB", image.size, (255, 255, 255))
    background.paste(image, mask=image.split()[3])
    image = background
>> *)
Definition flatten_on_white (image : ref) : M ref :=
  let! im := deref image in
  let! background := Image_new RGB (size im) white in
  let! bands := Image_split image in
  let! alpha := Py.index bands 3 in
  do! Image_paste background image alpha in
  ret background.

(** *** [ImageOptimizer.optimize_for_retail] *)

Definition retail_target_size_kb : Z := 500.
Definition retail_max_iterations : Z := 20.

Fixpoint retail_loop (fuel : nat) (image : ref) (quality iteration : Z)
  : M bytes :=
  match fuel with
  | O => out_of_fuel
  | S fuel' =>
      if iteration <? retail_max_iterations then
        let iteration := iteration + 1 in
        let! output_buffer := Image_save_buffer image quality in
        let nbytes := len output_buffer in
        do! print (Retail_iteration iteration quality nbytes) in
        if kb_lt nbytes retail_target_size_kb then
          do! print (Retail_ok nbytes quality) in
          ret output_buffer
        else
          let quality := quality - 5 in
          if quality <? 10 then
            do! print Retail_warning_could_not_compress in
            do! print (Retail_warning_final_size nbytes) in
            ret output_buffer
          else retail_loop fuel' image quality iteration
      else raise "Optimization failed after 20 iterations"
  end.

Definition retail_to_rgb (image : ref) : M ref :=
  let! im := deref image in
  if negb (Mode_eqb (mode im) RGB) then
    if Mode_eqb (mode im) RGBA then flatten_on_white image
    else Image_convert_RGB image
  else ret image.

Definition optimize_for_retail (fuel : nat) (image : ref) : M bytes :=
  try_except
    (let! image := retail_to_rgb image in
     retail_loop fuel image 95 0)
    (fun e => raise ("Error in optimize_for_retail: " +:+ e)).

(** *** [ImageOptimizer.optimize_export] *)

Fixpoint export_loop (fuel : nat) (target_bytes max_iterations : Z)
    (img : ref) (quality iteration current_size : Z) (optimized_data : bytes)
  : M (Z * bytes) :=
  match fuel with
  | O => out_of_fuel
  | S fuel' =>
      if (target_bytes <? current_size) && (iteration <? max_iterations) then
        let iteration := iteration + 1 in
        do! print (Export_iteration iteration current_size quality) in
        let quality := Z.max 10 (quality - 5) in
        let! im := deref img in
        let new_width := Z.max 100 (scale95 (width im)) in
        let new_height := Z.max 100 (scale95 (height im)) in
        let! img := Image_resize img new_width new_height in
        let! optimized_data := Image_save_buffer img quality in
        let current_size := len optimized_data in
        export_loop fuel' target_bytes max_iterations
          img quality iteration current_size optimized_data
      else ret (current_size, optimized_data)
  end.

Definition export_to_rgb (img : ref) : M ref :=
  let! im := deref img in
  match mode im with
  | RGBA => flatten_on_white img
  | LA | P => Image_convert_RGB img
  | _ => ret img
  end.

Definition optimize_export (fuel : nat) (image_data : bytes)
    (target_size_kb max_iterations : Z) : M bytes :=
  try_except
    (let target_bytes := target_size_kb * 1024 in
     let! img := Image_open_bytes image_data in
     let! img := export_to_rgb img in
     let! r := export_loop fuel target_bytes max_iterations
                 img 85 0 (len image_data) image_data in
     let '(current_size, optimized_data) := r in
     do! (if target_bytes <? current_size then
            do! print (Export_warning_could_not_optimize max_iterations) in
            print (Export_warning_final_size current_size)
          else ret tt) in
     do! print (Export_ok current_size) in
     ret optimized_data)
    (fun e => raise ("Error optimizing export: " +:+ e)).

(** *** [recursive_optimize_export] (MODULE_C_ImageOptimizer.py) *)

Definition MAX_FILE_SIZE_KB : Z := 500.
Definition QUALITY_START : Z := 95.
Definition QUALITY_MIN : Z := 65.
Definition QUALITY_STEP : Z := 5.
Definition recursive_max_iterations : Z := 20.

(** The loop returns the locals that the final log line reads. *)
Fixpoint recursive_loop (fuel : nat) (file_path : string) (img : ref)
    (file_size quality iteration : Z) : M (Z * Z * Z) :=
  match fuel with
  | O => out_of_fuel
  | S fuel' =>
      if kb_gt file_size MAX_FILE_SIZE_KB && (QUALITY_MIN <=? quality) then
        let iteration := iteration + 1 in
        let quality := quality - QUALITY_STEP in
        do! print (Log_iteration iteration quality file_size) in
        do! Image_save_file img file_path quality in
        let! file_size := getsize file_path in
        if recursive_max_iterations <=? iteration then
          do! print (Log_max_iterations recursive_max_iterations) in
          ret (file_size, quality, iteration)
        else recursive_loop fuel' file_path img file_size quality iteration
      else ret (file_size, quality, iteration)
  end.

Definition recursive_to_rgb (img : ref) : M ref :=
  let! im := deref img in
  if Mode_eqb (mode im) RGBA then flatten_on_white img else ret img.

(** The body of the [try] block. *)
Definition recursive_try_block (fuel : nat) (file_path : string)
  : M (option string) :=
  let! file_size := getsize file_path in
  do! print (Log_starting file_size) in
  if kb_le file_size MAX_FILE_SIZE_KB then
    do! print (Log_already_optimized file_size) in
    ret (Some file_path)
  else
    let! img := Image_open_file file_path in
    let! im := deref img in
    do! print (Log_image_mode (size im)) in
    let! img := recursive_to_rgb img in
    let! r := recursive_loop fuel file_path img
                file_size QUALITY_START 0 in
    let '(file_size, quality, iteration) := r in
    do! print (Log_complete file_size quality iteration) in
    ret (Some file_path).

Definition recursive_optimize_export (fuel : nat) (file_path : string)
  : M (option string) :=
  let! found := path_exists file_path in
  if negb found then
    do! print (Log_file_not_found file_path) in
    ret None
  else
    try_except
      (recursive_try_block fuel file_path)
      (fun e =>
         do! print (Log_failed e) in
         ret None).

End Optimizers.

(** ** Reading the output trace *)

(** The encode attempts of a trace, in order: working image and quality. *)
Definition encodes (tr : list Event) : list (Image * Z) :=
  omap (fun e => match e with
                 | EvEncode im q => Some (im, q)
                 | EvPrint _ => None
                 end) tr.

(** The printed and logged lines of a trace, in order. *)
Definition prints (tr : list Event) : list Msg :=
  omap (fun e => match e with
                 | EvPrint m => Some m
                 | EvEncode _ _ => None
                 end) tr.

(** Quality of the [j]-th encode attempt (counted from 0) of
    [optimize_for_retail]: it starts at 95 and loses 5 after each miss. *)
Definition retail_quality (j : nat) : Z := 95 - 5 * Z.of_nat j.

(** The flattened image that [flatten_on_white] leaves in [background]. *)
Definition flatten_image (im : Image) : Image :=
  paste_image (new_image RGB (size im) white) im (band 3 im).

(** The image each function hands to the encoder first, as its mode
    dispatch before the loop determines it. *)
Definition retail_working_image `{Codec} (im : Image) : Image :=
  if negb (Mode_eqb (mode im) RGB) then
    if Mode_eqb (mode im) RGBA then flatten_image im else convert_rgb im
  else im.

Definition export_working_image `{Codec} (im : Image) : Image :=
  match mode im with
  | RGBA => flatten_image im
  | LA | P => convert_rgb im
  | _ => im
  end.

Definition recursive_working_image (im : Image) : Image :=
  if Mode_eqb (mode im) RGBA then flatten_image im else im.

(** One turn of [optimize_export]'s loop on its two knobs: the working image
    is resampled to 95% (each side floored at 100) and the quality loses 5
    (floored at 10).  [export_state t st] is the pair after [t] turns. *)
Definition export_next `{Codec} (st : Image * Z) : Image * Z :=
  (resize_lanczos (fst st)
     (Z.max 100 (scale95 (width (fst st))))
     (Z.max 100 (scale95 (height (fst st)))),
   Z.max 10 (snd st - 5)).

Fixpoint export_state `{Codec} (t : nat) (st : Image * Z) : Image * Z :=
  match t with
  | O => st
  | S t' => export_state t' (export_next st)
  end.

(** What one turn does to a side of the image. *)
Definition side_next (n : Z) : Z := Z.max 100 (scale95 n).

(** The encode attempt of turn [t >= 1] of [optimize_export] on the working
    image [wim]. *)
Definition export_attempt `{Codec} (wim : Image) (t : nat) : bytes + string :=
  jpeg_save (fst (export_state t (wim, 85))) (snd (export_state t (wim, 85))).

(** Quality of the save of turn [t >= 1] of [recursive_optimize_export]. *)
Definition recursive_quality (t : nat) : Z :=
  QUALITY_START - QUALITY_STEP * Z.of_nat t.

Definition is_iteration_line (m : Msg) : bool :=
  match m with
  | Retail_iteration _ _ _ | Export_iteration _ _ _ | Log_iteration _ _ _ => true
  | _ => false
  end.

(** ** Worlds reached from a given world

    [extend w ext tr]: the objects [ext] were allocated and the events [tr]
    emitted; [wrote w p b]: the file [p] was (over)written with [b]. *)
Definition with_heap (w : World) (h : list Image) : World :=
  {| heap := h; fs := fs w; out := out w |}.

Definition with_out (w : World) (tr : list Event) : World :=
  {| heap := heap w; fs := fs w; out := out w ++ tr |}.

Definition extend (w : World) (ext : list Image) (tr : list Event) : World :=
  with_out (with_heap w (heap w ++ ext)) tr.

Definition wrote (w : World) (p : string) (b : bytes) : World :=
  {| heap := heap w; fs := <[p := b]> (fs w); out := out w |}.

(** ** A model codec and inputs for the examples

    [Model.codec enc dec] packs an encoder and a decoder with a simple
    [convert("RGB")] (grey levels are replicated, an alpha band is dropped;
    palette and CMYK data are not interpreted) and a [resize] that fills the
    new size with the first pixel of the source. *)
Module Model.

Definition zeros (n : Z) : bytes := repeat x00 (Z.to_nat n).

Definition to_rgb (im : Image) : Image :=
  {| mode := RGB; width := width im; height := height im;
     data := map (fun px =>
                    match mode im with
                    | L | LA | P => [nth 0 px 0; nth 0 px 0; nth 0 px 0]
                    | RGB | RGBA | CMYK => firstn 3 px
                    end) (data im) |}.

Definition flat_resize (im : Image) (w h : Z) : Image :=
  {| mode := mode im; width := w; height := h;
     data := repeat (nth 0 (data im) []) (Z.to_nat (w * h)) |}.

Definition codec (enc : Image -> Z -> bytes + string)
    (dec : bytes -> Image + string) : Codec :=
  {| jpeg_save := enc;
     image_open := dec;
     convert_rgb := to_rgb;
     resize_lanczos := flat_resize;
     convert_rgb_mode := fun _ => eq_refl;
     resize_lanczos_mode := fun _ _ _ => eq_refl;
     resize_lanczos_width := fun _ _ _ => eq_refl;
     resize_lanczos_height := fun _ _ _ => eq_refl |}.

(** Encoders: a constant size; a size proportional to the quality;
    Pillow's refusal of modes with an alpha band; a codec failure. *)
Definition enc_const (n : Z) : Image -> Z -> bytes + string :=
  fun _ _ => inl (zeros n).

Definition enc_by_quality (k : Z) : Image -> Z -> bytes + string :=
  fun _ q => inl (zeros (k * q)).



Definition enc_fail (msg : string) : Image -> Z -> bytes + string :=
  fun _ _ => inr msg.

Definition dec_const (im : Image) : bytes -> Image + string :=
  fun _ => inl im.

Definition dec_fail (msg : string) : bytes -> Image + string :=
  fun _ => inr msg.

(** A 2x1 RGBA image: one fully transparent and one fully opaque pixel. *)
Definition rgba_2x1 : Image :=
  {| mode := RGBA; width := 2; height := 1;
     data := [[10; 20; 30; 0]; [40; 50; 60; 255]] |}.

(** A 1x1 grey image with alpha: black, fully transparent. *)
Definition la_1x1 : Image :=
  {| mode := LA; width := 1; height := 1; data := [[0; 0]] |}.

Definition rgb_2x1 : Image :=
  {| mode := RGB; width := 2; height := 1;
     data := [[10; 20; 30]; [40; 50; 60]] |}.

(** A world holding one image object (reference 0), or one file. *)
Definition world_with_image (im : Image) : World :=
  {| heap := [im]; fs := ∅; out := [] |}.

Definition world_with_file (path : string) (b : bytes) : World :=
  {| heap := []; fs := {[ path := b ]}; out := [] |}.

End Model.

(** * The rest of the two modules and the export endpoint

    [optimize_with_format_fallback] (MODULE_C_ImageOptimizer.py),
    [export_final] (backend/routers/export.py) and the other methods of
    backend/services/image_processing.py use more of Pillow than the three
    loops above and log lines of their own.  They run in a world with a wider
    trace; a call to one of the three loops is lifted into it, its events
    kept in order. *)

(** What these functions need from Pillow beyond [Codec]:
    [im.save(_, format="WEBP", quality=q)], [im.save(_, format="PNG")] with
    or without [optimize=True], [im.convert("RGBA")], and
    [im.quantize(colors=n).getpalette()]. *)
Class Codec2 := {
  webp_save : Image -> Z -> bytes + string;
  png_save : Image -> bool -> bytes + string;
  convert_rgba : Image -> Image;
  quantize_palette : Image -> Z -> list Z + string;
  convert_rgba_mode : forall im, mode (convert_rgba im) = RGBA
}.

Inductive XMsg :=
| Fallback_attempting_jpeg
| Fallback_attempting_webp
| Fallback_webp_size (nbytes : Z)
| Fallback_webp_ok
| Fallback_webp_ok_at (quality nbytes : Z)
| Fallback_could_not_optimize (max_kb : Z)
| Fallback_failed (msg : string)
| Colors_ok (num_colors : Z) (colors : list string)
| Colors_failed (msg : string)
| Using_rembg
| Using_placeholder
| Asset_saved (full_url : string)
| Palette_extracted (palette : list string)
| Asset_failed (msg : string).

Inductive XEvent :=
| Base (e : Event)
| XEncodeWebp (im : Image) (quality : Z)
| XEncodePng (im : Image) (optimize : bool)
| XQuantize (im : Image) (colors : Z)
| XLog (m : XMsg).

Record XWorld := mkXWorld {
  xheap : list Image;
  xfs : gmap string bytes;
  xout : list XEvent
}.

Definition XM (A : Type) : Type := XWorld -> Res A * XWorld.

Definition xret {A} (a : A) : XM A := fun w => (Ok a, w).

Definition xbind {A B} (m : XM A) (k : A -> XM B) : XM B :=
  fun w =>
    match m w with
    | (Ok a, w') => k a w'
    | (Raise e, w') => (Raise e, w')
    | (OutOfFuel, w') => (OutOfFuel, w')
    end.

Notation "'let*' x ':=' c 'in' k" := (xbind c (fun x => k))
  (at level 10, x name, c at level 100, k at level 200).
Notation "'do*' c 'in' k" := (xbind c (fun _ => k))
  (at level 10, c at level 100, k at level 200).

Definition xraise {A} (msg : string) : XM A := fun w => (Raise msg, w).

Definition xtry_except {A} (m : XM A) (h : string -> XM A) : XM A :=
  fun w =>
    match m w with
    | (Raise e, w') => h e w'
    | r => r
    end.

(** A computation of the narrower world runs on the objects and files of the
    wider one; the events it emits are appended, in order. *)
Definition lift {A} (m : M A) : XM A :=
  fun w =>
    let r := m {| heap := xheap w; fs := xfs w; out := [] |} in
    (fst r, {| xheap := heap (snd r); xfs := fs (snd r);
               xout := xout w ++ map Base (out (snd r)) |}).

Definition xemit (e : XEvent) : XM unit :=
  fun w => (Ok tt, {| xheap := xheap w; xfs := xfs w; xout := xout w ++ [e] |}).

Definition xlog (m : XMsg) : XM unit := xemit (XLog m).

Definition xwrite_file (p : string) (b : bytes) : XM unit :=
  fun w => (Ok tt, {| xheap := xheap w; xfs := <[p := b]> (xfs w); xout := xout w |}).

(** ** Python strings *)

Module PyStr.

(** [s.lower()], on ASCII. *)
Definition lower_ascii (c : Ascii.ascii) : Ascii.ascii :=
  let n := Ascii.nat_of_ascii c in
  if (65 <=? n)%nat && (n <=? 90)%nat then Ascii.ascii_of_nat (n + 32) else c.

Fixpoint lower (s : string) : string :=
  match s with
  | EmptyString => EmptyString
  | String c s' => String (lower_ascii c) (lower s')
  end.

(** [s.startswith(p)] *)
Definition startswith (s p : string) : bool := String.prefix p s.

(** [s.endswith(suf)] *)
Definition endswith (s suf : string) : bool :=
  let n := String.length s in
  let m := String.length suf in
  (m <=? n)%nat && String.eqb (String.substring (n - m) m s) suf.

(** [s.replace(old, new)] for a non-empty [old]: the non-overlapping
    occurrences of [old], found from left to right, become [new].  [skip]
    counts the characters of an occurrence still to be dropped. *)
Fixpoint replace_from (old new : string) (skip : nat) (s : string) : string :=
  match s with
  | EmptyString => EmptyString
  | String c s' =>
      match skip with
      | S k => replace_from old new k s'
      | O =>
          if String.prefix old s
          then String.append new (replace_from old new (String.length old - 1) s')
          else String c (replace_from old new 0 s')
      end
  end.

Definition replace (s old new : string) : string := replace_from old new 0 s.

End PyStr.

(** ** Files and objects of the wider world *)

Definition xpath_exists (p : string) : XM bool :=
  fun w => (Ok (bool_decide (is_Some (xfs w !! p))), w).

Definition xgetsize (p : string) : XM Z :=
  fun w =>
    match xfs w !! p with
    | Some b => (Ok (len b), w)
    | None => (Raise "No such file or directory", w)
    end.

Definition xalloc (im : Image) : XM ref :=
  fun w => (Ok (length (xheap w)),
            {| xheap := xheap w ++ [im]; xfs := xfs w; xout := xout w |}).

Definition xderef (r : ref) : XM Image :=
  fun w =>
    match xheap w !! r with
    | Some im => (Ok im, w)
    | None => (Raise "dangling image reference", w)
    end.

(** Python's truth value of a [str] or [None]. *)
Definition truthy (o : option string) : bool :=
  match o with
  | Some s => negb (String.eqb s "")
  | None => false
  end.

Section Fallback.
Context `{Codec} `{Codec2}.

(** [Image.open(io.BytesIO(data))] and [Image.open(path)] *)
Definition xopen_bytes (b : bytes) : XM ref :=
  match image_open b with
  | inl im => xalloc im
  | inr e => xraise e
  end.

Definition xopen_file (path : string) : XM ref :=
  fun w =>
    match xfs w !! path with
    | Some b => xopen_bytes b w
    | None => (Raise "No such file or directory", w)
    end.

(** [img.save(path, format="WEBP", quality=q)] *)
Definition xsave_webp (r : ref) (path : string) (quality : Z) : XM unit :=
  let* im := xderef r in
  do* xemit (XEncodeWebp im quality) in
  match webp_save im quality with
  | inl b => xwrite_file path b
  | inr e => xraise e
  end.

(** *** [optimize_with_format_fallback] (MODULE_C_ImageOptimizer.py) *)

(** [file_path.replace(".jpg", ".webp").replace(".jpeg", ".webp")] *)
Definition webp_path_of (file_path : string) : string :=
  PyStr.replace (PyStr.replace file_path ".jpg" ".webp") ".jpeg" ".webp".

(** [file_path.lower().endswith((".jpg", ".jpeg"))] *)
Definition is_jpeg_path (file_path : string) : bool :=
  PyStr.endswith (PyStr.lower file_path) ".jpg"
  || PyStr.endswith (PyStr.lower file_path) ".jpeg".

(** [for quality in [70, 60, 50, 40]: ...]; [None] when the list is
    exhausted without a [return]. *)
Fixpoint fallback_webp_loop (qualities : list Z) (img : ref) (webp_path : string)
  : XM (option string) :=
  match qualities with
  | [] => xret None
  | quality :: rest =>
      do* xsave_webp img webp_path quality in
      let* webp_size := xgetsize webp_path in
      if kb_le webp_size MAX_FILE_SIZE_KB then
        do* xlog (Fallback_webp_ok_at quality webp_size) in
        xret (Some webp_path)
      else fallback_webp_loop rest img webp_path
  end.

(** From "If still too large, try WebP format" to the end of the [try]
    block. *)
Definition fallback_webp (file_path : string) : XM (option string) :=
  do* xlog Fallback_attempting_webp in
  let* img := xopen_file file_path in
  let* img := lift (recursive_to_rgb img) in
  let webp_path := webp_path_of file_path in
  do* xsave_webp img webp_path 80 in
  let* webp_size := xgetsize webp_path in
  do* xlog (Fallback_webp_size webp_size) in
  if kb_le webp_size MAX_FILE_SIZE_KB then
    do* xlog Fallback_webp_ok in
    xret (Some webp_path)
  else
    let* r := fallback_webp_loop [70; 60; 50; 40] img webp_path in
    match r with
    | Some p => xret (Some p)
    | None =>
        do* xlog (Fallback_could_not_optimize MAX_FILE_SIZE_KB) in
        xret (Some file_path)
    end.

Definition fallback_try_block (fuel : nat) (file_path : string)
  : XM (option string) :=
  let* file_size := xgetsize file_path in
  if is_jpeg_path file_path then
    do* xlog Fallback_attempting_jpeg in
    let* result := lift (recursive_optimize_export fuel file_path) in
    if truthy result then
      match result with
      | Some result_path =>
          let* file_size := xgetsize result_path in
          if kb_le file_size MAX_FILE_SIZE_KB then xret (Some result_path)
          else fallback_webp file_path
      | None => fallback_webp file_path
      end
    else fallback_webp file_path
  else fallback_webp file_path.

Definition optimize_with_format_fallback (fuel : nat) (file_path : string)
  : XM (option string) :=
  let* found := xpath_exists file_path in
  if negb found then
    do* xemit (Base (EvPrint (Log_file_not_found file_path))) in
    xret None
  else
    xtry_except
      (fallback_try_block fuel file_path)
      (fun e =>
         do* xlog (Fallback_failed e) in
         xret (Some file_path)).

End Fallback.

(** ** Reading the wider trace *)

Definition xwebp_encodes (tr : list XEvent) : list (Image * Z) :=
  omap (fun e => match e with
                 | XEncodeWebp im q => Some (im, q)
                 | _ => None
                 end) tr.

Definition xbase (tr : list XEvent) : list Event :=
  omap (fun e => match e with
                 | Base e => Some e
                 | _ => None
                 end) tr.

(** The narrower world that a lifted computation starts in, and the wider
    world it leaves. *)
Definition narrow (w : XWorld) : World :=
  {| heap := xheap w; fs := xfs w; out := [] |}.

Definition widen (w : XWorld) (w' : World) : XWorld :=
  {| xheap := heap w'; xfs := fs w'; xout := xout w ++ map Base (out w') |}.

Definition xwith_out (w : XWorld) (tr : list XEvent) : XWorld :=
  {| xheap := xheap w; xfs := xfs w; xout := xout w ++ tr |}.

(** The WebP ladder of [optimize_with_format_fallback]: the first save at 80,
    then the [for] loop. *)
Definition webp_ladder : list Z := [80; 70; 60; 50; 40].

(** A WebP save that encodes but leaves the file above 500KB. *)
Definition webp_missed `{Codec2} (wim : Image) (q : Z) : Prop :=
  exists b, webp_save wim q = inl b /\ kb_le (len b) MAX_FILE_SIZE_KB = false.

(** ** A model of the wider codec for the examples *)
Module Model2.

(** [im.convert("RGBA")]: grey levels are replicated and an opaque alpha band
    is added where there is none (palette and CMYK data are not
    interpreted). *)
Definition to_rgba (im : Image) : Image :=
  {| mode := RGBA; width := width im; height := height im;
     data := map (fun px =>
                    match mode im with
                    | L | P => [nth 0 px 0; nth 0 px 0; nth 0 px 0; 255]
                    | LA => [nth 0 px 0; nth 0 px 0; nth 0 px 0; nth 1 px 0]
                    | RGB | CMYK => firstn 3 px ++ [255]
                    | RGBA => px
                    end) (data im) |}.

Definition codec2 (webp : Image -> Z -> bytes + string)
    (png : Image -> bool -> bytes + string)
    (quant : Image -> Z -> list Z + string) : Codec2 :=
  {| webp_save := webp;
     png_save := png;
     convert_rgba := to_rgba;
     quantize_palette := quant;
     convert_rgba_mode := fun _ => eq_refl |}.

Definition png_const (n : Z) : Image -> bool -> bytes + string :=
  fun _ _ => inl (Model.zeros n).

(** A palette made of the first pixels of the image, padded with zeros to
    256 entries as Pillow's [getpalette] does. *)
Definition quant_first_pixels : Image -> Z -> list Z + string :=
  fun im n =>
    if n <=? 0 then inr "bad number of colors"
    else
      let used := concat (map (firstn 3) (firstn (Z.to_nat n) (data im))) in
      inl (used ++ repeat 0 (768 - length used)).

(** The same palette without the padding: newer Pillow versions return only
    the entries in use. *)
Definition quant_trimmed : Image -> Z -> list Z + string :=
  fun im n =>
    if n <=? 0 then inr "bad number of colors"
    else inl (concat (map (firstn 3) (firstn (Z.to_nat n) (data im)))).

Definition quant_fail (msg : string) : Image -> Z -> list Z + string :=
  fun _ _ => inr msg.

(** WebP encoders: constant size, and a size proportional to quality. *)
Definition webp_const (n : Z) : Image -> Z -> bytes + string :=
  fun _ _ => inl (Model.zeros n).

Definition webp_by_quality (k : Z) : Image -> Z -> bytes + string :=
  fun _ q => inl (Model.zeros (k * q)).

Definition xworld_with_file (path : string) (b : bytes) : XWorld :=
  {| xheap := []; xfs := {[ path := b ]}; xout := [] |}.

End Model2.

(** ** [export_final] (backend/routers/export.py)

    The endpoint tells [ValueError] from other exceptions, so its outcome is
    a response or an exception with its class.  Which class Pillow's
    [Image.open] raises on a given failure is left to [open_raises_value_error];
    the exception of [optimize_for_retail] is always a plain [Exception]. *)
Record UploadFile := mkUploadFile {
  content_type : option string;
  upload_bytes : bytes
}.

Record StreamingResponse := mkStreamingResponse {
  body : list bytes;
  media_type : string;
  headers : list (string * string)
}.

Inductive PyError :=
| ValueError (msg : string)
| OtherException (msg : string).

Section ExportFinal.
Context `{Codec}.
Variable open_raises_value_error : string -> bool.

(** The [try] block: [inl msg] is a [ValueError] raised with [msg], a
    [Raise] of the monad any other exception. *)
Definition export_final_try_block (fuel : nat) (file : UploadFile)
  : M (string + StreamingResponse) :=
  match content_type file with
  | None => raise "'NoneType' object has no attribute 'startswith'"
  | Some ct =>
      if negb (PyStr.startswith ct "image/") then ret (inl "File must be an image")
      else
        let file_bytes := upload_bytes file in
        if len file_bytes =? 0 then ret (inl "Uploaded file is empty")
        else
          match image_open file_bytes with
          | inr e => if open_raises_value_error e then ret (inl e) else raise e
          | inl im =>
              let! image := alloc im in
              let! optimized_buffer := optimize_for_retail fuel image in
              ret (inr {| body := [optimized_buffer];
                          media_type := "image/jpeg";
                          headers := [("Content-Disposition",
                                       "attachment; filename=instagen_export.jpg")] |})
          end
  end.

Definition export_final (fuel : nat) (file : UploadFile)
  : M (PyError + StreamingResponse) :=
  fun w =>
    match export_final_try_block fuel file w with
    | (Ok (inr response), w') => (Ok (inr response), w')
    | (Ok (inl e), w') => (Ok (inl (ValueError ("Validation error: " +:+ e))), w')
    | (Raise e, w') => (Ok (inl (OtherException ("Error exporting file: " +:+ e))), w')
    | (OutOfFuel, w') => (OutOfFuel, w')
    end.

End ExportFinal.

(** The headers of every response of [export_final]. *)
Definition export_headers : list (string * string) :=
  [("Content-Disposition"%string, "attachment; filename=instagen_export.jpg"%string)].

(** ** [ImageOptimizer.extract_dominant_colors]
    (backend/services/image_processing.py) *)

Module Hex.

Definition digit (n : Z) : Ascii.ascii :=
  nth (Z.to_nat n) (list_ascii_of_string "0123456789ABCDEF") Ascii.zero.

(** The uppercase hexadecimal digits of [v >= 0], most significant first. *)
Fixpoint digits_aux (fuel : nat) (v : Z) (acc : string) : string :=
  match fuel with
  | O => acc
  | S fuel' =>
      let acc' := String (digit (v mod 16)) acc in
      if v / 16 =? 0 then acc' else digits_aux fuel' (v / 16) acc'
  end.

Definition digits (v : Z) : string :=
  digits_aux (S (Z.to_nat (Z.log2 v))) v EmptyString.

(** [f"{v:02X}"]: at least two characters, zero padded after the sign. *)
Definition format_02X (v : Z) : string :=
  if v <? 0 then String.append "-" (digits (- v))
  else
    let d := digits v in
    if (String.length d <? 2)%nat then String.append "0" d else d.

(** [f"#{r:02X}{g:02X}{b:02X}"] *)
Definition color (rgb : Z * Z * Z) : string :=
  let '(r, g, b) := rgb in
  String.append "#"
    (String.append (format_02X r) (String.append (format_02X g) (format_02X b))).

End Hex.

(** The [for i in range(num_colors)] loop over the palette, from index [i]
    on: [None] is the [IndexError] of a palette that is too short. *)
Fixpoint palette_colors (palette : list Z) (i count : nat)
  : option (list (Z * Z * Z)) :=
  match count with
  | O => Some []
  | S count' =>
      match palette !! (i * 3)%nat, palette !! (i * 3 + 1)%nat,
            palette !! (i * 3 + 2)%nat with
      | Some r, Some g, Some b =>
          match palette_colors palette (S i) count' with
          | Some rest => Some ((r, g, b) :: rest)
          | None => None
          end
      | _, _, _ => None
      end
  end.

(** A palette entry as Pillow stores it. *)
Definition is_byte (v : Z) : Prop := 0 <= v <= 255.

Definition fallback_palette : list string :=
  ["#FF6B6B"; "#4ECDC4"; "#45B7D1"; "#FFA07A"]%string.

Section ExtractColors.
Context `{Codec} `{Codec2}.

(** "Convert to RGB if necessary (remove alpha channel)" *)
Definition colors_to_rgb (img : ref) : M ref :=
  let! im := deref img in
  if Mode_eqb (mode im) RGBA then flatten_on_white img
  else if negb (Mode_eqb (mode im) RGB) then Image_convert_RGB img
  else ret img.

Definition extract_colors_try_block (image_path : string) (num_colors : Z)
  : XM (list string) :=
  let* img := xopen_file image_path in
  let* img := lift (colors_to_rgb img) in
  let* im := xderef img in
  do* xemit (XQuantize im num_colors) in
  match quantize_palette im num_colors with
  | inr e => xraise e
  | inl palette =>
      match palette_colors palette 0 (Z.to_nat num_colors) with
      | None => xraise "list index out of range"
      | Some colors_rgb =>
          let colors_hex := map Hex.color colors_rgb in
          do* xlog (Colors_ok num_colors colors_hex) in
          xret colors_hex
      end
  end.

Definition extract_dominant_colors (image_path : string) (num_colors : Z)
  : XM (list string) :=
  xtry_except (extract_colors_try_block image_path num_colors)
    (fun e =>
       do* xlog (Colors_failed e) in
       xret fallback_palette).

End ExtractColors.


(** ** [BackgroundRemover] (backend/services/image_processing.py) *)

(** *** numpy arrays

    [np.array(img)] of a PIL image has shape (height, width, bands): here
    the list of its rows, each the list of its pixels. *)
Module Np.

Definition array3 := list (list pixel).

(** A bound of a slice on an axis of length [n]: a negative bound counts
    from the end, and every bound is clipped to the axis. *)
Definition slice_bound (i : Z) (n : nat) : nat :=
  if i <? 0 then Z.to_nat (Z.max (i + Z.of_nat n) 0)
  else Nat.min (Z.to_nat i) n.

(** [a[lo:hi]] *)
Definition slice {A} (lo hi : Z) (a : list A) : list A :=
  let start := slice_bound lo (length a) in
  let stop := slice_bound hi (length a) in
  take (stop - start) (drop start a).

(** [a[rlo:rhi, clo:chi]] *)
Definition slice2 {A} (rlo rhi clo chi : Z) (a : list (list A)) : list (list A) :=
  map (slice clo chi) (slice rlo rhi a).

Fixpoint rows (h w : nat) (d : list pixel) : array3 :=
  match h with
  | O => []
  | S h' => take w d :: rows h' w (drop w d)
  end.

(** [np.array(img)] *)
Definition array (im : Image) : array3 :=
  rows (Z.to_nat (height im)) (Z.to_nat (width im)) (data im).

(** [Image.fromarray(a, "RGBA")] for an array [a] of the shape of
    [np.array(im)]. *)
Definition fromarray_RGBA (im : Image) (a : array3) : Image :=
  {| mode := RGBA; width := width im; height := height im; data := concat a |}.

(** The sum of band [k] over a list of pixels. *)
Definition band_sum (k : nat) (pxs : list pixel) : Z :=
  fold_right Z.add 0 (map (fun px => nth k px 0) pxs).

End Np.

(** [ImageFilter.GaussianBlur] on an [L] image given as the array of its
    values, and back to an array: the blurred array has the shape of the
    one given. *)
Class ImageFilter := {
  gaussian_blur : list (list Z) -> Z -> list (list Z);
  gaussian_blur_shape :
    forall m radius, map length (gaussian_blur m radius) = map length m
}.

(** Two RGBA pixels that differ at most in their alpha band. *)
Definition same_rgb (p q : pixel) : Prop :=
  exists r g b a a', p = [r; g; b; a] /\ q = [r; g; b; a'].

Section BackgroundRemover.
Context `{Codec} `{Codec2} `{ImageFilter}.

(** What [astype(int)] makes of the [nan] that [np.mean] gives for no
    samples at all: numpy leaves it to the platform. *)
Variable nan_as_int : Z.

(** The module-level flag, and [rembg.remove] on a PIL image: an image,
    bytes, or the message of an exception. *)
Variable HAS_REMBG : bool.
Variable rembg_remove : Image -> (Image + bytes) + string.

Definition corners (img_array : Np.array3) : list Np.array3 :=
  [ Np.slice2 10 30 10 30 img_array;
    Np.slice2 10 30 (-30) (-10) img_array;
    Np.slice2 (-30) (-10) 10 30 img_array;
    Np.slice2 (-30) (-10) (-30) (-10) img_array ].

(** [np.concatenate([c.reshape(-1, 4) for c in corners])] *)
Definition all_pixels (img_array : Np.array3) : list pixel :=
  concat (map (fun c => concat c) (corners img_array)).

(** [np.mean(rgb_pixels, axis=0).astype(int)], band [k].  The samples are
    bytes and at most 1600, so their sum and the rounded quotient are exact
    enough for the truncation to be that of the exact quotient. *)
Definition mean_as_int (k : nat) (rgb_pixels : list pixel) : Z :=
  match rgb_pixels with
  | [] => nan_as_int
  | _ => Z.quot (Np.band_sum k rgb_pixels) (Z.of_nat (length rgb_pixels))
  end.

Definition _detect_background_color (img_array : Np.array3) : Z * Z * Z :=
  let rgb_pixels := map (take 3) (all_pixels img_array) in
  (mean_as_int 0 rgb_pixels, mean_as_int 1 rgb_pixels, mean_as_int 2 rgb_pixels).

Definition threshold : Z := 50.

(** The square of [color_distance] at one pixel. *)
Definition color_distance_sq (px : pixel) (bg_color : Z * Z * Z) : Z :=
  let '(r, g, b) := bg_color in
  (nth 0 px 0 - r) ^ 2 + (nth 1 px 0 - g) ^ 2 + (nth 2 px 0 - b) ^ 2.

(** [np.where(color_distance < threshold, 0, 255)]: the distance is the
    square root of a sum of squares of integers, so it is below 50 exactly
    when the sum is below 2500. *)
Definition where_mask (img_array : Np.array3) (bg_color : Z * Z * Z)
  : list (list Z) :=
  map (map (fun px => if color_distance_sq px bg_color <? threshold ^ 2
                      then 0 else 255)) img_array.

Definition _create_mask (img_array : Np.array3) (bg_color : Z * Z * Z)
  : list (list Z) :=
  gaussian_blur (where_mask img_array bg_color) 2.

(** [img_array[:, :, 3] = mask] *)
Definition set_alpha (img_array : Np.array3) (mask : list (list Z)) : Np.array3 :=
  zip_with (zip_with (fun px a => <[3%nat := a]> px)) img_array mask.

(** The image that [_placeholder_removal] encodes, from the RGBA image it
    works on. *)
Definition placeholder_result (im : Image) : Image :=
  let img_array := Np.array im in
  let bg_color := _detect_background_color img_array in
  let mask := _create_mask img_array bg_color in
  Np.fromarray_RGBA im (set_alpha img_array mask).

(** [img.save(output, format="PNG")], with or without [optimize=True], and
    [output.getvalue()] *)
Definition xencode_png (r : ref) (optimize : bool) : XM bytes :=
  let* im := xderef r in
  do* xemit (XEncodePng im optimize) in
  match png_save im optimize with
  | inl b => xret b
  | inr e => xraise e
  end.

(** [if img.mode != "RGBA": img = img.convert("RGBA")] *)
Definition xto_rgba (img : ref) : XM ref :=
  let* im := xderef img in
  if negb (Mode_eqb (mode im) RGBA) then xalloc (convert_rgba im)
  else xret img.

(** The image after [if img.mode != "RGBA": img = img.convert("RGBA")]. *)
Definition rgba_working_image (im : Image) : Image :=
  if negb (Mode_eqb (mode im) RGBA) then convert_rgba im else im.

(** The objects that decoding to [im] and that conversion create. *)
Definition rgba_objects (im : Image) : list Image :=
  im :: (if negb (Mode_eqb (mode im) RGBA) then [convert_rgba im] else []).

Definition _placeholder_removal_try_block (image_data : bytes) : XM bytes :=
  let* img := xopen_bytes image_data in
  let* img := xto_rgba img in
  let* im := xderef img in
  let* result := xalloc (placeholder_result im) in
  xencode_png result false.

Definition _placeholder_removal (image_data : bytes) : XM bytes :=
  xtry_except (_placeholder_removal_try_block image_data)
    (fun e => xraise ("Error in placeholder removal: " +:+ e)).

Definition remove_background_try_block (image_data : bytes) : XM bytes :=
  let* img := xopen_bytes image_data in
  let* img := xto_rgba img in
  if HAS_REMBG then
    do* xlog Using_rembg in
    let* im := xderef img in
    match rembg_remove im with
    | inr e => xraise e
    | inl (inl output_img) =>
        let* output_img := xalloc output_img in
        xencode_png output_img false
    | inl (inr output_bytes) =>
        let* result_img := xopen_bytes output_bytes in
        xencode_png result_img false
    end
  else
    do* xlog Using_placeholder in
    _placeholder_removal image_data.

Definition remove_background (image_data : bytes) : XM bytes :=
  xtry_except (remove_background_try_block image_data)
    (fun e => xraise ("Error removing background: " +:+ e)).

End BackgroundRemover.

(** ** Python floats

    [int(img.height * (max_width / img.width))] is computed in binary64:
    the quotient of the two integers is rounded, the product is rounded,
    and [int] truncates toward zero. *)
Module PyFloat.

Definition prec : Z := 53.
Definition emax : Z := 1024.

(** [float(n)] *)
Definition of_int (n : Z) : spec_float := binary_normalize prec emax n 0 false.

(** [a / b] on integers; [None] is [ZeroDivisionError]. *)
Definition truediv (a b : Z) : option spec_float :=
  if b =? 0 then None else Some (SFdiv prec emax (of_int a) (of_int b)).

(** [n * x] for an integer [n] and a float [x] *)
Definition mul_int (n : Z) (x : spec_float) : spec_float :=
  SFmul prec emax (of_int n) x.

(** [int(x)]; [None] for an infinity or a nan, which raise. *)
Definition to_int (x : spec_float) : option Z :=
  match x with
  | S754_zero _ => Some 0
  | S754_finite s m e =>
      let magnitude := if 0 <=? e then Zpos m * 2 ^ e else Zpos m / 2 ^ (- e) in
      Some (if s then - magnitude else magnitude)
  | S754_infinity _ | S754_nan => None
  end.

End PyFloat.

(** ** [ImageOptimizer.resize_for_web], [convert_to_png] and
    [save_processed_asset] (backend/services/image_processing.py) *)

Section ProcessedAssets.
Context `{Codec} `{Codec2} `{ImageFilter}.
Variable nan_as_int : Z.
Variable HAS_REMBG : bool.
Variable rembg_remove : Image -> (Image + bytes) + string.

(** [int(img.height * (max_width / img.width))], or the message of the
    exception. *)
Definition scaled_height (img_height max_width img_width : Z) : Z + string :=
  match PyFloat.truediv max_width img_width with
  | None => inr "division by zero"
  | Some ratio =>
      match PyFloat.to_int (PyFloat.mul_int img_height ratio) with
      | None => inr "cannot convert float to integer"
      | Some new_height => inl new_height
      end
  end.

(** [img.resize((w, h), Image.Resampling.LANCZOS)]: Pillow refuses a size
    with a side below 1. *)
Definition xresize (img : ref) (w h : Z) : XM ref :=
  let* im := xderef img in
  if (w <? 1) || (h <? 1) then xraise "height and width must be > 0"
  else xalloc (resize_lanczos im w h).

(** The image that [resize_for_web] encodes, from the decoded one, or the
    message of the exception raised on the way. *)
Definition web_image (im : Image) (max_width : Z) : Image + string :=
  if width im >? max_width then
    match scaled_height (height im) max_width (width im) with
    | inr e => inr e
    | inl new_height =>
        if (max_width <? 1) || (new_height <? 1)
        then inr "height and width must be > 0"
        else inl (resize_lanczos im max_width new_height)
    end
  else inl im.

Definition resize_for_web_try_block (image_data : bytes) (max_width : Z)
  : XM bytes :=
  let* img := xopen_bytes image_data in
  let* im := xderef img in
  let* img :=
    if width im >? max_width then
      match scaled_height (height im) max_width (width im) with
      | inr e => xraise e
      | inl new_height => xresize img max_width new_height
      end
    else xret img in
  xencode_png img true.

Definition resize_for_web (image_data : bytes) (max_width : Z) : XM bytes :=
  xtry_except (resize_for_web_try_block image_data max_width)
    (fun e => xraise ("Error resizing image: " +:+ e)).

Definition convert_to_png_try_block (image_data : bytes) : XM bytes :=
  let* img := xopen_bytes image_data in
  let* img := xto_rgba img in
  xencode_png img false.

Definition convert_to_png (image_data : bytes) : XM bytes :=
  xtry_except (convert_to_png_try_block image_data)
    (fun e => xraise ("Error converting image: " +:+ e)).

(** The dictionary that [save_processed_asset] returns. *)
Record Asset := mkAsset {
  asset_url : string;
  asset_palette : list string;
  asset_filename : string
}.

(** [str(PROCESSED_ASSETS_DIR / filename)], with POSIX separators *)
Definition processed_asset_path (filename : string) : string :=
  "static/uploads/processed/" +:+ filename.

(** [file_id] is the value of [str(uuid.uuid4())]. *)
Definition save_processed_asset_try_block (file_id : string)
    (image_data : bytes) (original_filename : string) (remove_bg : bool)
  : XM Asset :=
  let file_extension := ".png" in
  let filename := file_id +:+ file_extension in
  let* processed_data :=
    if remove_bg
    then remove_background nan_as_int HAS_REMBG rembg_remove image_data
    else convert_to_png image_data in
  let* optimized_data := resize_for_web processed_data 1080 in
  let file_path := processed_asset_path filename in
  do* xwrite_file file_path optimized_data in
  let* palette := extract_dominant_colors file_path 4 in
  let relative_url := "/static/uploads/processed/" +:+ filename in
  let full_url := "http://localhost:8000" +:+ relative_url in
  do* xlog (Asset_saved full_url) in
  do* xlog (Palette_extracted palette) in
  xret {| asset_url := full_url; asset_palette := palette;
          asset_filename := filename |}.

(** The first step of [save_processed_asset]. *)
Definition asset_process (remove_bg : bool) (image_data : bytes) : XM bytes :=
  if remove_bg
  then remove_background nan_as_int HAS_REMBG rembg_remove image_data
  else convert_to_png image_data.

Definition save_processed_asset (file_id : string) (image_data : bytes)
    (original_filename : string) (remove_bg : bool) : XM Asset :=
  xtry_except
    (save_processed_asset_try_block file_id image_data original_filename
       remove_bg)
    (fun e =>
       do* xlog (Asset_failed e) in
       xraise ("Error saving processed asset: " +:+ e)).

End ProcessedAssets.

(** A model of the blur for the examples: the mask is left as it is. *)
Module Model3.

Definition blur_none : ImageFilter :=
  {| gaussian_blur := fun m _ => m;
     gaussian_blur_shape := fun _ _ => eq_refl |}.

(** What x86-64 makes of the cast of [nan] to a 64-bit integer. *)
Definition nan_x86 : Z := - 2 ^ 63.

End Model3.

(** ** Computations that leave the files alone

    [leaves_files m]: from any world, [m] returns or raises, allocates
    objects and emits events, and the file system is as before. *)
Definition leaves_files {A} (m : XM A) : Prop :=
  forall w, exists res ext tr,
    m w = (res, {| xheap := xheap w ++ ext; xfs := xfs w;
                   xout := xout w ++ tr |}) /\
    res <> OutOfFuel.
(** * Proofs *)

Lemma encodes_app tr1 tr2 : encodes (tr1 ++ tr2) = encodes tr1 ++ encodes tr2.
Proof. apply omap_app. Qed.

Lemma prints_app tr1 tr2 : prints (tr1 ++ tr2) = prints tr1 ++ prints tr2.
Proof. apply omap_app. Qed.

(** ** Pixel level facts about flattening *)





Lemma flatten_image_mode im : mode (flatten_image im) = RGB.
Proof. reflexivity. Qed.

Lemma flatten_image_size im : size (flatten_image im) = size im.
Proof. reflexivity. Qed.

(** ** Running the Pillow calls *)

Section Runs.
Context `{Codec}.

Lemma bind_ok {A B} (m : M A) (k : A -> M B) w a w' :
  m w = (Ok a, w') -> bind m k w = k a w'.
Proof. intros E. unfold bind. rewrite E. reflexivity. Qed.

Lemma bind_raise {A B} (m : M A) (k : A -> M B) w e w' :
  m w = (Raise e, w') -> bind m k w = (Raise e, w').
Proof. intros E. unfold bind. rewrite E. reflexivity. Qed.

Lemma deref_run r im w : heap w !! r = Some im -> deref r w = (Ok im, w).
Proof. intros E. unfold deref. rewrite E. reflexivity. Qed.

Lemma Image_save_buffer_run r im q w :
  heap w !! r = Some im ->
  Image_save_buffer r q w =
    (match jpeg_save im q with inl b => Ok b | inr e => Raise e end,
     with_out w [EvEncode im q]).
Proof.
  intros Hr. unfold Image_save_buffer, bind, deref, emit. rewrite Hr. simpl.
  destruct (jpeg_save im q); reflexivity.
Qed.

Lemma alloc_all_run ims w :
  alloc_all ims w =
    (Ok (seq (length (heap w)) (length ims)), with_heap w (heap w ++ ims)).
Proof.
  revert w. induction ims as [|im ims IH]; intros w.
  - simpl. unfold ret, with_heap. rewrite app_nil_r. destruct w; reflexivity.
  - simpl. unfold bind at 1. unfold alloc at 1. unfold bind at 1.
    rewrite IH. simpl. unfold ret, with_heap. simpl.
    rewrite length_app. simpl. rewrite Nat.add_1_r, <- app_assoc. reflexivity.
Qed.

Lemma flatten_on_white_run image im w :
  heap w !! image = Some im ->
  mode im = RGBA ->
  flatten_on_white image w =
    (Ok (length (heap w)),
     with_heap w (heap w ++ flatten_image im :: split_image im)).
Proof.
  intros Hr Hm.
  assert (Hlt : (image < length (heap w))%nat) by (eapply lookup_lt_Some; eauto).
  unfold flatten_on_white.
  erewrite bind_ok by (apply deref_run; eassumption).
  erewrite bind_ok by reflexivity.
  erewrite bind_ok.
  2:{ unfold Image_split. erewrite bind_ok.
      2:{ apply deref_run. simpl. rewrite lookup_app_l by assumption. eassumption. }
      apply alloc_all_run. }
  unfold split_image. rewrite Hm. simpl.
  erewrite bind_ok by reflexivity.
  set (bg := new_image RGB (size im) white).
  set (h1 := (heap w ++ [bg]) ++ [band 0 im; band 1 im; band 2 im; band 3 im]).
  assert (E1 : h1 = heap w ++ bg :: [band 0 im; band 1 im; band 2 im; band 3 im])
    by (unfold h1; rewrite <- app_assoc; reflexivity).
  erewrite bind_ok.
  2:{ unfold Image_paste.
      erewrite bind_ok.
      2:{ apply deref_run. simpl. rewrite E1. apply list_lookup_middle. reflexivity. }
      erewrite bind_ok.
      2:{ apply deref_run. simpl. rewrite E1. rewrite lookup_app_l by assumption.
          eassumption. }
      erewrite bind_ok.
      2:{ apply deref_run. simpl. rewrite E1. rewrite length_app. simpl.
          rewrite lookup_app_r by lia.
          replace (S (S (S (length (heap w) + 1))) - length (heap w))%nat
            with 4%nat by lia.
          reflexivity. }
      reflexivity. }
  unfold ret, with_heap. simpl. rewrite E1.
  rewrite insert_app_r_alt by lia. rewrite Nat.sub_diag. reflexivity.
Qed.

Lemma print_run m w : print m w = (Ok tt, with_out w [EvPrint m]).
Proof. reflexivity. Qed.

Lemma with_out_with_out w tr1 tr2 :
  with_out (with_out w tr1) tr2 = with_out w (tr1 ++ tr2).
Proof. unfold with_out. simpl. rewrite <- app_assoc. reflexivity. Qed.

Lemma with_heap_with_heap w h1 h2 :
  with_heap (with_heap w h1) h2 = with_heap w h2.
Proof. reflexivity. Qed.

Lemma extend_nil w : extend w [] [] = w.
Proof.
  unfold extend, with_out, with_heap. simpl. rewrite !app_nil_r.
  destruct w; reflexivity.
Qed.

Lemma extend_extend w e1 t1 e2 t2 :
  extend (extend w e1 t1) e2 t2 = extend w (e1 ++ e2) (t1 ++ t2).
Proof.
  unfold extend, with_out, with_heap. simpl. rewrite <- !app_assoc. reflexivity.
Qed.

Lemma with_heap_extend w ext : with_heap w (heap w ++ ext) = extend w ext [].
Proof. unfold extend, with_out, with_heap. simpl. rewrite app_nil_r. reflexivity. Qed.

Lemma with_out_extend w tr : with_out w tr = extend w [] tr.
Proof.
  unfold extend, with_out, with_heap. simpl. rewrite app_nil_r. reflexivity.
Qed.

(** *** [optimize_for_retail] *)

Lemma retail_to_rgb_run image im w :
  heap w !! image = Some im ->
  exists r wim ext,
    retail_to_rgb image w = (Ok r, with_heap w (heap w ++ ext)) /\
    (heap w ++ ext) !! r = Some wim /\
    mode wim = RGB /\
    wim = retail_working_image im.
Proof.
  intros Hr. unfold retail_to_rgb, retail_working_image.
  erewrite bind_ok by (apply deref_run; eassumption).
  destruct (mode im) eqn:Hm; simpl.
  all: try (exists (length (heap w)), (convert_rgb im), [convert_rgb im];
            unfold Image_convert_RGB;
            erewrite bind_ok by (apply deref_run; eassumption);
            repeat split;
            [ apply list_lookup_middle; reflexivity | apply convert_rgb_mode ]).
  - exists image, im, []. rewrite app_nil_r. unfold ret, with_heap.
    destruct w; simpl in *. repeat split; assumption.
  - exists (length (heap w)), (flatten_image im),
      (flatten_image im :: split_image im).
    rewrite (flatten_on_white_run _ im) by assumption.
    repeat split.
    apply list_lookup_middle; reflexivity.
Qed.

Lemma retail_quality_S j : retail_quality (S j) = retail_quality j - 5.
Proof. unfold retail_quality. lia. Qed.

(** One turn of the loop. *)
Lemma retail_loop_S fuel image im quality iteration w :
  heap w !! image = Some im ->
  iteration < retail_max_iterations ->
  retail_loop (S fuel) image quality iteration w =
    match jpeg_save im quality with
    | inr e => (Raise e, with_out w [EvEncode im quality])
    | inl b =>
        let tr := [EvEncode im quality;
                   EvPrint (Retail_iteration (iteration + 1) quality (len b))] in
        if kb_lt (len b) retail_target_size_kb then
          (Ok b, with_out w (tr ++ [EvPrint (Retail_ok (len b) quality)]))
        else if quality - 5 <? 10 then
          (Ok b, with_out w (tr ++ [EvPrint Retail_warning_could_not_compress;
                                    EvPrint (Retail_warning_final_size (len b))]))
        else retail_loop fuel image (quality - 5) (iteration + 1) (with_out w tr)
    end.
Proof.
  intros Hr Hit. simpl retail_loop.
  replace (iteration <? retail_max_iterations) with true
    by (symmetry; apply Z.ltb_lt; assumption).
  unfold bind at 1. rewrite (Image_save_buffer_run _ im) by assumption.
  destruct (jpeg_save im quality) as [b|e]; [|reflexivity].
  erewrite bind_ok by apply print_run. rewrite with_out_with_out.
  cbv zeta. simpl app.
  destruct (kb_lt (len b) retail_target_size_kb).
  { erewrite bind_ok by apply print_run. rewrite with_out_with_out. reflexivity. }
  destruct (quality - 5 <? 10); [|reflexivity].
  erewrite bind_ok by apply print_run. rewrite with_out_with_out.
  erewrite bind_ok by apply print_run. rewrite with_out_with_out. reflexivity.
Qed.

(** One run of the loop from attempt [k] on: it stops at some attempt
    [n <= 17], every attempt before [n] having missed the budget, in one
    of three ways. *)
Lemma retail_loop_run fuel image im k w :
  heap w !! image = Some im ->
  (k <= 17)%nat -> (18 <= fuel + k)%nat ->
  exists n tr,
    (k <= n <= 17)%nat /\
    (forall j, (k <= j < n)%nat ->
       exists b, jpeg_save im (retail_quality j) = inl b /\
                 kb_lt (len b) retail_target_size_kb = false) /\
    encodes tr = map (fun j => (im, retail_quality j)) (seq k (S n - k)) /\
    ((exists e, jpeg_save im (retail_quality n) = inr e /\
        retail_loop fuel image (retail_quality k) (Z.of_nat k) w
          = (Raise e, with_out w tr))
     \/ (exists b, jpeg_save im (retail_quality n) = inl b /\
          kb_lt (len b) retail_target_size_kb = true /\
          retail_loop fuel image (retail_quality k) (Z.of_nat k) w
            = (Ok b, with_out w tr) /\
          exists tr0, tr = tr0 ++ [EvPrint (Retail_ok (len b) (retail_quality n))])
     \/ (exists b, jpeg_save im (retail_quality n) = inl b /\
          kb_lt (len b) retail_target_size_kb = false /\ n = 17%nat /\
          retail_loop fuel image (retail_quality k) (Z.of_nat k) w
            = (Ok b, with_out w tr) /\
          exists tr0, tr = tr0 ++ [EvPrint Retail_warning_could_not_compress;
                                   EvPrint (Retail_warning_final_size (len b))])).
Proof.
  revert k w. induction fuel as [|fuel IH]; intros k w Hr Hk Hf; [lia|].
  rewrite (retail_loop_S _ _ im) by (assumption || (unfold retail_max_iterations; lia)).
  destruct (jpeg_save im (retail_quality k)) as [b|e] eqn:Esave.
  2:{ exists k, [EvEncode im (retail_quality k)].
      replace (S k - k)%nat with 1%nat by lia.
      split; [lia|]. split; [intros; lia|]. split; [reflexivity|].
      left. exists e. split; [assumption | reflexivity]. }
  destruct (kb_lt (len b) retail_target_size_kb) eqn:Efit.
  { exists k. eexists.
    replace (S k - k)%nat with 1%nat by lia.
    split; [lia|]. split; [intros; lia|]. split; [|right; left; exists b].
    2:{ split; [assumption|]. split; [assumption|].
        split; [reflexivity|]. eexists [_; _]. reflexivity. }
    reflexivity. }
  destruct (retail_quality k - 5 <? 10) eqn:Efloor.
  { assert (k = 17%nat) by (apply Z.ltb_lt in Efloor; unfold retail_quality in Efloor; lia).
    subst k. exists 17%nat. eexists.
    split; [lia|]. split; [intros; lia|]. split; [|right; right; exists b].
    2:{ split; [assumption|]. split; [assumption|]. split; [reflexivity|].
        split; [reflexivity|]. eexists [_; _]. reflexivity. }
    reflexivity. }
  assert (Hk' : (k < 17)%nat)
    by (apply Z.ltb_ge in Efloor; unfold retail_quality in Efloor; lia).
  destruct (IH (S k)
              (with_out w [EvEncode im (retail_quality k);
                           EvPrint (Retail_iteration (Z.of_nat k + 1)
                                      (retail_quality k) (len b))]))
    as (n & tr & Hn & Hmiss & Henc & Hout); [assumption | lia | lia |].
  exists n, (EvEncode im (retail_quality k)
             :: EvPrint (Retail_iteration (Z.of_nat k + 1)
                           (retail_quality k) (len b)) :: tr).
  split; [lia|]. split.
  { intros j Hj. destruct (decide (j = k)) as [->|Hne].
    - exists b. split; assumption.
    - apply Hmiss. lia. }
  split.
  { replace (S n - k)%nat with (S (S n - S k)) by lia.
    change (encodes (?a :: ?b :: tr)) with (encodes ([a; b] ++ tr)).
    rewrite encodes_app, Henc. reflexivity. }
  rewrite with_out_with_out in Hout. simpl app in Hout.
  rewrite retail_quality_S in Hout.
  replace (Z.of_nat (S k)) with (Z.of_nat k + 1) in Hout by lia.
  destruct Hout as [(e & He & Hrun) | [(b' & Hb' & Hfit & Hrun & tr0 & Htr)
                                      | (b' & Hb' & Hfit & Hn17 & Hrun & tr0 & Htr)]].
  - left. exists e. split; assumption.
  - right; left. exists b'. repeat (split; [assumption|]).
    eexists (_ :: _ :: tr0). rewrite Htr. reflexivity.
  - right; right. exists b'. repeat (split; [assumption|]).
    eexists (_ :: _ :: tr0). rewrite Htr. reflexivity.
Qed.

(** The whole call, for enough fuel: the working image [wim] is encoded at
    qualities 95, 90, ... until attempt [n <= 17] ends the call. *)
Lemma optimize_for_retail_run fuel image im w :
  heap w !! image = Some im ->
  (18 <= fuel)%nat ->
  let wim := retail_working_image im in
  exists n tr ext res,
    optimize_for_retail fuel image w = (res, extend w ext tr) /\
    (n <= 17)%nat /\
    mode wim = RGB /\
    (forall j, (j < n)%nat ->
       exists b, jpeg_save wim (retail_quality j) = inl b /\
                 kb_lt (len b) retail_target_size_kb = false) /\
    encodes tr = map (fun j => (wim, retail_quality j)) (seq 0 (S n)) /\
    ((exists e, jpeg_save wim (retail_quality n) = inr e /\
        res = Raise ("Error in optimize_for_retail: " +:+ e))
     \/ (exists b, jpeg_save wim (retail_quality n) = inl b /\
          kb_lt (len b) retail_target_size_kb = true /\
          res = Ok b /\
          exists tr0, tr = tr0 ++ [EvPrint (Retail_ok (len b) (retail_quality n))])
     \/ (exists b, jpeg_save wim (retail_quality n) = inl b /\
          kb_lt (len b) retail_target_size_kb = false /\ n = 17%nat /\
          res = Ok b /\
          exists tr0, tr = tr0 ++ [EvPrint Retail_warning_could_not_compress;
                                   EvPrint (Retail_warning_final_size (len b))])).
Proof.
  intros Hr Hfuel wim.
  destruct (retail_to_rgb_run image im w Hr)
    as (r & wim' & ext & Hpre & Hwim & Hmode & Heq).
  fold wim in Heq. subst wim'.
  destruct (retail_loop_run fuel r wim 0 (with_heap w (heap w ++ ext)))
    as (n & tr & Hn & Hmiss & Henc & Hout); [exact Hwim | lia | lia |].
  change (retail_quality 0) with 95 in Hout. change (Z.of_nat 0) with 0 in Hout.
  rewrite Nat.sub_0_r in Henc.
  assert (Hmiss' : forall j, (j < n)%nat ->
            exists b, jpeg_save wim (retail_quality j) = inl b /\
                      kb_lt (len b) retail_target_size_kb = false)
    by (intros j Hj; apply Hmiss; lia).
  unfold optimize_for_retail, try_except.
  erewrite bind_ok by exact Hpre.
  fold (extend w ext tr) in Hout.
  destruct Hout as [(e & He & Hrun) | [(b & Hb & Hfit & Hrun & Htr)
                                      | (b & Hb & Hfit & Hn17 & Hrun & Htr)]];
    rewrite Hrun.
  - exists n, tr, ext, (Raise ("Error in optimize_for_retail: " +:+ e)).
    split; [reflexivity|]. split; [lia|]. do 3 (split; [assumption|]).
    left. exists e. split; [assumption | reflexivity].
  - exists n, tr, ext, (Ok b).
    split; [reflexivity|]. split; [lia|]. do 3 (split; [assumption|]).
    right; left. exists b. repeat (split; [assumption || reflexivity|]). assumption.
  - exists n, tr, ext, (Ok b).
    split; [reflexivity|]. split; [lia|]. do 3 (split; [assumption|]).
    right; right. exists b. repeat (split; [assumption || reflexivity|]). assumption.
Qed.

(** *** [optimize_export] *)

Lemma export_state_S t st :
  export_state (S t) st = export_next (export_state t st).
Proof.
  revert st. induction t as [|t IH]; intros st; [reflexivity|].
  change (export_state (S (S t)) st) with (export_state (S t) (export_next st)).
  rewrite IH. reflexivity.
Qed.

Lemma Image_resize_run r im wd ht w :
  heap w !! r = Some im ->
  Image_resize r wd ht w =
    (Ok (length (heap w)), with_heap w (heap w ++ [resize_lanczos im wd ht])).
Proof.
  intros Hr. unfold Image_resize.
  erewrite bind_ok by (apply deref_run; eassumption). reflexivity.
Qed.

(** One turn of the loop. *)
Lemma export_loop_S fuel tb mi img im quality iteration cs od w :
  heap w !! img = Some im ->
  tb < cs -> iteration < mi ->
  export_loop (S fuel) tb mi img quality iteration cs od w =
    let st := export_next (im, quality) in
    let w1 := with_out (with_heap w (heap w ++ [fst st]))
                [EvPrint (Export_iteration (iteration + 1) cs quality);
                 EvEncode (fst st) (snd st)] in
    match jpeg_save (fst st) (snd st) with
    | inr e => (Raise e, w1)
    | inl b =>
        export_loop fuel tb mi (length (heap w)) (snd st) (iteration + 1)
          (len b) b w1
    end.
Proof.
  intros Hr Hcs Hit. simpl export_loop.
  replace (tb <? cs) with true by (symmetry; apply Z.ltb_lt; assumption).
  replace (iteration <? mi) with true by (symmetry; apply Z.ltb_lt; assumption).
  change (true && true) with true. cbv iota.
  erewrite bind_ok by apply print_run.
  erewrite bind_ok by (apply deref_run; simpl; eassumption).
  erewrite bind_ok by (apply Image_resize_run; simpl; eassumption).
  unfold bind at 1.
  erewrite Image_save_buffer_run
    by (simpl; apply list_lookup_middle; reflexivity).
  unfold export_next. simpl fst. simpl snd. cbv zeta.
  destruct (jpeg_save _ _); unfold with_out, with_heap; simpl;
    rewrite <- app_assoc; reflexivity.
Qed.

Lemma export_loop_stop fuel tb mi img quality iteration cs od w :
  (tb <? cs) && (iteration <? mi) = false ->
  export_loop (S fuel) tb mi img quality iteration cs od w = (Ok (cs, od), w).
Proof. intros E. simpl. rewrite E. reflexivity. Qed.

Lemma export_loop_run fuel tb mi img wim k cs od w :
  heap w !! img = Some (fst (export_state k (wim, 85))) ->
  0 < Z.of_nat fuel -> mi - Z.of_nat k < Z.of_nat fuel ->
  exists n tr ext res,
    export_loop fuel tb mi img (snd (export_state k (wim, 85)))
      (Z.of_nat k) cs od w = (res, extend w ext tr) /\
    (k <= n)%nat /\ Z.of_nat n <= Z.max (Z.of_nat k) mi /\
    ((k < n)%nat -> tb < cs) /\
    (forall t, (k < t < n)%nat ->
       exists b, export_attempt wim t = inl b /\ tb < len b) /\
    encodes tr = map (fun t => export_state t (wim, 85)) (seq (S k) (n - k)) /\
    Forall (fun m => is_iteration_line m = true) (prints tr) /\
    ((exists e, (k < n)%nat /\ export_attempt wim n = inr e /\ res = Raise e)
     \/ (exists cs' od',
           res = Ok (cs', od') /\
           (n = k -> cs' = cs /\ od' = od) /\
           ((k < n)%nat -> export_attempt wim n = inl od' /\ cs' = len od') /\
           (cs' <= tb \/ mi <= Z.of_nat n))).
Proof.
  revert img k cs od w.
  induction fuel as [|fuel IH]; intros img k cs od w Hr Hpos Hfuel; [lia|].
  destruct ((tb <? cs) && (Z.of_nat k <? mi)) eqn:Econd.
  2:{ rewrite export_loop_stop by assumption.
      exists k, [], [], (Ok (cs, od)). rewrite extend_nil.
      split; [reflexivity|]. split; [lia|]. split; [lia|].
      split; [lia|]. split; [intros; lia|].
      rewrite Nat.sub_diag. split; [reflexivity|]. split; [constructor|].
      right. exists cs, od. split; [reflexivity|]. split; [tauto|].
      split; [lia|].
      apply andb_false_iff in Econd as [E|E]; apply Z.ltb_ge in E; lia. }
  apply andb_true_iff in Econd as [Ecs Eit].
  apply Z.ltb_lt in Ecs. apply Z.ltb_lt in Eit.
  rewrite (export_loop_S _ _ _ _ (fst (export_state k (wim, 85))))
    by assumption.
  cbv zeta.
  change (export_next ((export_state k (wim, 85)).1, (export_state k (wim, 85)).2))
    with (export_next (export_state k (wim, 85))).
  rewrite <- export_state_S.
  assert (Hatt : export_attempt wim (S k)
                 = jpeg_save (export_state (S k) (wim, 85)).1
                     (export_state (S k) (wim, 85)).2) by reflexivity.
  remember (export_state (S k) (wim, 85)) as st eqn:Est.
  destruct st as [im' q']. simpl fst in *. simpl snd in *.
  fold (extend w [im'] [EvPrint (Export_iteration (Z.of_nat k + 1) cs
                                   (export_state k (wim, 85)).2);
                        EvEncode im' q']).
  destruct (jpeg_save im' q') as [b|e] eqn:Esave.
  2:{ exists (S k). eexists. eexists. exists (Raise e).
      split; [reflexivity|]. split; [lia|]. split; [lia|].
      split; [intros; assumption|]. split; [intros; lia|].
      replace (S k - k)%nat with 1%nat by lia.
      split; [cbn [seq map]; rewrite <- Est; reflexivity|].
      split; [repeat constructor|].
      left. exists e. split; [lia|]. split; [exact Hatt | reflexivity]. }
  replace (Z.of_nat k + 1) with (Z.of_nat (S k)) by lia.
  edestruct (IH (length (heap w)) (S k) (len b) b) as
    (n & tr & ext & res & Hrun & Hkn & Hn & Hcs & Hmiss & Henc & Hpr & Hres);
    [ | | | rewrite <- Est in Hrun; simpl snd in Hrun; rewrite Hrun ].
  { rewrite <- Est. unfold extend, with_out, with_heap. simpl.
    apply list_lookup_middle. reflexivity. }
  { lia. }
  { lia. }
  rewrite extend_extend.
  exists n. eexists. eexists. exists res.
  split; [reflexivity|]. split; [lia|]. split; [lia|].
  split; [intros; assumption|].
  split.
  { intros t Ht. destruct (decide (t = S k)) as [->|Hne].
    - exists b. split; [exact Hatt | apply Hcs; lia].
    - apply Hmiss. lia. }
  split.
  { rewrite encodes_app, Henc.
    replace (n - k)%nat with (S (n - S k)) by lia.
    cbn [seq map]. rewrite <- Est. reflexivity. }
  split.
  { rewrite prints_app. apply Forall_app. split; [repeat constructor | exact Hpr]. }
  destruct Hres as [(e & Hlt & He & ->) | (cs' & od' & -> & Hn0 & Hn1 & Hdone)].
  - left. exists e. split; [lia|]. split; [assumption | reflexivity].
  - right. exists cs', od'. split; [reflexivity|].
    split; [intros; lia|]. split; [|assumption].
    intros _. destruct (decide (n = S k)) as [->|Hne].
    + destruct (Hn0 eq_refl) as [-> ->]. split; [exact Hatt | reflexivity].
    + apply Hn1. lia.
Qed.

Lemma export_to_rgb_run img im w :
  heap w !! img = Some im ->
  exists r wim ext,
    export_to_rgb img w = (Ok r, extend w ext []) /\
    (heap w ++ ext) !! r = Some wim /\
    has_alpha (mode wim) = false /\
    wim = export_working_image im.
Proof.
  intros Hr. unfold export_to_rgb, export_working_image.
  erewrite bind_ok by (apply deref_run; eassumption).
  destruct (mode im) eqn:Hm; cbv beta iota.
  all: try (exists img, im, []; rewrite extend_nil, app_nil_r;
            repeat split; try (intuition congruence); rewrite Hm; reflexivity).
  all: try (exists (length (heap w)), (convert_rgb im), [convert_rgb im];
            unfold Image_convert_RGB;
            erewrite bind_ok by (apply deref_run; eassumption);
            rewrite <- with_heap_extend;
            repeat split; try (intuition congruence);
            [ apply list_lookup_middle; reflexivity
            | rewrite convert_rgb_mode; reflexivity ]).
  exists (length (heap w)), (flatten_image im),
    (flatten_image im :: split_image im).
  rewrite (flatten_on_white_run _ im), with_heap_extend by assumption.
  repeat split; try (intuition congruence).
  apply list_lookup_middle; reflexivity.
Qed.

Lemma optimize_export_open_fails fuel data kb mi e w :
  image_open data = inr e ->
  optimize_export fuel data kb mi w
    = (Raise ("Error optimizing export: " +:+ e), w).
Proof.
  intros E. unfold optimize_export, try_except, bind, Image_open_bytes.
  rewrite E. reflexivity.
Qed.

Lemma optimize_export_run fuel data kb mi im w :
  image_open data = inl im ->
  0 < Z.of_nat fuel -> mi < Z.of_nat fuel ->
  let wim := export_working_image im in
  exists n tr ext res,
    optimize_export fuel data kb mi w = (res, extend w ext tr) /\
    Z.of_nat n <= Z.max 0 mi /\
    has_alpha (mode wim) = false /\
    ((0 < n)%nat -> kb * 1024 < len data) /\
    (forall t, (0 < t < n)%nat ->
       exists b, export_attempt wim t = inl b /\ kb * 1024 < len b) /\
    encodes tr = map (fun t => export_state t (wim, 85)) (seq 1 n) /\
    ((exists e, (0 < n)%nat /\ export_attempt wim n = inr e /\
        res = Raise ("Error optimizing export: " +:+ e))
     \/ (exists od',
           res = Ok od' /\
           (n = 0%nat -> od' = data) /\
           ((0 < n)%nat -> export_attempt wim n = inl od') /\
           (len od' <= kb * 1024 \/ mi <= Z.of_nat n) /\
           exists tr0,
             Forall (fun m => is_iteration_line m = true) (prints tr0) /\
             tr = tr0
                  ++ (if kb * 1024 <? len od'
                      then [EvPrint (Export_warning_could_not_optimize mi);
                            EvPrint (Export_warning_final_size (len od'))]
                      else [])
                  ++ [EvPrint (Export_ok (len od'))])).
Proof.
  intros Hopen Hpos Hfuel wim.
  unfold optimize_export, try_except. cbv zeta.
  assert (Ho : Image_open_bytes data w = (Ok (length (heap w)), extend w [im] []))
    by (unfold Image_open_bytes; rewrite Hopen; unfold alloc;
        rewrite <- with_heap_extend; reflexivity).
  erewrite bind_ok by exact Ho.
  destruct (export_to_rgb_run (length (heap w)) im (extend w [im] []))
    as (r & wim' & ext & Hpre & Hwim & Halpha & Heq).
  { simpl. apply list_lookup_middle. reflexivity. }
  fold wim in Heq. subst wim'.
  erewrite bind_ok by exact Hpre. rewrite extend_extend.
  destruct (export_loop_run fuel (kb * 1024) mi r wim 0 (len data) data
              (extend w ([im] ++ ext) ([] ++ [])))
    as (n & tr & ext' & res & Hrun & _ & Hn & Hcs & Hmiss & Henc & Hpr & Hres).
  { simpl. simpl in Hwim. rewrite <- app_assoc in Hwim. exact Hwim. }
  { assumption. }
  { simpl. lia. }
  simpl export_state in Hrun. simpl snd in Hrun. simpl Z.of_nat in Hrun.
  rewrite Nat.sub_0_r in Henc.
  destruct Hres as [(e & Hlt & He & ->) | (cs' & od' & -> & Hn0 & Hn1 & Hdone)].
  - erewrite bind_raise by exact Hrun. rewrite extend_extend.
    exists n. eexists. eexists. eexists.
    split; [reflexivity|]. split; [lia|]. split; [assumption|].
    split; [assumption|]. split; [assumption|]. split; [exact Henc|].
    left. exists e. split; [assumption|]. split; [assumption | reflexivity].
  - erewrite bind_ok by exact Hrun. rewrite extend_extend.
    assert (Hcs' : cs' = len od').
    { destruct n; [destruct (Hn0 eq_refl) as [-> ->]; reflexivity | apply Hn1; lia]. }
    subst cs'.
    exists n.
    exists (tr ++ (if kb * 1024 <? len od'
                   then [EvPrint (Export_warning_could_not_optimize mi);
                         EvPrint (Export_warning_final_size (len od'))]
                   else [])
               ++ [EvPrint (Export_ok (len od'))]).
    eexists. exists (Ok od').
    split.
    { destruct (kb * 1024 <? len od').
      - erewrite bind_ok.
        2:{ erewrite bind_ok by apply print_run. apply print_run. }
        erewrite bind_ok by apply print_run.
        unfold ret. rewrite !with_out_with_out, with_out_extend, extend_extend.
        rewrite app_nil_r. reflexivity.
      - erewrite bind_ok by reflexivity.
        erewrite bind_ok by apply print_run.
        unfold ret. rewrite with_out_extend, extend_extend.
        rewrite app_nil_r. reflexivity. }
    split; [lia|]. split; [assumption|].
    split; [assumption|]. split; [assumption|].
    split.
    { rewrite encodes_app, Henc.
      destruct (kb * 1024 <? len od'); simpl; rewrite app_nil_r; reflexivity. }
    right. exists od'. split; [reflexivity|].
    split; [intros E; apply Hn0, E|].
    split; [intros E; apply Hn1; lia|].
    split; [lia|].
    exists tr. split; [assumption | reflexivity].
Qed.

(** *** [recursive_optimize_export] *)

Lemma recursive_quality_S t : recursive_quality (S t) = recursive_quality t - 5.
Proof. unfold recursive_quality, QUALITY_START, QUALITY_STEP. lia. Qed.

Lemma recursive_loop_stop fuel path img cs quality iteration w :
  kb_gt cs MAX_FILE_SIZE_KB && (QUALITY_MIN <=? quality) = false ->
  recursive_loop (S fuel) path img cs quality iteration w
    = (Ok (cs, quality, iteration), w).
Proof. intros E. simpl. rewrite E. reflexivity. Qed.

(** One turn of the loop (the cap of 20 turns not yet reached). *)
Lemma recursive_loop_S fuel path img wim cs quality iteration w :
  heap w !! img = Some wim ->
  kb_gt cs MAX_FILE_SIZE_KB = true -> QUALITY_MIN <= quality ->
  iteration + 1 < recursive_max_iterations ->
  recursive_loop (S fuel) path img cs quality iteration w =
    let w1 := with_out w [EvPrint (Log_iteration (iteration + 1)
                                     (quality - QUALITY_STEP) cs);
                          EvEncode wim (quality - QUALITY_STEP)] in
    match jpeg_save wim (quality - QUALITY_STEP) with
    | inr e => (Raise e, w1)
    | inl b =>
        recursive_loop fuel path img (len b) (quality - QUALITY_STEP)
          (iteration + 1) (wrote w1 path b)
    end.
Proof.
  intros Hr Hcs Hq Hit. simpl recursive_loop. rewrite Hcs.
  replace (QUALITY_MIN <=? quality) with true
    by (symmetry; apply Z.leb_le; assumption).
  change (true && true) with true. cbv iota.
  erewrite bind_ok by apply print_run.
  unfold Image_save_file.
  unfold bind at 1. unfold bind at 1.
  erewrite Image_save_buffer_run by (simpl; eassumption).
  rewrite with_out_with_out. simpl app. cbv zeta.
  destruct (jpeg_save wim (quality - QUALITY_STEP)) as [b|e]; [|reflexivity].
  unfold write_file at 1.
  unfold bind at 1. unfold getsize at 1. simpl fs.
  rewrite lookup_insert_eq.
  replace (recursive_max_iterations <=? iteration + 1) with false
    by (symmetry; apply Z.leb_gt; assumption).
  reflexivity.
Qed.

Lemma recursive_loop_run fuel path img wim k cs w :
  heap w !! img = Some wim ->
  (k <= 7)%nat -> (8 <= fuel + k)%nat ->
  exists n tr fs' res,
    recursive_loop fuel path img cs (recursive_quality k) (Z.of_nat k) w
      = (res, {| heap := heap w; fs := fs'; out := out w ++ tr |}) /\
    (k <= n <= 7)%nat /\
    ((k < n)%nat -> kb_gt cs MAX_FILE_SIZE_KB = true) /\
    (forall t, (k < t < n)%nat ->
       exists b, jpeg_save wim (recursive_quality t) = inl b /\
                 kb_gt (len b) MAX_FILE_SIZE_KB = true) /\
    encodes tr = map (fun t => (wim, recursive_quality t)) (seq (S k) (n - k)) /\
    (forall p, p <> path -> fs' !! p = fs w !! p) /\
    ((exists e, (k < n)%nat /\ jpeg_save wim (recursive_quality n) = inr e /\
        res = Raise e)
     \/ (exists cs',
           res = Ok (cs', recursive_quality n, Z.of_nat n) /\
           (n = k -> cs' = cs /\ fs' = fs w) /\
           ((k < n)%nat ->
              exists b, jpeg_save wim (recursive_quality n) = inl b /\
                        cs' = len b /\ fs' = <[path := b]> (fs w)) /\
           (kb_gt cs' MAX_FILE_SIZE_KB = false \/ n = 7%nat))).
Proof.
  revert k cs w.
  induction fuel as [|fuel IH]; intros k cs w Hr Hk Hfuel; [lia|].
  destruct (kb_gt cs MAX_FILE_SIZE_KB && (QUALITY_MIN <=? recursive_quality k))
    eqn:Econd.
  2:{ rewrite recursive_loop_stop by assumption.
      exists k, [], (fs w), (Ok (cs, recursive_quality k, Z.of_nat k)).
      rewrite app_nil_r. split; [destruct w; reflexivity|].
      split; [lia|]. split; [lia|]. split; [intros; lia|].
      rewrite Nat.sub_diag. split; [reflexivity|]. split; [reflexivity|].
      right. exists cs. split; [reflexivity|]. split; [tauto|]. split; [lia|].
      apply andb_false_iff in Econd as [E|E]; [left; exact E|].
      right. apply Z.leb_gt in E.
      unfold recursive_quality, QUALITY_MIN, QUALITY_START, QUALITY_STEP in E. lia. }
  apply andb_true_iff in Econd as [Ecs Eq]. apply Z.leb_le in Eq.
  assert (Hk6 : (k <= 6)%nat)
    by (unfold recursive_quality, QUALITY_MIN, QUALITY_START, QUALITY_STEP in Eq; lia).
  rewrite (recursive_loop_S _ _ _ wim)
    by (assumption || (unfold recursive_max_iterations; lia)).
  cbv zeta. change (recursive_quality k - QUALITY_STEP) with (recursive_quality k - 5).
  rewrite <- recursive_quality_S.
  destruct (jpeg_save wim (recursive_quality (S k))) as [b|e] eqn:Esave.
  2:{ exists (S k). eexists. exists (fs w), (Raise e).
      split; [reflexivity|]. split; [lia|]. split; [intros; assumption|].
      split; [intros; lia|].
      replace (S k - k)%nat with 1%nat by lia.
      split; [reflexivity|]. split; [reflexivity|].
      left. exists e. split; [lia|]. split; [assumption | reflexivity]. }
  replace (Z.of_nat k + 1) with (Z.of_nat (S k)) by lia.
  edestruct (IH (S k) (len b)) as
    (n & tr & fs' & res & Hrun & Hn & Hcs & Hmiss & Henc & Hframe & Hres);
    [ | | | rewrite Hrun ].
  { simpl. exact Hr. }
  { lia. }
  { lia. }
  exists n. eexists. exists fs', res.
  split.
  { simpl. rewrite <- app_assoc. reflexivity. }
  split; [lia|]. split; [intros; assumption|].
  split.
  { intros t Ht. destruct (decide (t = S k)) as [->|Hne].
    - exists b. split; [assumption | apply Hcs; lia].
    - apply Hmiss. lia. }
  split.
  { rewrite encodes_app, Henc.
    replace (n - k)%nat with (S (n - S k)) by lia. reflexivity. }
  split.
  { intros p Hp. rewrite Hframe by assumption. simpl.
    apply lookup_insert_ne. congruence. }
  destruct Hres as [(e & Hlt & He & ->) | (cs' & -> & Hn0 & Hn1 & Hdone)].
  - left. exists e. split; [lia|]. split; [assumption | reflexivity].
  - right. exists cs'. split; [reflexivity|]. split; [intros; lia|].
    split; [|assumption].
    intros _. destruct (decide (n = S k)) as [->|Hne].
    + destruct (Hn0 eq_refl) as [-> ->]. exists b.
      split; [assumption|]. split; reflexivity.
    + destruct Hn1 as (b' & Hb' & -> & ->); [lia|].
      exists b'. split; [assumption|]. split; [reflexivity|].
      simpl. apply insert_insert_eq.
Qed.

Lemma try_except_ok {A} (m : M A) h w a w' :
  m w = (Ok a, w') -> try_except m h w = (Ok a, w').
Proof. intros E. unfold try_except. rewrite E. reflexivity. Qed.

Lemma try_except_raise {A} (m : M A) h w e w' :
  m w = (Raise e, w') -> try_except m h w = h e w'.
Proof. intros E. unfold try_except. rewrite E. reflexivity. Qed.

Lemma path_exists_run p w :
  path_exists p w = (Ok (bool_decide (is_Some (fs w !! p))), w).
Proof. reflexivity. Qed.

(** The file does not exist: [None], nothing touched. *)
Lemma recursive_missing_file fuel path w :
  fs w !! path = None ->
  recursive_optimize_export fuel path w
    = (Ok None, with_out w [EvPrint (Log_file_not_found path)]).
Proof.
  intros E. unfold recursive_optimize_export.
  erewrite bind_ok by apply path_exists_run.
  rewrite E. rewrite bool_decide_eq_false_2 by (intros [? ?]; discriminate).
  reflexivity.
Qed.

(** The file is at most 500KB: returned as it is. *)
Lemma recursive_already_small fuel path data w :
  fs w !! path = Some data ->
  kb_le (len data) MAX_FILE_SIZE_KB = true ->
  recursive_optimize_export fuel path w
    = (Ok (Some path),
       with_out w [EvPrint (Log_starting (len data));
                   EvPrint (Log_already_optimized (len data))]).
Proof.
  intros E Hsmall. unfold recursive_optimize_export.
  erewrite bind_ok by apply path_exists_run.
  rewrite E. rewrite bool_decide_eq_true_2 by eauto. change (negb true) with false. cbv iota.
  apply try_except_ok. unfold recursive_try_block.
  erewrite bind_ok by (unfold getsize; rewrite E; reflexivity).
  erewrite bind_ok by apply print_run.
  rewrite Hsmall.
  erewrite bind_ok by apply print_run.
  rewrite with_out_with_out. reflexivity.
Qed.

(** The file is larger and cannot be decoded: the exception is logged and
    the call returns [None]. *)
Lemma recursive_open_fails fuel path data e w :
  fs w !! path = Some data ->
  kb_le (len data) MAX_FILE_SIZE_KB = false ->
  image_open data = inr e ->
  recursive_optimize_export fuel path w
    = (Ok None,
       with_out w [EvPrint (Log_starting (len data)); EvPrint (Log_failed e)]).
Proof.
  intros E Hbig Hopen. unfold recursive_optimize_export.
  erewrite bind_ok by apply path_exists_run.
  rewrite E. rewrite bool_decide_eq_true_2 by eauto. change (negb true) with false. cbv iota.
  erewrite try_except_raise.
  2:{ unfold recursive_try_block.
      erewrite bind_ok by (unfold getsize; rewrite E; reflexivity).
      erewrite bind_ok by apply print_run.
      rewrite Hbig.
      erewrite bind_raise; [reflexivity|].
      unfold Image_open_file.
      erewrite bind_ok by (unfold read_file; simpl; rewrite E; reflexivity).
      unfold Image_open_bytes. rewrite Hopen. reflexivity. }
  erewrite bind_ok by apply print_run.
  rewrite with_out_with_out. reflexivity.
Qed.

Lemma recursive_to_rgb_run img im w :
  heap w !! img = Some im ->
  exists r wim ext,
    recursive_to_rgb img w = (Ok r, extend w ext []) /\
    (heap w ++ ext) !! r = Some wim /\
    wim = recursive_working_image im.
Proof.
  intros Hr. unfold recursive_to_rgb, recursive_working_image.
  erewrite bind_ok by (apply deref_run; eassumption).
  destruct (Mode_eqb (mode im) RGBA) eqn:Hm.
  - assert (mode im = RGBA) by (destruct (mode im); discriminate || reflexivity).
    exists (length (heap w)), (flatten_image im),
      (flatten_image im :: split_image im).
    rewrite (flatten_on_white_run _ im), with_heap_extend by assumption.
    repeat split.
    apply list_lookup_middle; reflexivity.
  - exists img, im, []. rewrite extend_nil, app_nil_r.
    repeat split. assumption.
Qed.

(** The file is larger than 500KB and decodes to [im]: the working image
    [wim] is re-saved over the file at qualities 90, 85, ... for
    [1 <= n <= 7] turns. *)
Lemma recursive_optimize_export_run fuel path data im w :
  fs w !! path = Some data ->
  kb_le (len data) MAX_FILE_SIZE_KB = false ->
  image_open data = inl im ->
  (8 <= fuel)%nat ->
  let wim := recursive_working_image im in
  exists n tr ext fs' res,
    recursive_optimize_export fuel path w
      = (res, {| heap := heap w ++ ext; fs := fs'; out := out w ++ tr |}) /\
    (1 <= n <= 7)%nat /\
    (forall t, (0 < t < n)%nat ->
       exists b, jpeg_save wim (recursive_quality t) = inl b /\
                 kb_gt (len b) MAX_FILE_SIZE_KB = true) /\
    encodes tr = map (fun t => (wim, recursive_quality t)) (seq 1 n) /\
    (forall p, p <> path -> fs' !! p = fs w !! p) /\
    ((exists e, jpeg_save wim (recursive_quality n) = inr e /\
        res = Ok None /\
        exists tr0, tr = tr0 ++ [EvPrint (Log_failed e)])
     \/ (exists b,
           jpeg_save wim (recursive_quality n) = inl b /\
           res = Ok (Some path) /\
           fs' = <[path := b]> (fs w) /\
           (kb_gt (len b) MAX_FILE_SIZE_KB = false \/ n = 7%nat) /\
           exists tr0,
             tr = tr0 ++ [EvPrint (Log_complete (len b) (recursive_quality n)
                                     (Z.of_nat n))])).
Proof.
  intros E Hbig Hopen Hfuel wim.
  assert (Hgt : kb_gt (len data) MAX_FILE_SIZE_KB = true).
  { unfold kb_le in Hbig. unfold kb_gt. apply Z.leb_gt in Hbig.
    apply Z.ltb_lt. lia. }
  set (tr1 := [EvPrint (Log_starting (len data));
               EvPrint (Log_image_mode (size im))]).
  destruct (recursive_to_rgb_run (length (heap w)) im (extend w [im] tr1))
    as (r & wim' & ext & Hpre & Hwim & Heq).
  { simpl. apply list_lookup_middle. reflexivity. }
  fold wim in Heq. subst wim'.
  rewrite extend_extend in Hpre.
  set (w2 := extend w ([im] ++ ext) (tr1 ++ [])) in *.
  destruct (recursive_loop_run fuel path r wim 0 (len data) w2)
    as (n & tr & fs' & res & Hrun & Hn & Hcs & Hmiss & Henc & Hframe & Hres).
  { subst w2. simpl. simpl in Hwim. rewrite <- app_assoc in Hwim. exact Hwim. }
  { lia. }
  { lia. }
  change (recursive_quality 0) with QUALITY_START in Hrun.
  change (Z.of_nat 0) with 0 in Hrun.
  rewrite Nat.sub_0_r in Henc.
  assert (Hn1 : (1 <= n)%nat).
  { destruct Hres as [(e & Hlt & _) | (cs' & _ & Hn0 & _ & Hdone)]; [lia|].
    destruct n; [|lia]. destruct (Hn0 eq_refl) as [-> _].
    destruct Hdone; [congruence | lia]. }
  assert (Hprefix :
    recursive_try_block fuel path w =
    (let! r0 := recursive_loop fuel path r (len data) QUALITY_START 0 in
     let '(file_size, quality, iteration) := r0 in
     do! print (Log_complete file_size quality iteration) in
     ret (Some path)) w2).
  { unfold recursive_try_block.
    erewrite bind_ok by (unfold getsize; rewrite E; reflexivity).
    erewrite bind_ok by apply print_run.
    rewrite Hbig.
    erewrite bind_ok.
    2:{ unfold Image_open_file.
        erewrite bind_ok by (unfold read_file; simpl; rewrite E; reflexivity).
        unfold Image_open_bytes. rewrite Hopen. reflexivity. }
    erewrite bind_ok.
    2:{ apply deref_run. simpl. apply list_lookup_middle. reflexivity. }
    erewrite bind_ok by apply print_run.
    erewrite bind_ok.
    2:{ rewrite <- Hpre. f_equal.
        unfold extend, with_out, with_heap, alloc. simpl.
        rewrite <- app_assoc. reflexivity. }
    reflexivity. }
  unfold recursive_optimize_export.
  erewrite bind_ok by apply path_exists_run.
  rewrite E. rewrite bool_decide_eq_true_2 by eauto.
  change (negb true) with false. cbv iota.
  destruct Hres as [(e & Hlt & He & ->) | (cs' & -> & Hn0 & Hnk & Hdone)].
  - erewrite try_except_raise.
    2:{ rewrite Hprefix. erewrite bind_raise by exact Hrun. reflexivity. }
    erewrite bind_ok by apply print_run.
    exists n. eexists. eexists. exists fs', (Ok None).
    split.
    { unfold ret, with_out. subst w2. simpl.
      rewrite <- !app_assoc. reflexivity. }
    split; [lia|].
    split; [intros; apply Hmiss; lia|].
    split.
    { rewrite !encodes_app, Henc. simpl. rewrite app_nil_r. reflexivity. }
    split; [exact Hframe|].
    left. exists e. split; [assumption|]. split; [reflexivity|].
    eexists (_ :: _ :: _). reflexivity.
  - destruct Hnk as (b & Hb & -> & ->); [lia|].
    erewrite try_except_ok.
    2:{ rewrite Hprefix. erewrite bind_ok by exact Hrun. cbv iota beta.
        erewrite bind_ok by apply print_run. reflexivity. }
    exists n. eexists. eexists. exists (<[path := b]> (fs w2)), (Ok (Some path)).
    split.
    { unfold ret, with_out. subst w2. simpl.
      rewrite <- !app_assoc. reflexivity. }
    split; [lia|].
    split; [intros; apply Hmiss; lia|].
    split.
    { rewrite !encodes_app, Henc. simpl. rewrite app_nil_r. reflexivity. }
    split; [exact Hframe|].
    right. exists b. split; [assumption|]. split; [reflexivity|].
    split; [reflexivity|]. split; [assumption|].
    eexists (_ :: _ :: _). reflexivity.
Qed.

End Runs.

(** ** Facts about the model codec *)

Lemma len_zeros n : 0 <= n -> len (Model.zeros n) = n.
Proof.
  intros Hn. unfold len, Model.zeros. rewrite repeat_length. apply Z2Nat.id, Hn.
Qed.

Lemma length_encodes_map {A} (f : A -> Image * Z) (l : list A) tr :
  encodes tr = map f l -> length (encodes tr) = length l.
Proof. intros ->. apply length_map. Qed.

(** * The claims *)

(** C10: in [optimize_for_retail] the [raise] after the loop is never
    reached.  The encoder not failing, the call returns a buffer for every
    image, with any fuel of at least 18 turns; it makes [n + 1 <= 18] encode
    attempts at qualities 95, 90, ..., and when the budget is never met the
    last one (the 18th) is at quality exactly 10. *)
Theorem C10_retail_fallback_unreachable `{Codec} fuel image im w :
  heap w !! image = Some im ->
  (18 <= fuel)%nat ->
  (forall q, exists b, jpeg_save (retail_working_image im) q = inl b) ->
  exists b n tr ext,
    optimize_for_retail fuel image w = (Ok b, extend w ext tr) /\
    (n <= 17)%nat /\
    encodes tr = map (fun j => (retail_working_image im, retail_quality j))
                   (seq 0 (S n)) /\
    (length (encodes tr) <= 18)%nat /\
    jpeg_save (retail_working_image im) (retail_quality n) = inl b /\
    (kb_lt (len b) retail_target_size_kb = true
     \/ (n = 17%nat /\ retail_quality n = 10)).
Proof.
  intros Hr Hfuel Htotal.
  destruct (optimize_for_retail_run fuel image im w Hr Hfuel)
    as (n & tr & ext & res & Hrun & Hn & _ & _ & Henc & Hres).
  assert (Hlen : (length (encodes tr) <= 18)%nat).
  { rewrite (length_encodes_map _ _ _ Henc), length_seq. lia. }
  destruct Hres as [(e & He & _) | [(b & Hb & Hfit & -> & _)
                                   | (b & Hb & Hfit & Hn17 & -> & _)]].
  - destruct (Htotal (retail_quality n)) as [b Hb]. congruence.
  - exists b, n, tr, ext. repeat (split; [assumption|]). left. assumption.
  - exists b, n, tr, ext. repeat (split; [assumption|]). right.
    subst n. split; reflexivity.
Qed.

Lemma C10_retail_fallback_unreachable_witness :
  let C := Model.codec (Model.enc_const 600000) (Model.dec_const Model.rgb_2x1) in
  let w := Model.world_with_image Model.rgb_2x1 in
  heap w !! 0%nat = Some Model.rgb_2x1 /\
  (18 <= 18)%nat /\
  (forall q, exists b,
      @jpeg_save C (@retail_working_image C Model.rgb_2x1) q = inl b) /\
  exists b n tr ext,
    @optimize_for_retail C 18 0%nat w = (Ok b, extend w ext tr) /\
    (n <= 17)%nat /\
    encodes tr = map (fun j => (@retail_working_image C Model.rgb_2x1,
                                retail_quality j)) (seq 0 (S n)) /\
    (length (encodes tr) <= 18)%nat /\
    @jpeg_save C (@retail_working_image C Model.rgb_2x1) (retail_quality n)
      = inl b /\
    (kb_lt (len b) retail_target_size_kb = true
     \/ (n = 17%nat /\ retail_quality n = 10)).
Proof.
  intros C w.
  assert (H1 : heap w !! 0%nat = Some Model.rgb_2x1) by reflexivity.
  assert (H2 : (18 <= 18)%nat) by lia.
  assert (H3 : forall q, exists b,
             @jpeg_save C (@retail_working_image C Model.rgb_2x1) q = inl b)
    by (intros q; eexists; reflexivity).
  split; [exact H1|]. split; [exact H2|]. split; [exact H3|].
  exact (@C10_retail_fallback_unreachable C 18%nat 0%nat Model.rgb_2x1 w H1 H2 H3).
Defined.

(** C2: bounded termination.  With fuel beyond the iteration cap, none of the
    three functions runs out of fuel, and each makes at most its cap of
    encode attempts: 20 for [optimize_for_retail], [max_iterations] for
    [optimize_export], 20 for [recursive_optimize_export], whatever the
    encoder answers and whether or not the budget can be met. *)
Theorem C2_bounded_termination `{Codec} fuel image im data kb mi path w :
  heap w !! image = Some im ->
  (20 < fuel)%nat ->
  mi < Z.of_nat fuel ->
  (exists res tr ext,
      optimize_for_retail fuel image w = (res, extend w ext tr) /\
      res <> OutOfFuel /\
      Z.of_nat (length (encodes tr)) <= retail_max_iterations)
  /\ (exists res tr ext,
        optimize_export fuel data kb mi w = (res, extend w ext tr) /\
        res <> OutOfFuel /\
        Z.of_nat (length (encodes tr)) <= Z.max 0 mi)
  /\ (exists res w' tr,
        recursive_optimize_export fuel path w = (res, w') /\
        res <> OutOfFuel /\
        out w' = out w ++ tr /\
        Z.of_nat (length (encodes tr)) <= recursive_max_iterations).
Proof.
  intros Hr Hfuel Hmi. split; [|split].
  - destruct (optimize_for_retail_run fuel image im w Hr)
      as (n & tr & ext & res & Hrun & Hn & _ & _ & Henc & Hres); [lia|].
    exists res, tr, ext. split; [assumption|]. split.
    + destruct Hres as [(e & _ & ->) | [(b & _ & _ & -> & _)
                                       | (b & _ & _ & _ & -> & _)]];
        discriminate.
    + rewrite (length_encodes_map _ _ _ Henc), length_seq.
      unfold retail_max_iterations. lia.
  - destruct (image_open data) as [dim|e] eqn:Hopen.
    + destruct (optimize_export_run fuel data kb mi dim w Hopen)
        as (n & tr & ext & res & Hrun & Hn & _ & _ & _ & Henc & Hres);
        [lia | lia |].
      exists res, tr, ext. split; [assumption|]. split.
      * destruct Hres as [(e & _ & _ & ->) | (od & -> & _)]; discriminate.
      * rewrite (length_encodes_map _ _ _ Henc), length_seq. lia.
    + exists (Raise ("Error optimizing export: " +:+ e)), [], [].
      rewrite extend_nil. split; [apply optimize_export_open_fails, Hopen|].
      split; [discriminate|]. simpl. lia.
  - destruct (fs w !! path) as [fdata|] eqn:Hfile.
    2:{ eexists. eexists. eexists.
        split; [apply recursive_missing_file, Hfile|].
        split; [discriminate|]. split; [reflexivity|].
        simpl. unfold recursive_max_iterations. lia. }
    destruct (kb_le (len fdata) MAX_FILE_SIZE_KB) eqn:Hsmall.
    { eexists. eexists. eexists.
      split; [eapply recursive_already_small; eassumption|].
      split; [discriminate|]. split; [reflexivity|].
      simpl. unfold recursive_max_iterations. lia. }
    destruct (image_open fdata) as [dim|e] eqn:Hopen.
    2:{ eexists. eexists. eexists.
        split; [eapply recursive_open_fails; eassumption|].
        split; [discriminate|]. split; [reflexivity|].
        simpl. unfold recursive_max_iterations. lia. }
    destruct (recursive_optimize_export_run fuel path fdata dim w Hfile Hsmall Hopen)
      as (n & tr & ext & fs' & res & Hrun & Hn & _ & Henc & _ & Hres); [lia|].
    eexists. eexists. exists tr. split; [exact Hrun|]. split.
    + destruct Hres as [(e & _ & -> & _) | (b & _ & -> & _)]; discriminate.
    + split; [reflexivity|].
      rewrite (length_encodes_map _ _ _ Henc), length_seq.
      unfold recursive_max_iterations. lia.
Qed.

Lemma C2_bounded_termination_witness :
  let C := Model.codec (Model.enc_const 600000) (Model.dec_const Model.rgb_2x1) in
  let w := Model.world_with_image Model.rgb_2x1 in
  heap w !! 0%nat = Some Model.rgb_2x1 /\
  (20 < 21)%nat /\
  10 < Z.of_nat 21 /\
  (exists res tr ext,
      @optimize_for_retail C 21 0%nat w = (res, extend w ext tr) /\
      res <> OutOfFuel /\
      Z.of_nat (length (encodes tr)) <= retail_max_iterations)
  /\ (exists res tr ext,
        @optimize_export C 21 (Model.zeros 2000) 1 10 w = (res, extend w ext tr) /\
        res <> OutOfFuel /\
        Z.of_nat (length (encodes tr)) <= Z.max 0 10)
  /\ (exists res w' tr,
        @recursive_optimize_export C 21 "export.jpg" w = (res, w') /\
        res <> OutOfFuel /\
        out w' = out w ++ tr /\
        Z.of_nat (length (encodes tr)) <= recursive_max_iterations).
Proof.
  intros C w.
  assert (H1 : heap w !! 0%nat = Some Model.rgb_2x1) by reflexivity.
  assert (H2 : (20 < 21)%nat) by lia.
  assert (H3 : 10 < Z.of_nat 21) by lia.
  split; [exact H1|]. split; [exact H2|]. split; [exact H3|].
  exact (@C2_bounded_termination C 21%nat 0%nat Model.rgb_2x1
           (Model.zeros 2000) 1 10 "export.jpg" w H1 H2 H3).
Defined.

(** ** A run of [optimize_export] that never reaches the budget *)

Lemma optimize_export_all_miss `{Codec} fuel data dim kb mi w :
  image_open data = inl dim ->
  0 < mi -> mi < Z.of_nat fuel ->
  kb * 1024 < len data ->
  (forall t, (1 <= t)%nat -> Z.of_nat t <= mi ->
     exists b, export_attempt (export_working_image dim) t = inl b /\
               kb * 1024 < len b) ->
  exists b tr0 ext,
    optimize_export fuel data kb mi w
      = (Ok b, extend w ext
                 (tr0 ++ [EvPrint (Export_warning_could_not_optimize mi);
                          EvPrint (Export_warning_final_size (len b));
                          EvPrint (Export_ok (len b))])) /\
    export_attempt (export_working_image dim) (Z.to_nat mi) = inl b /\
    kb * 1024 < len b /\
    encodes (tr0 ++ [EvPrint (Export_warning_could_not_optimize mi);
                     EvPrint (Export_warning_final_size (len b));
                     EvPrint (Export_ok (len b))])
      = map (fun t => export_state t (export_working_image dim, 85))
          (seq 1 (Z.to_nat mi)).
Proof.
  intros Hopen Hmi0 Hmi Hdata Hexport.
  destruct (optimize_export_run fuel data kb mi dim w Hopen)
    as (n & tr & ext & res & Hrun & Hn & _ & _ & _ & Henc & Hres); [lia | lia |].
  destruct Hres as [(e & Hlt & He & _)
                   | (od & -> & Hn0 & Hn1 & Hdone & tr0 & _ & ->)].
  - destruct (Hexport n) as (b0 & Hb0 & _); [lia | lia | congruence].
  - destruct n as [|n'].
    { rewrite (Hn0 eq_refl) in Hdone. lia. }
    specialize (Hn1 ltac:(lia)).
    destruct (Hexport (S n')) as (b0 & Hb0 & Hbig); [lia | lia |].
    assert (b0 = od) by congruence. subst b0.
    assert (Hnmi : Z.to_nat mi = S n') by lia.
    rewrite Hnmi.
    replace (kb * 1024 <? len od) with true in *
      by (symmetry; apply Z.ltb_lt; assumption).
    exists od, tr0, ext.
    split; [rewrite Hrun; reflexivity|].
    split; [assumption|]. split; [assumption|]. exact Henc.
Qed.






(** C4, on the code: when the budget cannot be reached,
    [recursive_optimize_export] tests [quality >= QUALITY_MIN] before it
    takes [QUALITY_STEP] off, so it saves at 90, 85, 80, 75, 70, 65 and then
    once more at 60: the last save, the one left in the file, is made below
    [QUALITY_MIN = 65]. *)
Theorem C4_recursive_last_save_below_quality_min `{Codec} fuel path data im w :
  fs w !! path = Some data ->
  kb_le (len data) MAX_FILE_SIZE_KB = false ->
  image_open data = inl im ->
  (8 <= fuel)%nat ->
  (forall t, (1 <= t <= 7)%nat ->
     exists b, jpeg_save (recursive_working_image im) (recursive_quality t) = inl b /\
               kb_gt (len b) MAX_FILE_SIZE_KB = true) ->
  exists b tr0 ext,
    recursive_optimize_export fuel path w
      = (Ok (Some path),
         {| heap := heap w ++ ext;
            fs := <[path := b]> (fs w);
            out := out w ++ tr0 ++ [EvPrint (Log_complete (len b) 60 7)] |}) /\
    jpeg_save (recursive_working_image im) 60 = inl b /\
    map snd (encodes (tr0 ++ [EvPrint (Log_complete (len b) 60 7)]))
      = [90; 85; 80; 75; 70; 65; 60] /\
    60 < QUALITY_MIN.
Proof.
  intros Hfile Hbig Hopen Hfuel Hall.
  destruct (recursive_optimize_export_run fuel path data im w Hfile Hbig Hopen Hfuel)
    as (n & tr & ext & fs' & res & Hrun & Hn & _ & Henc & _ & Hres).
  destruct (Hall n Hn) as (bn & Hbn & Hgt).
  destruct Hres as [(e & He & _) | (b & Hb & -> & -> & Hdone & tr0 & ->)].
  - congruence.
  - assert (b = bn) by congruence. subst bn.
    destruct Hdone as [Hsmall | ->]; [congruence|].
    change (recursive_quality 7) with 60 in *. change (Z.of_nat 7) with 7 in *.
    exists b, tr0, ext. split; [exact Hrun|]. split; [exact Hb|].
    split; [rewrite Henc; reflexivity|].
    unfold QUALITY_MIN. lia.
Qed.

Lemma C4_recursive_last_save_below_quality_min_witness :
  let C := Model.codec (Model.enc_const 600000) (Model.dec_const Model.rgb_2x1) in
  let w := Model.world_with_file "export.jpg" (Model.zeros 700000) in
  exists b tr0 ext,
    @recursive_optimize_export C 8 "export.jpg" w
      = (Ok (Some "export.jpg"),
         {| heap := heap w ++ ext;
            fs := <["export.jpg" := b]> (fs w);
            out := out w ++ tr0 ++ [EvPrint (Log_complete (len b) 60 7)] |}) /\
    map snd (encodes (tr0 ++ [EvPrint (Log_complete (len b) 60 7)]))
      = [90; 85; 80; 75; 70; 65; 60] /\
    60 < QUALITY_MIN.
Proof.
  intros C w.
  assert (Hsize : len (Model.zeros 600000) = 600000) by (apply len_zeros; lia).
  destruct (@C4_recursive_last_save_below_quality_min C 8%nat "export.jpg"
              (Model.zeros 700000) Model.rgb_2x1 w)
    as (b & tr0 & ext & Hrun & _ & Hq & Hlt).
  - apply lookup_singleton_eq.
  - unfold kb_le. rewrite len_zeros by lia. reflexivity.
  - reflexivity.
  - lia.
  - intros t _. exists (Model.zeros 600000). split; [reflexivity|].
    unfold kb_gt. rewrite Hsize. reflexivity.
  - exists b, tr0, ext. split; [exact Hrun|]. split; assumption.
Defined.

(** ** Inputs that are already within the budget *)






(** ** The two knobs of [optimize_export] *)

Lemma export_next_quality `{Codec} st :
  snd (export_next st) = Z.max 10 (snd st - 5).
Proof. reflexivity. Qed.

Lemma export_next_width `{Codec} st :
  width (fst (export_next st)) = Z.max 100 (scale95 (width (fst st))).
Proof. unfold export_next. simpl. apply resize_lanczos_width. Qed.

Lemma export_next_height `{Codec} st :
  height (fst (export_next st)) = Z.max 100 (scale95 (height (fst st))).
Proof. unfold export_next. simpl. apply resize_lanczos_height. Qed.

Lemma scale95_le n : 0 <= n -> scale95 n <= n.
Proof.
  intros Hn. unfold scale95. apply Z.div_le_upper_bound; lia.
Qed.

Lemma scale95_lt n : 0 < n -> scale95 n < n.
Proof.
  intros Hn. unfold scale95. apply Z.div_lt_upper_bound; lia.
Qed.

Lemma export_state_floors `{Codec} t st :
  (1 <= t)%nat ->
  10 <= snd (export_state t st) /\
  100 <= width (fst (export_state t st)) /\
  100 <= height (fst (export_state t st)).
Proof.
  intros Ht. destruct t as [|t]; [lia|].
  rewrite export_state_S, export_next_quality, export_next_width,
    export_next_height. lia.
Qed.

(** The sides after [t] turns depend on the sides of the source only. *)
Lemma export_state_sides `{Codec} t st :
  width (fst (export_state t st)) = Nat.iter t side_next (width (fst st)) /\
  height (fst (export_state t st)) = Nat.iter t side_next (height (fst st)).
Proof.
  induction t as [|t [IHw IHh]]; [split; reflexivity|].
  rewrite export_state_S, export_next_width, export_next_height, IHw, IHh.
  split; reflexivity.
Qed.

(** C6: the floors of the rescale mode.  Each turn of [optimize_export]
    takes 5 off the quality, never going below 10, and scales both sides by
    0.95, never going below 100; every encode attempt of every run is made on
    such a pair, so at sides of at least 100 and quality of at least 10.  A
    side of at least 100 never grows and shrinks strictly while it is above
    100: a 120x120 source goes through 114, 108, 102, 100, 100.  When the
    budget cannot be reached the loop ends after exactly [max_iterations]
    attempts and the warning lines are printed. *)
Theorem C6_rescale_floors `{Codec} fuel data dim kb mi w :
  image_open data = inl dim ->
  0 < mi -> mi < Z.of_nat fuel ->
  let wim := export_working_image dim in
  (forall st,
     snd (export_next st) = Z.max 10 (snd st - 5) /\
     width (fst (export_next st)) = Z.max 100 (scale95 (width (fst st))) /\
     height (fst (export_next st)) = Z.max 100 (scale95 (height (fst st))) /\
     10 <= snd (export_next st) /\
     100 <= width (fst (export_next st)) /\
     100 <= height (fst (export_next st)))
  /\ (forall st,
        (100 <= width (fst st) -> width (fst (export_next st)) <= width (fst st)) /\
        (100 < width (fst st) -> width (fst (export_next st)) < width (fst st)) /\
        (100 <= height (fst st) -> height (fst (export_next st)) <= height (fst st)) /\
        (100 < height (fst st) -> height (fst (export_next st)) < height (fst st)))
  /\ (exists n tr ext res,
        optimize_export fuel data kb mi w = (res, extend w ext tr) /\
        encodes tr = map (fun t => export_state t (wim, 85)) (seq 1 n) /\
        Forall (fun a => 100 <= width (fst a) /\ 100 <= height (fst a) /\
                         10 <= snd a) (encodes tr))
  /\ (width wim = 120 -> height wim = 120 ->
      map (fun t => size (fst (export_state t (wim, 85)))) (seq 1 5)
        = [(114, 114); (108, 108); (102, 102); (100, 100); (100, 100)])
  /\ (kb * 1024 < len data ->
      (forall t, (1 <= t)%nat -> Z.of_nat t <= mi ->
         exists b, export_attempt wim t = inl b /\ kb * 1024 < len b) ->
      exists b tr0 ext,
        optimize_export fuel data kb mi w
          = (Ok b, extend w ext
                     (tr0 ++ [EvPrint (Export_warning_could_not_optimize mi);
                              EvPrint (Export_warning_final_size (len b));
                              EvPrint (Export_ok (len b))])) /\
        kb * 1024 < len b /\
        length (encodes (tr0 ++ [EvPrint (Export_warning_could_not_optimize mi);
                                 EvPrint (Export_warning_final_size (len b));
                                 EvPrint (Export_ok (len b))]))
          = Z.to_nat mi).
Proof.
  intros Hopen Hmi0 Hmi wim.
  split.
  { intros st. rewrite export_next_quality, export_next_width, export_next_height.
    repeat split; lia. }
  split.
  { intros st. rewrite export_next_width, export_next_height.
    repeat split; intros Hs.
    - pose proof (scale95_le (width st.1)). lia.
    - pose proof (scale95_lt (width st.1)). lia.
    - pose proof (scale95_le (height st.1)). lia.
    - pose proof (scale95_lt (height st.1)). lia. }
  split.
  { destruct (optimize_export_run fuel data kb mi dim w Hopen)
      as (n & tr & ext & res & Hrun & _ & _ & _ & _ & Henc & _); [lia | lia |].
    exists n, tr, ext, res. split; [assumption|]. split; [assumption|].
    rewrite Henc. apply List.Forall_forall. intros a Ha.
    apply in_map_iff in Ha as (t & <- & Ht). apply in_seq in Ht.
    destruct (export_state_floors t (wim, 85)) as (Hq & Hw & Hh); [lia|].
    repeat split; assumption. }
  split.
  { intros Hw Hh. unfold size. cbn [seq map].
    repeat (match goal with
            | |- context [export_state ?t ?st] =>
                destruct (export_state_sides t st) as [-> ->]
            end).
    simpl fst. rewrite Hw, Hh. reflexivity. }
  intros Hdata Hall.
  destruct (optimize_export_all_miss fuel data dim kb mi w)
    as (b & tr0 & ext & Hrun & _ & Hbig & Henc); try assumption.
  exists b, tr0, ext. split; [assumption|]. split; [assumption|].
  rewrite Henc, length_map, length_seq. reflexivity.
Qed.

Lemma C6_rescale_floors_witness :
  let C := Model.codec (Model.enc_const 2000) (Model.dec_const Model.rgb_2x1) in
  let w := Model.world_with_image Model.rgb_2x1 in
  exists b tr0 ext,
    @optimize_export C 11 (Model.zeros 3000) 1 10 w
      = (Ok b, extend w ext
                 (tr0 ++ [EvPrint (Export_warning_could_not_optimize 10);
                          EvPrint (Export_warning_final_size (len b));
                          EvPrint (Export_ok (len b))])) /\
    1 * 1024 < len b /\
    length (encodes (tr0 ++ [EvPrint (Export_warning_could_not_optimize 10);
                             EvPrint (Export_warning_final_size (len b));
                             EvPrint (Export_ok (len b))]))
      = Z.to_nat 10.
Proof.
  intros C w.
  assert (Hsize : len (Model.zeros 2000) = 2000) by (apply len_zeros; lia).
  destruct (@C6_rescale_floors C 11%nat (Model.zeros 3000) Model.rgb_2x1 1 10 w)
    as (_ & _ & _ & _ & Hmiss).
  - reflexivity.
  - lia.
  - lia.
  - apply Hmiss.
    + rewrite len_zeros by lia. lia.
    + intros t _ _. exists (Model.zeros 2000). split; [reflexivity|].
      rewrite Hsize. lia.
Defined.

(** ** What flattening does to a pixel *)





Lemma retail_working_image_mode `{Codec} im : mode (retail_working_image im) = RGB.
Proof.
  unfold retail_working_image.
  destruct (mode im) eqn:Hm; simpl; try apply convert_rgb_mode;
    try reflexivity; assumption.
Qed.






(** ** A codec failure ends the run *)

Lemma optimize_for_retail_fails_at `{Codec} fuel image im n e w :
  heap w !! image = Some im ->
  (18 <= fuel)%nat ->
  (n <= 17)%nat ->
  (forall j, (j < n)%nat ->
     exists b, jpeg_save (retail_working_image im) (retail_quality j) = inl b /\
               kb_lt (len b) retail_target_size_kb = false) ->
  jpeg_save (retail_working_image im) (retail_quality n) = inr e ->
  exists tr ext,
    optimize_for_retail fuel image w
      = (Raise ("Error in optimize_for_retail: " +:+ e), extend w ext tr) /\
    encodes tr = map (fun j => (retail_working_image im, retail_quality j))
                   (seq 0 (S n)).
Proof.
  intros Hr Hfuel Hn Hbefore Hfail.
  destruct (optimize_for_retail_run fuel image im w Hr Hfuel)
    as (n' & tr & ext & res & Hrun & Hn' & _ & Hmiss & Henc & Hres).
  assert (n' = n) as ->.
  { destruct (lt_eq_lt_dec n' n) as [[Hlt | Heq] | Hgt]; [|assumption|].
    - destruct (Hbefore n' Hlt) as (b & Hb & Hbmiss).
      destruct Hres as [(e' & He' & _) | [(b' & Hb' & Hfit & _)
                                         | (b' & _ & _ & Hn17 & _)]];
        [congruence | congruence | lia].
    - destruct (Hmiss n Hgt) as (b & Hb & _). congruence. }
  destruct Hres as [(e' & He' & ->) | [(b' & Hb' & _) | (b' & Hb' & _)]];
    [|congruence|congruence].
  assert (e' = e) by congruence. subst e'.
  exists tr, ext. split; assumption.
Qed.






(** ** What a call leaves of the world it started in *)





(** * The rest of the two modules and the export endpoint *)

(** ** Running in the wider world *)

Lemma xbind_ok {A B} (m : XM A) (k : A -> XM B) w a w' :
  m w = (Ok a, w') -> xbind m k w = k a w'.
Proof. intros E. unfold xbind. rewrite E. reflexivity. Qed.

Lemma xbind_raise {A B} (m : XM A) (k : A -> XM B) w e w' :
  m w = (Raise e, w') -> xbind m k w = (Raise e, w').
Proof. intros E. unfold xbind. rewrite E. reflexivity. Qed.

Lemma xtry_except_ok {A} (m : XM A) h w a w' :
  m w = (Ok a, w') -> xtry_except m h w = (Ok a, w').
Proof. intros E. unfold xtry_except. rewrite E. reflexivity. Qed.

Lemma xtry_except_raise {A} (m : XM A) h w e w' :
  m w = (Raise e, w') -> xtry_except m h w = h e w'.
Proof. intros E. unfold xtry_except. rewrite E. reflexivity. Qed.

Lemma lift_run {A} (m : M A) w r w' :
  m (narrow w) = (r, w') -> lift m w = (r, widen w w').
Proof. intros E. unfold lift. fold (narrow w). rewrite E. reflexivity. Qed.

Lemma xlog_run m w : xlog m w = (Ok tt, xwith_out w [XLog m]).
Proof. reflexivity. Qed.

Lemma xwith_out_xwith_out w tr1 tr2 :
  xwith_out (xwith_out w tr1) tr2 = xwith_out w (tr1 ++ tr2).
Proof. unfold xwith_out. simpl. rewrite <- app_assoc. reflexivity. Qed.

Lemma xwebp_encodes_app tr1 tr2 :
  xwebp_encodes (tr1 ++ tr2) = xwebp_encodes tr1 ++ xwebp_encodes tr2.
Proof. apply omap_app. Qed.

Lemma xbase_app tr1 tr2 : xbase (tr1 ++ tr2) = xbase tr1 ++ xbase tr2.
Proof. apply omap_app. Qed.

Lemma xbase_map_Base tr : xbase (map Base tr) = tr.
Proof. induction tr as [|e tr IH]; [reflexivity|]. simpl. f_equal. exact IH. Qed.

Lemma xwebp_encodes_map_Base tr : xwebp_encodes (map Base tr) = [].
Proof. induction tr as [|e tr IH]; [reflexivity|]. exact IH. Qed.

(** ** Python strings *)

Example webp_path_of_jpg : webp_path_of "exports/photo.jpg" = "exports/photo.webp".
Proof. reflexivity. Qed.

Example webp_path_of_jpeg : webp_path_of "photo.jpeg" = "photo.webp".
Proof. reflexivity. Qed.

Example webp_path_of_png : webp_path_of "logo.png" = "logo.png".
Proof. reflexivity. Qed.

Example webp_path_of_upper : webp_path_of "PHOTO.JPG" = "PHOTO.JPG".
Proof. reflexivity. Qed.

Example is_jpeg_path_upper : is_jpeg_path "PHOTO.JPG" = true.
Proof. reflexivity. Qed.

(** ** [optimize_with_format_fallback]: the WebP phase *)

Section FallbackRuns.
Context `{Codec} `{Codec2}.

Lemma xderef_run r im w : xheap w !! r = Some im -> xderef r w = (Ok im, w).
Proof. intros E. unfold xderef. rewrite E. reflexivity. Qed.

Lemma xsave_webp_run r im path q w :
  xheap w !! r = Some im ->
  xsave_webp r path q w =
    match webp_save im q with
    | inl b => (Ok tt, {| xheap := xheap w; xfs := <[path := b]> (xfs w);
                          xout := xout w ++ [XEncodeWebp im q] |})
    | inr e => (Raise e, xwith_out w [XEncodeWebp im q])
    end.
Proof.
  intros Hr. unfold xsave_webp.
  erewrite xbind_ok by (apply xderef_run; eassumption).
  erewrite xbind_ok by reflexivity.
  destruct (webp_save im q); reflexivity.
Qed.

Lemma fallback_webp_loop_run qs img wim webp w :
  xheap w !! img = Some wim ->
  exists res fs' tr,
    fallback_webp_loop qs img webp w
      = (res, {| xheap := xheap w; xfs := fs'; xout := xout w ++ tr |}) /\
    (forall p, p <> webp -> fs' !! p = xfs w !! p) /\
    xbase tr = [] /\
    ((res = Ok None /\ Forall (webp_missed wim) qs /\
      xwebp_encodes tr = map (pair wim) qs /\
      (qs = [] -> fs' = xfs w) /\
      (forall b, qs <> [] -> webp_save wim (List.last qs 0) = inl b ->
                 fs' = <[webp := b]> (xfs w)))
     \/ (exists before q after b,
           qs = before ++ q :: after /\ Forall (webp_missed wim) before /\
           webp_save wim q = inl b /\
           kb_le (len b) MAX_FILE_SIZE_KB = true /\
           res = Ok (Some webp) /\
           fs' = <[webp := b]> (xfs w) /\
           xwebp_encodes tr = map (pair wim) (before ++ [q]))
     \/ (exists before q after e,
           qs = before ++ q :: after /\ Forall (webp_missed wim) before /\
           webp_save wim q = inr e /\
           res = Raise e /\
           xwebp_encodes tr = map (pair wim) (before ++ [q]))).
Proof.
  revert w. induction qs as [|q qs IH]; intros w Hr.
  - exists (Ok None), (xfs w), []. rewrite app_nil_r.
    split; [destruct w; reflexivity|]. split; [reflexivity|].
    split; [reflexivity|].
    left. split; [reflexivity|]. split; [constructor|].
    split; [reflexivity|]. split; [reflexivity | intros b Hne; congruence].
  - cbn [fallback_webp_loop]. unfold xbind at 1.
    rewrite (xsave_webp_run _ wim) by assumption.
    destruct (webp_save wim q) as [b|e] eqn:Esave.
    2:{ exists (Raise e), (xfs w), [XEncodeWebp wim q].
        split; [reflexivity|]. split; [reflexivity|]. split; [reflexivity|].
        right; right. exists [], q, qs, e.
        split; [reflexivity|]. split; [constructor|].
        split; [assumption|]. split; reflexivity. }
    erewrite xbind_ok
      by (unfold xgetsize; cbn [xfs]; rewrite lookup_insert_eq; reflexivity).
    destruct (kb_le (len b) MAX_FILE_SIZE_KB) eqn:Efit.
    + erewrite xbind_ok by apply xlog_run.
      exists (Ok (Some webp)), (<[webp := b]> (xfs w)),
        [XEncodeWebp wim q; XLog (Fallback_webp_ok_at q (len b))].
      split; [unfold xret, xwith_out; cbn; rewrite <- app_assoc; reflexivity|].
      split; [intros p Hp; apply lookup_insert_ne; congruence|].
      split; [reflexivity|].
      right; left. exists [], q, qs, b.
      split; [reflexivity|]. split; [constructor|].
      repeat (split; [assumption || reflexivity|]). reflexivity.
    + match goal with |- context [fallback_webp_loop qs img webp ?W] =>
        destruct (IH W) as (res & fs' & tr & Hrun & Hframe & Hbase & Hres);
          [exact Hr | rewrite Hrun] end.
      cbn [xheap xfs xout] in *.
      exists res, fs', (XEncodeWebp wim q :: tr).
      split; [rewrite <- app_assoc; reflexivity|].
      split.
      { intros p Hp. rewrite Hframe by assumption.
        apply lookup_insert_ne. congruence. }
      split; [exact Hbase|].
      assert (Hq : webp_missed wim q) by (exists b; split; assumption).
      destruct Hres as [(-> & Hall & Henc & Hnil & Hlast)
                       | [(before & q' & after & b' & -> & Hbefore & Hb' & Hfit' & -> & -> & Henc)
                         | (before & q' & after & e & -> & Hbefore & He & -> & Henc)]].
      * left. split; [reflexivity|]. split; [constructor; assumption|].
        split.
        { change (XEncodeWebp wim q :: tr) with ([XEncodeWebp wim q] ++ tr).
          rewrite xwebp_encodes_app, Henc. reflexivity. }
        split; [discriminate|].
        intros b0 _ Hb0. destruct qs as [|q1 qs1].
        -- cbn [List.last] in Hb0. assert (b0 = b) by congruence. subst b0.
           apply Hnil. reflexivity.
        -- change (List.last (q :: q1 :: qs1) 0) with (List.last (q1 :: qs1) 0) in Hb0.
           rewrite (Hlast b0 ltac:(discriminate) Hb0).
           apply insert_insert_eq.
      * right; left. exists (q :: before), q', after, b'.
        split; [reflexivity|]. split; [constructor; assumption|].
        split; [assumption|]. split; [assumption|]. split; [reflexivity|].
        split; [apply insert_insert_eq|].
        change (XEncodeWebp wim q :: tr) with ([XEncodeWebp wim q] ++ tr).
        rewrite xwebp_encodes_app, Henc. reflexivity.
      * right; right. exists (q :: before), q', after, e.
        split; [reflexivity|]. split; [constructor; assumption|].
        split; [assumption|]. split; [reflexivity|].
        change (XEncodeWebp wim q :: tr) with ([XEncodeWebp wim q] ++ tr).
        rewrite xwebp_encodes_app, Henc. reflexivity.
Qed.

Lemma xopen_file_run path data im w :
  xfs w !! path = Some data ->
  image_open data = inl im ->
  xopen_file path w
    = (Ok (length (xheap w)),
       {| xheap := xheap w ++ [im]; xfs := xfs w; xout := xout w |}).
Proof.
  intros Hfile Hopen. unfold xopen_file, xopen_bytes.
  rewrite Hfile, Hopen. reflexivity.
Qed.

Lemma lift_recursive_to_rgb_run img im w :
  xheap w !! img = Some im ->
  exists r ext,
    lift (recursive_to_rgb img) w
      = (Ok r, {| xheap := xheap w ++ ext; xfs := xfs w; xout := xout w |}) /\
    (xheap w ++ ext) !! r = Some (recursive_working_image im).
Proof.
  intros Hr.
  destruct (recursive_to_rgb_run img im (narrow w) Hr)
    as (r & wim & ext & Hrun & Hwim & ->).
  exists r, ext. split; [|exact Hwim].
  rewrite (lift_run _ _ _ _ Hrun). unfold widen, extend, with_out, with_heap.
  cbn. rewrite app_nil_r. reflexivity.
Qed.

(** The WebP phase on a file that decodes: the ladder 80, 70, 60, 50, 40 is
    climbed down until a save fits, a save fails or the ladder ends. *)
Lemma fallback_webp_run path data im w :
  xfs w !! path = Some data ->
  image_open data = inl im ->
  let wim := recursive_working_image im in
  let webp := webp_path_of path in
  exists res fs' ext tr,
    fallback_webp path w
      = (res, {| xheap := xheap w ++ ext; xfs := fs'; xout := xout w ++ tr |}) /\
    (forall p, p <> webp -> fs' !! p = xfs w !! p) /\
    xbase tr = [] /\
    ((res = Ok (Some path) /\ Forall (webp_missed wim) webp_ladder /\
      xwebp_encodes tr = map (pair wim) webp_ladder /\
      (forall b, webp_save wim 40 = inl b -> fs' = <[webp := b]> (xfs w)))
     \/ (exists before q after b,
           webp_ladder = before ++ q :: after /\
           Forall (webp_missed wim) before /\
           webp_save wim q = inl b /\
           kb_le (len b) MAX_FILE_SIZE_KB = true /\
           res = Ok (Some webp) /\
           fs' = <[webp := b]> (xfs w) /\
           xwebp_encodes tr = map (pair wim) (before ++ [q]))
     \/ (exists before q after e,
           webp_ladder = before ++ q :: after /\
           Forall (webp_missed wim) before /\
           webp_save wim q = inr e /\
           res = Raise e /\
           xwebp_encodes tr = map (pair wim) (before ++ [q]))).
Proof.
  intros Hfile Hopen wim webp. unfold fallback_webp.
  erewrite xbind_ok by apply xlog_run.
  erewrite xbind_ok by (eapply xopen_file_run; [exact Hfile | exact Hopen]).
  match goal with |- context [xbind (lift (recursive_to_rgb ?r)) _ ?W] =>
    destruct (lift_recursive_to_rgb_run r im W) as (img & ext & Hlift & Himg) end.
  { cbn. apply list_lookup_middle. reflexivity. }
  erewrite xbind_ok by exact Hlift.
  cbn [xheap xfs xout xwith_out] in *. rewrite <- app_assoc in *.
  fold webp. cbv zeta.
  unfold xbind at 1.
  rewrite (xsave_webp_run _ wim) by exact Himg.
  cbn [xheap xfs xout].
  destruct (webp_save wim 80) as [b|e] eqn:Esave.
  2:{ exists (Raise e), (xfs w), ([im] ++ ext).
      eexists. split; [unfold xwith_out; cbn; rewrite <- app_assoc; reflexivity|].
      split; [reflexivity|]. split; [reflexivity|].
      right; right. exists [], 80, [70; 60; 50; 40], e.
      split; [reflexivity|]. split; [constructor|].
      split; [assumption|]. split; reflexivity. }
  erewrite xbind_ok
    by (unfold xgetsize; cbn [xfs]; rewrite lookup_insert_eq; reflexivity).
  erewrite xbind_ok by apply xlog_run.
  destruct (kb_le (len b) MAX_FILE_SIZE_KB) eqn:Efit.
  - erewrite xbind_ok by apply xlog_run.
    exists (Ok (Some webp)), (<[webp := b]> (xfs w)), ([im] ++ ext).
    eexists. split; [unfold xret, xwith_out; cbn; rewrite <- !app_assoc; reflexivity|].
    split; [intros p Hp; apply lookup_insert_ne; congruence|].
    split; [reflexivity|].
    right; left. exists [], 80, [70; 60; 50; 40], b.
    split; [reflexivity|]. split; [constructor|].
    repeat (split; [assumption || reflexivity|]). reflexivity.
  - match goal with |- context [xbind (fallback_webp_loop ?qs img webp) _ ?W] =>
      destruct (fallback_webp_loop_run qs img wim webp W)
        as (res & fs' & tr & Hrun & Hframe & Hbase & Hres) end.
    { exact Himg. }
    cbn [xheap xfs xout xwith_out] in *.
    assert (H80 : webp_missed wim 80) by (exists b; split; assumption).
    destruct Hres as [(-> & Hall & Henc & _ & Hlast)
                     | [(before & q' & after & b' & Hqs & Hbefore & Hb' & Hfit' & -> & -> & Henc)
                       | (before & q' & after & e & Hqs & Hbefore & He & -> & Henc)]].
    + erewrite xbind_ok by exact Hrun. cbv iota beta.
      erewrite xbind_ok by apply xlog_run.
      exists (Ok (Some path)), fs', ([im] ++ ext).
      eexists. split; [unfold xret, xwith_out; cbn; rewrite <- !app_assoc; reflexivity|].
      split.
      { intros p Hp. rewrite Hframe by assumption. apply lookup_insert_ne. congruence. }
      split; [rewrite !xbase_app, Hbase; reflexivity|].
      left. split; [reflexivity|]. split; [constructor; assumption|].
      split; [rewrite !xwebp_encodes_app; cbn; rewrite Henc, app_nil_r; reflexivity|].
      intros b40 Hb40.
      rewrite (Hlast b40 ltac:(discriminate) Hb40). apply insert_insert_eq.
    + erewrite xbind_ok by exact Hrun. cbv iota beta.
      exists (Ok (Some webp)), (<[webp := b']> (<[webp := b]> (xfs w))), ([im] ++ ext).
      eexists. split; [unfold xret; rewrite <- !app_assoc; reflexivity|].
      split.
      { intros p Hp. rewrite !lookup_insert_ne by congruence. reflexivity. }
      split; [rewrite !xbase_app, Hbase; reflexivity|].
      right; left. exists (80 :: before), q', after, b'.
      split; [unfold webp_ladder; rewrite Hqs; reflexivity|].
      split; [constructor; assumption|].
      split; [assumption|]. split; [assumption|]. split; [reflexivity|].
      split; [apply insert_insert_eq|].
      rewrite !xwebp_encodes_app. cbn. rewrite Henc. reflexivity.
    + erewrite xbind_raise by exact Hrun.
      exists (Raise e), fs', ([im] ++ ext).
      eexists. split; [rewrite <- !app_assoc; reflexivity|].
      split.
      { intros p Hp. rewrite Hframe by assumption. apply lookup_insert_ne. congruence. }
      split; [rewrite !xbase_app, Hbase; reflexivity|].
      right; right. exists (80 :: before), q', after, e.
      split; [unfold webp_ladder; rewrite Hqs; reflexivity|].
      split; [constructor; assumption|].
      split; [assumption|]. split; [reflexivity|].
      rewrite !xwebp_encodes_app. cbn. rewrite Henc. reflexivity.
Qed.

(** The WebP phase whatever the file: it answers [file_path], or the WebP
    path with a file of at most 500KB behind it, or it raises. *)
Lemma fallback_webp_outcome path w :
  exists res w',
    fallback_webp path w = (res, w') /\
    (res = Ok (Some path)
     \/ (res = Ok (Some (webp_path_of path)) /\
         exists b q wim,
           xfs w' !! webp_path_of path = Some b /\
           kb_le (len b) MAX_FILE_SIZE_KB = true /\
           webp_save wim q = inl b /\ In q webp_ladder)
     \/ exists e, res = Raise e).
Proof.
  destruct (xfs w !! path) as [data|] eqn:Hfile.
  2:{ eexists. eexists. split.
      - unfold fallback_webp. erewrite xbind_ok by apply xlog_run.
        erewrite xbind_raise; [reflexivity|].
        unfold xopen_file. cbn [xfs xwith_out]. rewrite Hfile. reflexivity.
      - right; right. eexists. reflexivity. }
  destruct (image_open data) as [im|e] eqn:Hopen.
  2:{ eexists. eexists. split.
      - unfold fallback_webp. erewrite xbind_ok by apply xlog_run.
        erewrite xbind_raise; [reflexivity|].
        unfold xopen_file, xopen_bytes. cbn [xfs xwith_out].
        rewrite Hfile, Hopen. reflexivity.
      - right; right. eexists. reflexivity. }
  destruct (fallback_webp_run path data im w Hfile Hopen)
    as (res & fs' & ext & tr & Hrun & _ & _ & Hres).
  eexists. eexists. split; [exact Hrun|].
  destruct Hres as [(-> & _)
                   | [(before & q & after & b & Hqs & _ & Hb & Hfit & -> & -> & _)
                     | (before & q & after & e & _ & _ & _ & -> & _)]].
  - left. reflexivity.
  - right; left. split; [reflexivity|].
    exists b, q, (recursive_working_image im).
    split; [cbn; apply lookup_insert_eq|]. split; [assumption|].
    split; [assumption|]. rewrite Hqs. apply in_elt.
  - right; right. eexists. reflexivity.
Qed.

Lemma xgetsize_cases p w :
  (exists b, xgetsize p w = (Ok (len b), w))
  \/ (exists e, xgetsize p w = (Raise e, w)).
Proof.
  unfold xgetsize. destruct (xfs w !! p) as [b|].
  - left. exists b. reflexivity.
  - right. eexists. reflexivity.
Qed.

(** [recursive_optimize_export] on an existing file, with enough fuel:
    it returns, with [None] or the path it was given. *)
Lemma recursive_outcome fuel path data w :
  fs w !! path = Some data ->
  (8 <= fuel)%nat ->
  exists r w',
    recursive_optimize_export fuel path w = (Ok r, w') /\
    (r = None \/ r = Some path).
Proof.
  intros Hfile Hfuel.
  destruct (kb_le (len data) MAX_FILE_SIZE_KB) eqn:Hsmall.
  { eexists. eexists. split; [eapply recursive_already_small; eassumption|].
    right. reflexivity. }
  destruct (image_open data) as [im|e] eqn:Hopen.
  2:{ eexists. eexists. split; [eapply recursive_open_fails; eassumption|].
      left. reflexivity. }
  destruct (recursive_optimize_export_run fuel path data im w Hfile Hsmall Hopen Hfuel)
    as (n & tr & ext & fs' & res & Hrun & _ & _ & _ & _ & Hres).
  destruct Hres as [(e & _ & -> & _) | (b & _ & -> & _)].
  - eexists. eexists. split; [exact Hrun|]. left. reflexivity.
  - eexists. eexists. split; [exact Hrun|]. right. reflexivity.
Qed.

Lemma fallback_try_block_outcome fuel path data w :
  xfs w !! path = Some data ->
  (8 <= fuel)%nat ->
  exists res w',
    fallback_try_block fuel path w = (res, w') /\
    (res = Ok (Some path)
     \/ (res = Ok (Some (webp_path_of path)) /\
         exists b q wim,
           xfs w' !! webp_path_of path = Some b /\
           kb_le (len b) MAX_FILE_SIZE_KB = true /\
           webp_save wim q = inl b /\ In q webp_ladder)
     \/ exists e, res = Raise e).
Proof.
  intros Hfile Hfuel. unfold fallback_try_block.
  erewrite xbind_ok by (unfold xgetsize; rewrite Hfile; reflexivity).
  destruct (is_jpeg_path path); [|apply fallback_webp_outcome].
  erewrite xbind_ok by apply xlog_run.
  destruct (recursive_outcome fuel path data (narrow (xwith_out w [XLog Fallback_attempting_jpeg])))
    as (r & w0 & Hrun & Hr); [exact Hfile | exact Hfuel |].
  erewrite xbind_ok by (apply lift_run; exact Hrun).
  destruct Hr as [-> | ->]; cbn [truthy]; [apply fallback_webp_outcome|].
  destruct (negb (path =? "")%string); [|apply fallback_webp_outcome].
  match goal with |- context [xbind (xgetsize path) _ ?W] =>
    destruct (xgetsize_cases path W) as [(fb & Hsize) | (e & Hsize)] end.
  - erewrite xbind_ok by exact Hsize.
    destruct (kb_le (len fb) MAX_FILE_SIZE_KB); [|apply fallback_webp_outcome].
    eexists. eexists. split; [reflexivity|]. left. reflexivity.
  - erewrite xbind_raise by exact Hsize.
    eexists. eexists. split; [reflexivity|]. right; right. eexists. reflexivity.
Qed.

End FallbackRuns.

(** ** [optimize_with_format_fallback]: what a caller gets *)

(** X1: [optimize_with_format_fallback] always answers.  It returns [None]
    when the file does not exist, having only logged that; for an existing
    file it never raises and never returns [None]: whatever the codecs do, it
    returns the path it was given or the WebP path derived from it. *)
Theorem X1_fallback_always_answers `{Codec} `{Codec2} fuel path w :
  (8 <= fuel)%nat ->
  (xfs w !! path = None ->
   optimize_with_format_fallback fuel path w
     = (Ok None, xwith_out w [Base (EvPrint (Log_file_not_found path))]))
  /\ (forall data, xfs w !! path = Some data ->
      exists p w',
        optimize_with_format_fallback fuel path w = (Ok (Some p), w') /\
        (p = path \/ p = webp_path_of path)).
Proof.
  intros Hfuel. split.
  - intros Hnone. unfold optimize_with_format_fallback.
    erewrite xbind_ok by reflexivity.
    rewrite Hnone, bool_decide_eq_false_2 by (intros [? ?]; discriminate).
    reflexivity.
  - intros data Hfile. unfold optimize_with_format_fallback.
    erewrite xbind_ok by reflexivity.
    rewrite Hfile, bool_decide_eq_true_2 by eauto.
    change (negb true) with false. cbv iota.
    destruct (fallback_try_block_outcome fuel path data w Hfile Hfuel)
      as (res & w' & Hrun & [-> | [(-> & _) | (e & ->)]]).
    + rewrite (xtry_except_ok _ _ _ _ _ Hrun). eauto.
    + rewrite (xtry_except_ok _ _ _ _ _ Hrun). eauto.
    + rewrite (xtry_except_raise _ _ _ _ _ Hrun).
      erewrite xbind_ok by apply xlog_run. unfold xret. eauto.
Qed.

Lemma X1_fallback_always_answers_witness :
  let C := Model.codec (Model.enc_fail "broken data stream")
             (Model.dec_fail "cannot identify image file") in
  let C2 := Model2.codec2 (Model2.webp_const 100) (Model2.png_const 100)
              (Model2.quant_fail "no palette") in
  let w := Model2.xworld_with_file "photo.jpg" (Model.zeros 700000) in
  exists p w',
    @optimize_with_format_fallback C C2 8 "photo.jpg" w = (Ok (Some p), w') /\
    (p = "photo.jpg" \/ p = webp_path_of "photo.jpg").
Proof.
  intros C C2 w.
  destruct (@X1_fallback_always_answers C C2 8%nat "photo.jpg" w) as [_ Hsome].
  - lia.
  - apply (Hsome (Model.zeros 700000)). apply lookup_singleton_eq.
Defined.

(** X2: when [optimize_with_format_fallback] returns a path other than the
    one it was given, a file of at most 500KB is there, and its bytes are
    those of a WebP save at one of the qualities 80, 70, 60, 50, 40. *)
Theorem X2_fallback_new_path_fits `{Codec} `{Codec2} fuel path w p w' :
  (8 <= fuel)%nat ->
  optimize_with_format_fallback fuel path w = (Ok (Some p), w') ->
  p <> path ->
  exists b q wim,
    xfs w' !! p = Some b /\
    len b <= MAX_FILE_SIZE_KB * 1024 /\
    webp_save wim q = inl b /\
    In q webp_ladder.
Proof.
  intros Hfuel Hrun Hp.
  destruct (xfs w !! path) as [data|] eqn:Hfile.
  2:{ unfold optimize_with_format_fallback in Hrun.
      erewrite xbind_ok in Hrun by reflexivity.
      rewrite Hfile, bool_decide_eq_false_2 in Hrun
        by (intros [? ?]; discriminate).
      discriminate. }
  unfold optimize_with_format_fallback in Hrun.
  erewrite xbind_ok in Hrun by reflexivity.
  rewrite Hfile, bool_decide_eq_true_2 in Hrun by eauto.
  change (negb true) with false in Hrun. cbv iota in Hrun.
  destruct (fallback_try_block_outcome fuel path data w Hfile Hfuel)
    as (res & w1 & Hblock & [-> | [(-> & b & q & wim & Hb & Hfit & Hsave & Hq)
                                   | (e & ->)]]).
  - rewrite (xtry_except_ok _ _ _ _ _ Hblock) in Hrun. congruence.
  - rewrite (xtry_except_ok _ _ _ _ _ Hblock) in Hrun.
    injection Hrun as <- <-.
    exists b, q, wim. split; [assumption|].
    split; [apply Z.leb_le; exact Hfit|]. split; assumption.
  - rewrite (xtry_except_raise _ _ _ _ _ Hblock) in Hrun.
    erewrite xbind_ok in Hrun by apply xlog_run. unfold xret in Hrun. congruence.
Qed.

(** ** [optimize_with_format_fallback] on a name that is not a JPEG's *)

Lemma fallback_non_jpeg_run `{Codec} `{Codec2} fuel path data w :
  xfs w !! path = Some data ->
  is_jpeg_path path = false ->
  optimize_with_format_fallback fuel path w
    = xtry_except (fallback_webp path)
        (fun e => do* xlog (Fallback_failed e) in xret (Some path)) w.
Proof.
  intros Hfile Hjpeg. unfold optimize_with_format_fallback.
  erewrite xbind_ok by reflexivity.
  rewrite Hfile, bool_decide_eq_true_2 by eauto.
  change (negb true) with false. cbv iota.
  unfold xtry_except, fallback_try_block.
  erewrite xbind_ok by (unfold xgetsize; rewrite Hfile; reflexivity).
  rewrite Hjpeg. reflexivity.
Qed.

(** In a ladder that is climbed down to [q], [q] is its first rung when the
    first rung did not miss. *)
Lemma ladder_first_rung `{Codec2} wim before q after :
  webp_ladder = before ++ q :: after ->
  Forall (webp_missed wim) before ->
  ~ webp_missed wim 80 ->
  before = [] /\ q = 80.
Proof.
  intros Hqs Hbefore H80. destruct before as [|q0 before].
  - injection Hqs as <- _. split; reflexivity.
  - injection Hqs as <- _. inversion Hbefore; subst. contradiction.
Qed.

Lemma fallback_non_jpeg_first_save_fits `{Codec} `{Codec2} fuel path data im b w :
  xfs w !! path = Some data ->
  is_jpeg_path path = false ->
  image_open data = inl im ->
  webp_save (recursive_working_image im) 80 = inl b ->
  kb_le (len b) MAX_FILE_SIZE_KB = true ->
  exists ext tr,
    optimize_with_format_fallback fuel path w
      = (Ok (Some (webp_path_of path)),
         {| xheap := xheap w ++ ext;
            xfs := <[webp_path_of path := b]> (xfs w);
            xout := xout w ++ tr |}) /\
    xwebp_encodes tr = [(recursive_working_image im, 80)] /\
    xbase tr = [].
Proof.
  intros Hfile Hjpeg Hopen Hsave Hfit.
  rewrite (fallback_non_jpeg_run fuel path data w Hfile Hjpeg).
  destruct (fallback_webp_run path data im w Hfile Hopen)
    as (res & fs' & ext & tr & Hrun & _ & Hbase & Hres).
  assert (H80 : ~ webp_missed (recursive_working_image im) 80).
  { intros (b' & Hb' & Hmiss). congruence. }
  destruct Hres as [(_ & Hall & _ & _)
                   | [(before & q & after & b' & Hqs & Hbefore & Hb' & _ & -> & -> & Henc)
                     | (before & q & after & e & Hqs & Hbefore & He & _)]].
  - inversion Hall; subst. contradiction.
  - destruct (ladder_first_rung _ _ _ _ Hqs Hbefore H80) as [-> ->].
    assert (b' = b) by congruence. subst b'.
    rewrite (xtry_except_ok _ _ _ _ _ Hrun).
    exists ext, tr. split; [reflexivity|]. split; assumption.
  - destruct (ladder_first_rung _ _ _ _ Hqs Hbefore H80) as [-> ->]. congruence.
Qed.

Lemma X2_fallback_new_path_fits_witness :
  let C := Model.codec (Model.enc_const 100) (Model.dec_const Model.rgb_2x1) in
  let C2 := Model2.codec2 (Model2.webp_const 100) (Model2.png_const 100)
              (Model2.quant_fail "no palette") in
  let w := Model2.xworld_with_file "shots/a.jpg.png" (Model.zeros 10) in
  exists w' b q wim,
    @optimize_with_format_fallback C C2 8 "shots/a.jpg.png" w
      = (Ok (Some "shots/a.webp.png"), w') /\
    xfs w' !! "shots/a.webp.png" = Some b /\
    len b <= MAX_FILE_SIZE_KB * 1024 /\
    @webp_save C2 wim q = inl b /\
    In q webp_ladder.
Proof.
  intros C C2 w.
  destruct (@fallback_non_jpeg_first_save_fits C C2 8%nat "shots/a.jpg.png"
              (Model.zeros 10) Model.rgb_2x1 (Model.zeros 100) w)
    as (ext & tr & Hrun & _).
  - apply lookup_singleton_eq.
  - reflexivity.
  - reflexivity.
  - reflexivity.
  - reflexivity.
  - change (webp_path_of "shots/a.jpg.png") with "shots/a.webp.png" in Hrun.
    destruct (@X2_fallback_new_path_fits C C2 8%nat "shots/a.jpg.png" w
                "shots/a.webp.png" _ ltac:(lia) Hrun ltac:(discriminate))
      as (b & q & wim & Hb & Hfit & Hsave & Hq).
    eexists. exists b, q, wim. split; [exact Hrun|].
    split; [exact Hb|]. split; [exact Hfit|]. split; [exact Hsave | exact Hq].
Defined.

(** X3: a path that does not end in ".jpg" or ".jpeg" (in any case) gets no
    size check: the file is decoded and saved as WebP at quality 80 even when
    it is already under 500KB, and when that save is within 500KB it is the
    only encode of the call.  The WebP bytes go to
    [file_path.replace(".jpg", ".webp").replace(".jpeg", ".webp")]: for a
    name that contains neither substring this is the input path itself, so
    the source file is overwritten with WebP data under its old name. *)
Theorem X3_fallback_converts_without_size_check `{Codec} `{Codec2}
    fuel path data im b w :
  xfs w !! path = Some data ->
  is_jpeg_path path = false ->
  image_open data = inl im ->
  webp_save (recursive_working_image im) 80 = inl b ->
  kb_le (len b) MAX_FILE_SIZE_KB = true ->
  exists ext tr w',
    w' = {| xheap := xheap w ++ ext;
            xfs := <[webp_path_of path := b]> (xfs w);
            xout := xout w ++ tr |} /\
    optimize_with_format_fallback fuel path w
      = (Ok (Some (webp_path_of path)), w') /\
    xwebp_encodes tr = [(recursive_working_image im, 80)] /\
    xbase tr = [] /\
    (webp_path_of path = path -> xfs w' !! path = Some b).
Proof.
  intros Hfile Hjpeg Hopen Hsave Hfit.
  destruct (fallback_non_jpeg_first_save_fits fuel path data im b w)
    as (ext & tr & Hrun & Henc & Hbase); try assumption.
  exists ext, tr. eexists. split; [reflexivity|].
  split; [exact Hrun|]. split; [exact Henc|]. split; [exact Hbase|].
  intros Hsame. cbn [xfs]. rewrite Hsame. apply lookup_insert_eq.
Qed.

Lemma X3_fallback_converts_without_size_check_witness :
  let C := Model.codec (Model.enc_const 100) (Model.dec_const Model.rgb_2x1) in
  let C2 := Model2.codec2 (Model2.webp_const 100) (Model2.png_const 100)
              (Model2.quant_fail "no palette") in
  let w := Model2.xworld_with_file "logo.png" (Model.zeros 10) in
  exists w',
    @optimize_with_format_fallback C C2 0 "logo.png" w
      = (Ok (Some "logo.png"), w') /\
    xfs w !! "logo.png" = Some (Model.zeros 10) /\
    xfs w' !! "logo.png" = Some (Model.zeros 100).
Proof.
  intros C C2 w.
  destruct (@X3_fallback_converts_without_size_check C C2 0%nat "logo.png"
              (Model.zeros 10) Model.rgb_2x1 (Model.zeros 100) w)
    as (ext & tr & w' & _ & Hrun & _ & _ & Hsame).
  - apply lookup_singleton_eq.
  - reflexivity.
  - reflexivity.
  - reflexivity.
  - reflexivity.
  - exists w'. split; [exact Hrun|].
    split; [apply lookup_singleton_eq | apply Hsame; reflexivity].
Defined.

(** X4: the WebP ladder.  For a path that is not a JPEG's and a file that
    decodes, WebP saves are made at 80, 70, 60, 50, 40 in that order, on the
    same working image, and stop at the first save within 500KB (the WebP
    path is returned and holds those bytes) or at the first save that fails
    in the codec (the failure is logged and the input path returned).  When
    all five saves exceed 500KB the input path is returned, yet the
    quality-40 WebP stays at the WebP path.  Files at other paths are
    untouched. *)
Theorem X4_fallback_webp_ladder `{Codec} `{Codec2} fuel path data im w :
  xfs w !! path = Some data ->
  is_jpeg_path path = false ->
  image_open data = inl im ->
  let wim := recursive_working_image im in
  let webp := webp_path_of path in
  exists p ext fs' tr,
    optimize_with_format_fallback fuel path w
      = (Ok (Some p),
         {| xheap := xheap w ++ ext; xfs := fs'; xout := xout w ++ tr |}) /\
    (forall f, f <> webp -> fs' !! f = xfs w !! f) /\
    ((p = path /\ Forall (webp_missed wim) webp_ladder /\
      xwebp_encodes tr = map (pair wim) webp_ladder /\
      (forall b, webp_save wim 40 = inl b -> fs' !! webp = Some b))
     \/ (exists before q after b,
           webp_ladder = before ++ q :: after /\
           Forall (webp_missed wim) before /\
           webp_save wim q = inl b /\
           len b <= MAX_FILE_SIZE_KB * 1024 /\
           p = webp /\
           fs' !! webp = Some b /\
           xwebp_encodes tr = map (pair wim) (before ++ [q]))
     \/ (exists before q after e tr0,
           webp_ladder = before ++ q :: after /\
           Forall (webp_missed wim) before /\
           webp_save wim q = inr e /\
           p = path /\
           tr = tr0 ++ [XLog (Fallback_failed e)] /\
           xwebp_encodes tr = map (pair wim) (before ++ [q]))).
Proof.
  intros Hfile Hjpeg Hopen wim webp.
  rewrite (fallback_non_jpeg_run fuel path data w Hfile Hjpeg).
  destruct (fallback_webp_run path data im w Hfile Hopen)
    as (res & fs' & ext & tr & Hrun & Hframe & _ & Hres).
  fold wim webp in Hframe, Hres.
  destruct Hres as [(-> & Hall & Henc & Hlast)
                   | [(before & q & after & b & Hqs & Hbefore & Hb & Hfit & -> & -> & Henc)
                     | (before & q & after & e & Hqs & Hbefore & He & -> & Henc)]].
  - rewrite (xtry_except_ok _ _ _ _ _ Hrun).
    exists path, ext, fs', tr. split; [reflexivity|]. split; [exact Hframe|].
    left. split; [reflexivity|]. split; [assumption|]. split; [assumption|].
    intros b Hb. rewrite (Hlast b Hb). apply lookup_insert_eq.
  - rewrite (xtry_except_ok _ _ _ _ _ Hrun).
    exists webp, ext, (<[webp := b]> (xfs w)), tr.
    split; [reflexivity|]. split; [exact Hframe|].
    right; left. exists before, q, after, b.
    split; [assumption|]. split; [assumption|]. split; [assumption|].
    split; [apply Z.leb_le; exact Hfit|]. split; [reflexivity|].
    split; [apply lookup_insert_eq | assumption].
  - rewrite (xtry_except_raise _ _ _ _ _ Hrun).
    erewrite xbind_ok by apply xlog_run.
    exists path, ext, fs', (tr ++ [XLog (Fallback_failed e)]).
    split; [unfold xret, xwith_out; cbn; rewrite <- app_assoc; reflexivity|].
    split; [exact Hframe|].
    right; right. exists before, q, after, e, tr.
    split; [assumption|]. split; [assumption|]. split; [assumption|].
    split; [reflexivity|]. split; [reflexivity|].
    rewrite xwebp_encodes_app, Henc. cbn. apply app_nil_r.
Qed.

Lemma X4_fallback_webp_ladder_witness :
  let C := Model.codec (Model.enc_const 100) (Model.dec_const Model.rgb_2x1) in
  let C2 := Model2.codec2 (Model2.webp_by_quality 8000) (Model2.png_const 100)
              (Model2.quant_fail "no palette") in
  let w := Model2.xworld_with_file "logo.png" (Model.zeros 10) in
  exists p ext fs' tr,
    @optimize_with_format_fallback C C2 0 "logo.png" w
      = (Ok (Some p),
         {| xheap := xheap w ++ ext; xfs := fs'; xout := xout w ++ tr |}) /\
    (forall f, f <> "logo.png" -> fs' !! f = xfs w !! f).
Proof.
  intros C C2 w.
  destruct (@X4_fallback_webp_ladder C C2 0%nat "logo.png" (Model.zeros 10)
              Model.rgb_2x1 w)
    as (p & ext & fs' & tr & Hrun & Hframe & _).
  - apply lookup_singleton_eq.
  - reflexivity.
  - reflexivity.
  - exists p, ext, fs', tr. split; [exact Hrun | exact Hframe].
Defined.

(** ** [optimize_with_format_fallback] after a JPEG optimisation that
    missed *)

Lemma recursive_all_miss_run `{Codec} fuel path data im w :
  fs w !! path = Some data ->
  kb_le (len data) MAX_FILE_SIZE_KB = false ->
  image_open data = inl im ->
  (8 <= fuel)%nat ->
  (forall t, (1 <= t <= 7)%nat ->
     exists b, jpeg_save (recursive_working_image im) (recursive_quality t) = inl b /\
               kb_gt (len b) MAX_FILE_SIZE_KB = true) ->
  exists b tr ext,
    recursive_optimize_export fuel path w
      = (Ok (Some path),
         {| heap := heap w ++ ext; fs := <[path := b]> (fs w);
            out := out w ++ tr |}) /\
    jpeg_save (recursive_working_image im) 60 = inl b /\
    kb_gt (len b) MAX_FILE_SIZE_KB = true /\
    map snd (encodes tr) = [90; 85; 80; 75; 70; 65; 60].
Proof.
  intros Hfile Hbig Hopen Hfuel Hall.
  destruct (recursive_optimize_export_run fuel path data im w Hfile Hbig Hopen Hfuel)
    as (n & tr & ext & fs' & res & Hrun & Hn & _ & Henc & _ & Hres).
  destruct (Hall n Hn) as (bn & Hbn & Hgt).
  destruct Hres as [(e & He & _) | (b & Hb & -> & -> & Hdone & _)].
  - congruence.
  - assert (b = bn) by congruence. subst bn.
    destruct Hdone as [Hsmall | ->]; [congruence|].
    change (recursive_quality 7) with 60 in *.
    exists b, tr, ext. split; [exact Hrun|]. split; [exact Hb|].
    split; [exact Hgt|]. rewrite Henc. reflexivity.
Qed.

Lemma is_jpeg_path_nonempty path : is_jpeg_path path = true -> path <> ""%string.
Proof. intros Hj ->. discriminate. Qed.

(** X5: when the JPEG optimisation of a ".jpg"/".jpeg" file misses, the
    WebP is made from what that optimisation left behind.
    [recursive_optimize_export] has by then overwritten the file with its
    quality-60 JPEG; [optimize_with_format_fallback] reopens the file, so the
    image it encodes as WebP is the decoding of those quality-60 bytes, not
    the image it started from.  When the first WebP save is within 500KB the
    call has made seven JPEG saves and one WebP save, returns the WebP path,
    and the file system differs from the initial one by the re-encoded source
    and the new WebP file. *)
Theorem X5_fallback_webp_from_degraded_jpeg `{Codec} `{Codec2}
    fuel path data im b60 im60 wb w :
  (8 <= fuel)%nat ->
  xfs w !! path = Some data ->
  is_jpeg_path path = true ->
  kb_le (len data) MAX_FILE_SIZE_KB = false ->
  image_open data = inl im ->
  (forall t, (1 <= t <= 7)%nat ->
     exists b, jpeg_save (recursive_working_image im) (recursive_quality t) = inl b /\
               kb_gt (len b) MAX_FILE_SIZE_KB = true) ->
  jpeg_save (recursive_working_image im) 60 = inl b60 ->
  image_open b60 = inl im60 ->
  webp_save (recursive_working_image im60) 80 = inl wb ->
  kb_le (len wb) MAX_FILE_SIZE_KB = true ->
  exists ext tr,
    optimize_with_format_fallback fuel path w
      = (Ok (Some (webp_path_of path)),
         {| xheap := xheap w ++ ext;
            xfs := <[webp_path_of path := wb]> (<[path := b60]> (xfs w));
            xout := xout w ++ tr |}) /\
    map snd (encodes (xbase tr)) = [90; 85; 80; 75; 70; 65; 60] /\
    xwebp_encodes tr = [(recursive_working_image im60, 80)].
Proof.
  intros Hfuel Hfile Hjpeg Hbig Hopen Hall Hb60 Hopen60 Hwb Hfit.
  pose proof (is_jpeg_path_nonempty path Hjpeg) as Hne.
  unfold optimize_with_format_fallback.
  erewrite xbind_ok by reflexivity.
  rewrite Hfile, bool_decide_eq_true_2 by eauto.
  change (negb true) with false. cbv iota.
  set (w1 := xwith_out w [XLog Fallback_attempting_jpeg]).
  destruct (recursive_all_miss_run fuel path data im (narrow w1))
    as (b & jtr & jext & Hrec & Hb & Hgt & Hq); try assumption.
  assert (b = b60) by congruence. subst b.
  set (w2 := widen w1 {| heap := heap (narrow w1) ++ jext;
                         fs := <[path := b60]> (fs (narrow w1));
                         out := out (narrow w1) ++ jtr |}).
  assert (Hfile2 : xfs w2 !! path = Some b60) by (cbn; apply lookup_insert_eq).
  destruct (fallback_webp_run path b60 im60 w2 Hfile2 Hopen60)
    as (res & fs' & ext & tr & Hrun & _ & Hbase & Hres).
  assert (H80 : ~ webp_missed (recursive_working_image im60) 80).
  { intros (b' & Hb' & Hmiss). congruence. }
  assert (Hres' : res = Ok (Some (webp_path_of path)) /\
                  fs' = <[webp_path_of path := wb]> (xfs w2) /\
                  xwebp_encodes tr = [(recursive_working_image im60, 80)]).
  { destruct Hres as [(_ & Hmissall & _ & _)
                     | [(before & q & after & b' & Hqs & Hbefore & Hb' & _ & -> & -> & Henc)
                       | (before & q & after & e & Hqs & Hbefore & He & _)]].
    - inversion Hmissall; subst. contradiction.
    - destruct (ladder_first_rung _ _ _ _ Hqs Hbefore H80) as [-> ->].
      assert (b' = wb) by congruence. subst b'.
      split; [reflexivity|]. split; [reflexivity | exact Henc].
    - destruct (ladder_first_rung _ _ _ _ Hqs Hbefore H80) as [-> ->]. congruence. }
  destruct Hres' as (-> & -> & Henc).
  erewrite xtry_except_ok.
  2:{ unfold fallback_try_block.
      erewrite xbind_ok by (unfold xgetsize; rewrite Hfile; reflexivity).
      rewrite Hjpeg.
      erewrite xbind_ok by apply xlog_run. fold w1.
      erewrite xbind_ok by (apply lift_run; exact Hrec). fold w2.
      cbn [truthy].
      replace (negb (path =? "")%string) with true
        by (symmetry; apply negb_true_iff, String.eqb_neq; exact Hne).
      erewrite xbind_ok by (unfold xgetsize; rewrite Hfile2; reflexivity).
      replace (kb_le (len b60) MAX_FILE_SIZE_KB) with false.
      2:{ symmetry. unfold kb_le. unfold kb_gt in Hgt.
          apply Z.ltb_lt in Hgt. apply Z.leb_gt. exact Hgt. }
      exact Hrun. }
  exists (jext ++ ext).
  exists ([XLog Fallback_attempting_jpeg] ++ map Base jtr ++ tr).
  split.
  { subst w2 w1. unfold widen, narrow, xwith_out. cbn.
    rewrite <- !app_assoc. reflexivity. }
  split.
  { rewrite !xbase_app, xbase_map_Base, Hbase, app_nil_r. cbn. exact Hq. }
  rewrite !xwebp_encodes_app, xwebp_encodes_map_Base, Henc. reflexivity.
Qed.

Lemma X5_fallback_webp_from_degraded_jpeg_witness :
  let C := Model.codec (Model.enc_const 600000) (Model.dec_const Model.rgb_2x1) in
  let C2 := Model2.codec2 (Model2.webp_const 100) (Model2.png_const 100)
              (Model2.quant_fail "no palette") in
  let w := Model2.xworld_with_file "photo.jpg" (Model.zeros 700000) in
  exists ext tr,
    @optimize_with_format_fallback C C2 8 "photo.jpg" w
      = (Ok (Some "photo.webp"),
         {| xheap := xheap w ++ ext;
            xfs := <["photo.webp" := Model.zeros 100]>
                     (<["photo.jpg" := Model.zeros 600000]> (xfs w));
            xout := xout w ++ tr |}) /\
    map snd (encodes (xbase tr)) = [90; 85; 80; 75; 70; 65; 60] /\
    xwebp_encodes tr = [(recursive_working_image Model.rgb_2x1, 80)].
Proof.
  intros C C2 w.
  assert (Hsize : len (Model.zeros 600000) = 600000) by (apply len_zeros; lia).
  apply (@X5_fallback_webp_from_degraded_jpeg C C2 8%nat "photo.jpg"
           (Model.zeros 700000) Model.rgb_2x1 (Model.zeros 600000)
           Model.rgb_2x1 (Model.zeros 100) w).
  - lia.
  - apply lookup_singleton_eq.
  - reflexivity.
  - unfold kb_le. rewrite len_zeros by lia. reflexivity.
  - reflexivity.
  - intros t _. exists (Model.zeros 600000). split; [reflexivity|].
    unfold kb_gt. rewrite Hsize. reflexivity.
  - reflexivity.
  - reflexivity.
  - reflexivity.
  - unfold kb_le. rewrite len_zeros by lia. reflexivity.
Defined.

(** ** [export_final] *)

Section ExportFinalRuns.
Context `{Codec}.
Variable cls : string -> bool.

(** An upload that passes the checks and decodes: the endpoint is
    [optimize_for_retail] on the decoded image, its buffer wrapped in a
    response and its exception in "Error exporting file". *)
Lemma export_final_decoded fuel file ct im w :
  content_type file = Some ct ->
  PyStr.startswith ct "image/" = true ->
  len (upload_bytes file) <> 0 ->
  image_open (upload_bytes file) = inl im ->
  export_final cls fuel file w =
    match optimize_for_retail fuel (length (heap w))
            (with_heap w (heap w ++ [im])) with
    | (Ok b, w') =>
        (Ok (inr {| body := [b]; media_type := "image/jpeg";
                    headers := export_headers |}), w')
    | (Raise e, w') =>
        (Ok (inl (OtherException ("Error exporting file: " +:+ e))), w')
    | (OutOfFuel, w') => (OutOfFuel, w')
    end.
Proof.
  intros Hct Himg Hlen Hopen. unfold export_final, export_final_try_block.
  rewrite Hct, Himg. cbn [negb].
  replace (len (upload_bytes file) =? 0) with false
    by (symmetry; apply Z.eqb_neq; assumption).
  rewrite Hopen. unfold bind at 1. unfold alloc at 1. fold (with_heap w (heap w ++ [im])).
  unfold bind.
  destruct (optimize_for_retail fuel (length (heap w)) (with_heap w (heap w ++ [im])))
    as [[b|e|] w']; reflexivity.
Qed.

End ExportFinalRuns.

(** X6: what [export_final] can answer.  With fuel for 18 attempts the
    endpoint always finishes, with a response or an exception, and never
    touches the file system.  A response is only ever given for an upload
    whose content type starts with "image/", that is not empty and that
    decodes; its body is one chunk, the JPEG that [optimize_for_retail] made
    of the decoded image at one of the qualities 95, 90, ..., 10, and it is
    either under 500KB or the quality-10 encoding. *)
Theorem X6_export_final_response `{Codec} cls fuel file w :
  (18 <= fuel)%nat ->
  exists outcome w',
    export_final cls fuel file w = (Ok outcome, w') /\
    fs w' = fs w /\
    forall response, outcome = inr response ->
      exists ct im n b,
        content_type file = Some ct /\
        PyStr.startswith ct "image/" = true /\
        len (upload_bytes file) <> 0 /\
        image_open (upload_bytes file) = inl im /\
        (n <= 17)%nat /\
        jpeg_save (retail_working_image im) (retail_quality n) = inl b /\
        (len b < retail_target_size_kb * 1024 \/ n = 17%nat) /\
        response = {| body := [b]; media_type := "image/jpeg";
                      headers := export_headers |}.
Proof.
  intros Hfuel.
  destruct (content_type file) as [ct|] eqn:Hct.
  2:{ eexists. exists w. split.
      - unfold export_final, export_final_try_block. rewrite Hct. reflexivity.
      - split; [reflexivity | discriminate]. }
  destruct (PyStr.startswith ct "image/") eqn:Himg.
  2:{ eexists. exists w. split.
      - unfold export_final, export_final_try_block. rewrite Hct, Himg. reflexivity.
      - split; [reflexivity | discriminate]. }
  destruct (len (upload_bytes file) =? 0) eqn:Hlen.
  { eexists. exists w. split.
    - unfold export_final, export_final_try_block. rewrite Hct, Himg, Hlen. reflexivity.
    - split; [reflexivity | discriminate]. }
  apply Z.eqb_neq in Hlen.
  destruct (image_open (upload_bytes file)) as [im|e] eqn:Hopen.
  2:{ assert (Hlen' : (len (upload_bytes file) =? 0) = false) by (apply Z.eqb_neq; exact Hlen).
      destruct (cls e) eqn:Hcls.
      - eexists. exists w. split.
        + unfold export_final, export_final_try_block.
          rewrite Hct, Himg, Hlen', Hopen, Hcls. reflexivity.
        + split; [reflexivity | discriminate].
      - eexists. exists w. split.
        + unfold export_final, export_final_try_block.
          rewrite Hct, Himg, Hlen', Hopen, Hcls. reflexivity.
        + split; [reflexivity | discriminate]. }
  rewrite (export_final_decoded cls fuel file ct im w Hct Himg Hlen Hopen).
  destruct (optimize_for_retail_run fuel (length (heap w)) im
              (with_heap w (heap w ++ [im])))
    as (n & tr & ext & res & Hrun & Hn & _ & _ & _ & Hres).
  { cbn. apply list_lookup_middle. reflexivity. }
  { exact Hfuel. }
  rewrite Hrun.
  destruct Hres as [(e & _ & ->) | [(b & Hb & Hfit & -> & _)
                                   | (b & Hb & _ & Hn17 & -> & _)]].
  - eexists. eexists. split; [reflexivity|]. split; [reflexivity | discriminate].
  - eexists. eexists. split; [reflexivity|]. split; [reflexivity|].
    intros response Hresp. injection Hresp as <-.
    exists ct, im, n, b. repeat (split; [assumption || reflexivity|]).
    split; [left; apply Z.ltb_lt; exact Hfit | reflexivity].
  - eexists. eexists. split; [reflexivity|]. split; [reflexivity|].
    intros response Hresp. injection Hresp as <-.
    exists ct, im, n, b. repeat (split; [assumption || reflexivity|]).
    split; [right; exact Hn17 | reflexivity].
Qed.

Lemma X6_export_final_response_witness :
  let C := Model.codec (Model.enc_const 2000) (Model.dec_const Model.rgb_2x1) in
  let w := Model.world_with_image Model.rgb_2x1 in
  let file := {| content_type := Some "image/png"%string;
                 upload_bytes := Model.zeros 3000 |} in
  exists outcome w',
    @export_final C (fun _ => false) 18 file w = (Ok outcome, w') /\
    fs w' = fs w.
Proof.
  intros C w file.
  destruct (@X6_export_final_response C (fun _ => false) 18%nat file w)
    as (outcome & w' & Hrun & Hfs & _).
  - lia.
  - exists outcome, w'. split; [exact Hrun | exact Hfs].
Defined.

(** X7: how [export_final] reports failures.  The content type is checked
    first, then emptiness, both before any decoding: a type that does not
    start with "image/" and an empty upload are [ValueError]s with the
    prefix "Validation error: ", and nothing has been allocated or encoded.
    A missing content type, and any failure of an encode attempt inside
    [optimize_for_retail], come out as plain exceptions with the prefix
    "Error exporting file: "; the encoder's message then carries both
    prefixes, and the failing attempt was the last one made. *)
Theorem X7_export_final_errors `{Codec} cls fuel file ct im n e w :
  (18 <= fuel)%nat ->
  (n <= 17)%nat ->
  (content_type file = Some ct -> PyStr.startswith ct "image/" = false ->
   export_final cls fuel file w
     = (Ok (inl (ValueError "Validation error: File must be an image")), w))
  /\ (content_type file = Some ct -> PyStr.startswith ct "image/" = true ->
      len (upload_bytes file) = 0 ->
      export_final cls fuel file w
        = (Ok (inl (ValueError "Validation error: Uploaded file is empty")), w))
  /\ (content_type file = None ->
      export_final cls fuel file w
        = (Ok (inl (OtherException
                      "Error exporting file: 'NoneType' object has no attribute 'startswith'")),
           w))
  /\ (content_type file = Some ct -> PyStr.startswith ct "image/" = true ->
      len (upload_bytes file) <> 0 ->
      image_open (upload_bytes file) = inl im ->
      (forall j, (j < n)%nat ->
         exists b, jpeg_save (retail_working_image im) (retail_quality j) = inl b /\
                   kb_lt (len b) retail_target_size_kb = false) ->
      jpeg_save (retail_working_image im) (retail_quality n) = inr e ->
      exists tr ext,
        export_final cls fuel file w
          = (Ok (inl (OtherException
                        ("Error exporting file: " +:+
                         ("Error in optimize_for_retail: " +:+ e)))),
             extend w ([im] ++ ext) tr) /\
        encodes tr = map (fun j => (retail_working_image im, retail_quality j))
                       (seq 0 (S n))).
Proof.
  intros Hfuel Hn. split; [|split; [|split]].
  - intros Hct Himg. unfold export_final, export_final_try_block.
    rewrite Hct, Himg. reflexivity.
  - intros Hct Himg Hlen. unfold export_final, export_final_try_block.
    rewrite Hct, Himg, Hlen. reflexivity.
  - intros Hct. unfold export_final, export_final_try_block.
    rewrite Hct. reflexivity.
  - intros Hct Himg Hlen Hopen Hbefore Hfail.
    rewrite (export_final_decoded cls fuel file ct im w Hct Himg Hlen Hopen).
    destruct (optimize_for_retail_fails_at fuel (length (heap w)) im n e
                (with_heap w (heap w ++ [im])))
      as (tr & ext & Hrun & Henc); try assumption.
    { cbn. apply list_lookup_middle. reflexivity. }
    rewrite Hrun. exists tr, ext. split; [|exact Henc].
    f_equal. unfold extend, with_out, with_heap. cbn.
    rewrite <- app_assoc. reflexivity.
Qed.

Lemma X7_export_final_errors_witness :
  let C := Model.codec (Model.enc_fail "broken data stream")
             (Model.dec_const Model.rgb_2x1) in
  let w := Model.world_with_image Model.rgb_2x1 in
  let file := {| content_type := Some "image/png"%string;
                 upload_bytes := Model.zeros 3000 |} in
  exists tr ext,
    @export_final C (fun _ => false) 18 file w
      = (Ok (inl (OtherException
                    "Error exporting file: Error in optimize_for_retail: broken data stream")),
         extend w ([Model.rgb_2x1] ++ ext) tr) /\
    encodes tr = [(Model.rgb_2x1, 95)].
Proof.
  intros C w file.
  destruct (@X7_export_final_errors C (fun _ => false) 18%nat file
              "image/png"%string Model.rgb_2x1 0%nat "broken data stream"%string w)
    as (_ & _ & _ & Hfail); [lia | lia |].
  apply Hfail.
  - reflexivity.
  - reflexivity.
  - unfold file. cbn [upload_bytes]. rewrite len_zeros by lia. lia.
  - reflexivity.
  - intros j Hj. lia.
  - reflexivity.
Defined.

(** X8: [export_final] can answer with 500KB or more.  When every one of
    the 18 attempts encodes but stays at or above 500KB, the endpoint still
    responds, and the body is the quality-10 JPEG, of at least 512000
    bytes. *)
Theorem X8_export_final_oversized_response `{Codec} cls fuel file ct im w :
  (18 <= fuel)%nat ->
  content_type file = Some ct ->
  PyStr.startswith ct "image/" = true ->
  len (upload_bytes file) <> 0 ->
  image_open (upload_bytes file) = inl im ->
  (forall j, (j <= 17)%nat ->
     exists b, jpeg_save (retail_working_image im) (retail_quality j) = inl b /\
               kb_lt (len b) retail_target_size_kb = false) ->
  exists b w',
    export_final cls fuel file w
      = (Ok (inr {| body := [b]; media_type := "image/jpeg";
                    headers := export_headers |}), w') /\
    jpeg_save (retail_working_image im) 10 = inl b /\
    512000 <= len b /\
    length (encodes (out w')) = (length (encodes (out w)) + 18)%nat.
Proof.
  intros Hfuel Hct Himg Hlen Hopen Hall.
  rewrite (export_final_decoded cls fuel file ct im w Hct Himg Hlen Hopen).
  destruct (optimize_for_retail_run fuel (length (heap w)) im
              (with_heap w (heap w ++ [im])))
    as (n & tr & ext & res & Hrun & Hn & _ & _ & Henc & Hres).
  { cbn. apply list_lookup_middle. reflexivity. }
  { exact Hfuel. }
  rewrite Hrun.
  destruct (Hall n Hn) as (bn & Hbn & Hmiss).
  destruct Hres as [(e & He & _) | [(b & Hb & Hfit & _)
                                   | (b & Hb & Hfit & -> & -> & _)]];
    [congruence | congruence |].
  exists b. eexists. split; [reflexivity|].
  split; [exact Hb|]. split.
  - unfold kb_lt, retail_target_size_kb in Hfit. apply Z.ltb_ge in Hfit. lia.
  - cbn [out extend with_out with_heap]. rewrite encodes_app, length_app.
    rewrite (length_encodes_map _ _ _ Henc), length_seq. reflexivity.
Qed.

Lemma X8_export_final_oversized_response_witness :
  let C := Model.codec (Model.enc_const 600000) (Model.dec_const Model.rgb_2x1) in
  let w := Model.world_with_image Model.rgb_2x1 in
  let file := {| content_type := Some "image/png"%string;
                 upload_bytes := Model.zeros 3000 |} in
  exists b w',
    @export_final C (fun _ => false) 18 file w
      = (Ok (inr {| body := [b]; media_type := "image/jpeg";
                    headers := export_headers |}), w') /\
    512000 <= len b.
Proof.
  intros C w file.
  assert (Hsize : len (Model.zeros 600000) = 600000) by (apply len_zeros; lia).
  destruct (@X8_export_final_oversized_response C (fun _ => false) 18%nat file
              "image/png"%string Model.rgb_2x1 w)
    as (b & w' & Hrun & _ & Hbig & _).
  - lia.
  - reflexivity.
  - reflexivity.
  - unfold file. cbn [upload_bytes]. rewrite len_zeros by lia. lia.
  - reflexivity.
  - intros j _. exists (Model.zeros 600000). split; [reflexivity|].
    unfold kb_lt. rewrite Hsize. reflexivity.
  - exists b, w'. split; [exact Hrun | exact Hbig].
Defined.

(** ** [extract_dominant_colors] *)

Example hex_color_fallback_first : Hex.color (255, 107, 107) = "#FF6B6B"%string.
Proof. reflexivity. Qed.

Example format_02X_small : map Hex.format_02X [0; 5; 16; 255; 256; -5]
                           = ["00"; "05"; "10"; "FF"; "100"; "-5"]%string.
Proof. reflexivity. Qed.

(** Two hexadecimal digits for a byte. *)
Lemma format_02X_byte v :
  0 <= v <= 255 ->
  Hex.format_02X v
    = String (Hex.digit (v / 16)) (String (Hex.digit (v mod 16)) EmptyString).
Proof.
  intros Hv.
  assert (Hall : forallb (fun k : nat =>
                   String.eqb (Hex.format_02X (Z.of_nat k))
                     (String (Hex.digit (Z.of_nat k / 16))
                        (String (Hex.digit (Z.of_nat k mod 16)) EmptyString)))
                   (seq 0 256) = true) by (vm_compute; reflexivity).
  rewrite forallb_forall in Hall.
  specialize (Hall (Z.to_nat v)).
  rewrite Z2Nat.id in Hall by lia.
  apply String.eqb_eq, Hall, in_seq. lia.
Qed.

Lemma hex_digit_inj a b :
  0 <= a <= 15 -> 0 <= b <= 15 -> Hex.digit a = Hex.digit b -> a = b.
Proof.
  intros Ha Hb E.
  assert (Hall : forallb (fun i : nat =>
                   forallb (fun j : nat =>
                     implb (Ascii.eqb (Hex.digit (Z.of_nat i)) (Hex.digit (Z.of_nat j)))
                       (Nat.eqb i j)) (seq 0 16)) (seq 0 16) = true)
    by (vm_compute; reflexivity).
  rewrite forallb_forall in Hall.
  specialize (Hall (Z.to_nat a) ltac:(apply in_seq; lia)).
  rewrite forallb_forall in Hall.
  specialize (Hall (Z.to_nat b) ltac:(apply in_seq; lia)).
  rewrite !Z2Nat.id in Hall by lia.
  rewrite E, Ascii.eqb_refl in Hall. simpl in Hall.
  apply Nat.eqb_eq in Hall. lia.
Qed.

Lemma format_02X_byte_inj v v' :
  0 <= v <= 255 -> 0 <= v' <= 255 ->
  Hex.format_02X v = Hex.format_02X v' -> v = v'.
Proof.
  intros Hv Hv' E. rewrite !format_02X_byte in E by assumption.
  injection E as E1 E2.
  assert (Hq : 0 <= v / 16 <= 15)
    by (split; [apply Z.div_pos; lia | apply Z.lt_succ_r, Z.div_lt_upper_bound; lia]).
  assert (Hq' : 0 <= v' / 16 <= 15)
    by (split; [apply Z.div_pos; lia | apply Z.lt_succ_r, Z.div_lt_upper_bound; lia]).
  pose proof (Z.mod_pos_bound v 16 ltac:(lia)) as Hm.
  pose proof (Z.mod_pos_bound v' 16 ltac:(lia)) as Hm'.
  apply hex_digit_inj in E1; [|assumption|assumption].
  apply hex_digit_inj in E2; [|lia|lia].
  rewrite (Z.div_mod v 16), (Z.div_mod v' 16) by lia. lia.
Qed.

(** ** The palette loop *)

Lemma palette_colors_length palette i n l :
  palette_colors palette i n = Some l -> length l = n.
Proof.
  revert i l. induction n as [|n IH]; intros i l Hl; simpl in Hl.
  - injection Hl as <-. reflexivity.
  - destruct (palette !! (i * 3)%nat); [|discriminate].
    destruct (palette !! (i * 3 + 1)%nat); [|discriminate].
    destruct (palette !! (i * 3 + 2)%nat); [|discriminate].
    destruct (palette_colors palette (S i) n) as [rest|] eqn:Hrest; [|discriminate].
    injection Hl as <-. simpl. f_equal. eapply IH. eassumption.
Qed.

Lemma palette_colors_lookup palette i n l k :
  palette_colors palette i n = Some l ->
  (k < n)%nat ->
  exists r g b,
    l !! k = Some (r, g, b) /\
    palette !! ((i + k) * 3)%nat = Some r /\
    palette !! ((i + k) * 3 + 1)%nat = Some g /\
    palette !! ((i + k) * 3 + 2)%nat = Some b.
Proof.
  revert i l k. induction n as [|n IH]; intros i l k Hl Hk; [lia|].
  simpl in Hl.
  destruct (palette !! (i * 3)%nat) as [r|] eqn:Hr; [|discriminate].
  destruct (palette !! (i * 3 + 1)%nat) as [g|] eqn:Hg; [|discriminate].
  destruct (palette !! (i * 3 + 2)%nat) as [b|] eqn:Hb; [|discriminate].
  destruct (palette_colors palette (S i) n) as [rest|] eqn:Hrest; [|discriminate].
  injection Hl as <-. destruct k as [|k].
  - exists r, g, b. rewrite Nat.add_0_r. repeat split; assumption.
  - destruct (IH (S i) rest k Hrest ltac:(lia)) as (r' & g' & b' & Hk' & Hr' & Hg' & Hb').
    exists r', g', b'. replace (i + S k)%nat with (S i + k)%nat by lia.
    repeat split; assumption.
Qed.

Lemma palette_colors_enough palette i n :
  ((i + n) * 3 <= length palette)%nat ->
  exists l, palette_colors palette i n = Some l.
Proof.
  revert i. induction n as [|n IH]; intros i Hlen; [eexists; reflexivity|].
  cbn [palette_colors].
  assert (H0 : (i * 3 < length palette)%nat) by lia.
  assert (H1 : (i * 3 + 1 < length palette)%nat) by lia.
  assert (H2 : (i * 3 + 2 < length palette)%nat) by lia.
  destruct (lookup_lt_is_Some_2 _ _ H0) as [r ->].
  destruct (lookup_lt_is_Some_2 _ _ H1) as [g ->].
  destruct (lookup_lt_is_Some_2 _ _ H2) as [b ->].
  destruct (IH (S i)) as [rest ->]; [lia|].
  eexists. reflexivity.
Qed.

Lemma palette_colors_short palette i n :
  (length palette < (i + n) * 3)%nat ->
  (0 < n)%nat ->
  palette_colors palette i n = None.
Proof.
  revert i. induction n as [|n IH]; intros i Hlen Hn; [lia|].
  cbn [palette_colors].
  destruct (palette !! (i * 3)%nat) as [r|] eqn:Hr; [|reflexivity].
  destruct (palette !! (i * 3 + 1)%nat) as [g|] eqn:Hg; [|reflexivity].
  destruct (palette !! (i * 3 + 2)%nat) as [b|] eqn:Hb; [|reflexivity].
  apply lookup_lt_Some in Hb.
  rewrite IH by lia. reflexivity.
Qed.

(** ** Runs of [extract_dominant_colors] *)

Section ExtractColorsRuns.
Context `{Codec} `{Codec2}.

Lemma colors_to_rgb_run img im w :
  heap w !! img = Some im ->
  exists r ext,
    colors_to_rgb img w = (Ok r, with_heap w (heap w ++ ext)) /\
    (heap w ++ ext) !! r = Some (retail_working_image im).
Proof.
  intros Hr. unfold colors_to_rgb, retail_working_image.
  erewrite bind_ok by (apply deref_run; eassumption).
  destruct (mode im) eqn:Hm; simpl.
  all: try (exists (length (heap w)), [convert_rgb im];
            unfold Image_convert_RGB;
            erewrite bind_ok by (apply deref_run; eassumption);
            split; [reflexivity | apply list_lookup_middle; reflexivity]).
  - exists img, []. rewrite app_nil_r. unfold ret, with_heap.
    destruct w; simpl in *. split; [reflexivity | assumption].
  - exists (length (heap w)), (flatten_image im :: split_image im).
    rewrite (flatten_on_white_run _ im) by assumption.
    split; [reflexivity | apply list_lookup_middle; reflexivity].
Qed.

Lemma lift_colors_to_rgb_run img im w :
  xheap w !! img = Some im ->
  exists r ext,
    lift (colors_to_rgb img) w
      = (Ok r, {| xheap := xheap w ++ ext; xfs := xfs w; xout := xout w |}) /\
    (xheap w ++ ext) !! r = Some (retail_working_image im).
Proof.
  intros Hr.
  destruct (colors_to_rgb_run img im (narrow w) Hr) as (r & ext & Hrun & Hwim).
  exists r, ext. split; [|exact Hwim].
  rewrite (lift_run _ _ _ _ Hrun). unfold widen, with_heap.
  cbn. rewrite app_nil_r. reflexivity.
Qed.

(** The [try] block on a file that decodes. *)
Lemma extract_colors_try_block_decoded path n data im w :
  xfs w !! path = Some data ->
  image_open data = inl im ->
  let wim := retail_working_image im in
  exists ext,
    extract_colors_try_block path n w
      = match quantize_palette wim n with
        | inr e =>
            (Raise e, {| xheap := xheap w ++ ext; xfs := xfs w;
                         xout := xout w ++ [XQuantize wim n] |})
        | inl palette =>
            match palette_colors palette 0 (Z.to_nat n) with
            | None =>
                (Raise "list index out of range"%string,
                 {| xheap := xheap w ++ ext; xfs := xfs w;
                    xout := xout w ++ [XQuantize wim n] |})
            | Some cols =>
                (Ok (map Hex.color cols),
                 {| xheap := xheap w ++ ext; xfs := xfs w;
                    xout := xout w ++ [XQuantize wim n;
                                       XLog (Colors_ok n (map Hex.color cols))] |})
            end
        end.
Proof.
  intros Hfile Hopen wim. unfold extract_colors_try_block.
  erewrite xbind_ok by (eapply xopen_file_run; eassumption).
  set (w1 := {| xheap := xheap w ++ [im]; xfs := xfs w; xout := xout w |}).
  assert (Himg : xheap w1 !! length (xheap w) = Some im)
    by (apply list_lookup_middle; reflexivity).
  destruct (lift_colors_to_rgb_run _ _ _ Himg) as (r & ext & Hrun & Hwim).
  erewrite xbind_ok by exact Hrun.
  erewrite xbind_ok by (apply xderef_run; exact Hwim).
  erewrite xbind_ok by reflexivity.
  exists ([im] ++ ext). fold wim. cbn [xheap xfs xout w1].
  rewrite <- !app_assoc.
  destruct (quantize_palette wim n) as [palette|e]; [|reflexivity].
  destruct (palette_colors palette 0 (Z.to_nat n)) as [cols|]; [|reflexivity].
  cbv zeta. erewrite xbind_ok by apply xlog_run.
  unfold xret, xwith_out. cbn [xheap xfs xout]. rewrite <- app_assoc.
  reflexivity.
Qed.

(** Every run of [extract_dominant_colors], by what stops the [try] block. *)
Lemma extract_dominant_colors_run path n w :
  exists res ext tr,
    extract_dominant_colors path n w
      = (Ok res, {| xheap := xheap w ++ ext; xfs := xfs w; xout := xout w ++ tr |}) /\
    ((xfs w !! path = None /\ res = fallback_palette /\
      tr = [XLog (Colors_failed "No such file or directory")])
     \/ (exists data e,
           xfs w !! path = Some data /\ image_open data = inr e /\
           res = fallback_palette /\ tr = [XLog (Colors_failed e)])
     \/ (exists data im,
           xfs w !! path = Some data /\ image_open data = inl im /\
           let wim := retail_working_image im in
           ((exists e,
               quantize_palette wim n = inr e /\ res = fallback_palette /\
               tr = [XQuantize wim n; XLog (Colors_failed e)])
            \/ (exists palette,
                  quantize_palette wim n = inl palette /\
                  palette_colors palette 0 (Z.to_nat n) = None /\
                  res = fallback_palette /\
                  tr = [XQuantize wim n;
                        XLog (Colors_failed "list index out of range")])
            \/ (exists palette cols,
                  quantize_palette wim n = inl palette /\
                  palette_colors palette 0 (Z.to_nat n) = Some cols /\
                  res = map Hex.color cols /\
                  tr = [XQuantize wim n; XLog (Colors_ok n res)])))).
Proof.
  unfold extract_dominant_colors.
  destruct (xfs w !! path) as [data|] eqn:Hfile.
  - destruct (image_open data) as [im|e] eqn:Hopen.
    + destruct (extract_colors_try_block_decoded path n data im w Hfile Hopen)
        as (ext & Hrun).
      cbv zeta in Hrun.
      destruct (quantize_palette (retail_working_image im) n)
        as [palette|e] eqn:Hq.
      * destruct (palette_colors palette 0 (Z.to_nat n)) as [cols|] eqn:Hp.
        -- exists (map Hex.color cols), ext,
             [XQuantize (retail_working_image im) n;
              XLog (Colors_ok n (map Hex.color cols))].
           split; [erewrite xtry_except_ok by exact Hrun; reflexivity|].
           right; right. exists data, im.
           do 2 (split; [first [reflexivity | assumption]|]). cbv zeta.
           right; right. exists palette, cols. repeat split; assumption.
        -- exists fallback_palette, ext,
             [XQuantize (retail_working_image im) n;
              XLog (Colors_failed "list index out of range")].
           split.
           { erewrite xtry_except_raise by exact Hrun.
             erewrite xbind_ok by apply xlog_run.
             unfold xret, xwith_out. cbn [xheap xfs xout].
             rewrite <- app_assoc. reflexivity. }
           right; right. exists data, im.
           do 2 (split; [first [reflexivity | assumption]|]). cbv zeta.
           right; left. exists palette. repeat split; assumption.
      * exists fallback_palette, ext,
          [XQuantize (retail_working_image im) n; XLog (Colors_failed e)].
        split.
        { erewrite xtry_except_raise by exact Hrun.
          erewrite xbind_ok by apply xlog_run.
          unfold xret, xwith_out. cbn [xheap xfs xout].
          rewrite <- app_assoc. reflexivity. }
        right; right. exists data, im.
           do 2 (split; [first [reflexivity | assumption]|]). cbv zeta.
        left. exists e. repeat split; assumption.
    + exists fallback_palette, [], [XLog (Colors_failed e)].
      split.
      { erewrite xtry_except_raise.
        2:{ unfold extract_colors_try_block. eapply xbind_raise.
            unfold xopen_file, xopen_bytes. rewrite Hfile, Hopen. reflexivity. }
        erewrite xbind_ok by apply xlog_run.
        unfold xret, xwith_out. rewrite app_nil_r. reflexivity. }
      right; left. exists data, e. repeat split; first [reflexivity | assumption].
  - exists fallback_palette, [],
      [XLog (Colors_failed "No such file or directory")].
    split.
    { erewrite xtry_except_raise.
      2:{ unfold extract_colors_try_block. eapply xbind_raise.
          unfold xopen_file. rewrite Hfile. reflexivity. }
      erewrite xbind_ok by apply xlog_run.
      unfold xret, xwith_out. rewrite app_nil_r. reflexivity. }
    left. repeat split.
Qed.

End ExtractColorsRuns.

(** ** Hex codes of byte triples *)

Lemma hex_color_bytes r g b :
  is_byte r -> is_byte g -> is_byte b ->
  Hex.color (r, g, b)
    = String.append "#"
        (string_of_list_ascii
           [Hex.digit (r / 16); Hex.digit (r mod 16);
            Hex.digit (g / 16); Hex.digit (g mod 16);
            Hex.digit (b / 16); Hex.digit (b mod 16)]).
Proof.
  intros Hr Hg Hb. unfold Hex.color.
  rewrite !format_02X_byte by assumption. reflexivity.
Qed.

Lemma palette_colors_bytes palette i n l :
  Forall is_byte palette ->
  palette_colors palette i n = Some l ->
  Forall (fun rgb => is_byte rgb.1.1 /\ is_byte rgb.1.2 /\ is_byte rgb.2) l.
Proof.
  intros Hp. revert i l. induction n as [|n IH]; intros i l Hl; simpl in Hl.
  - injection Hl as <-. constructor.
  - destruct (palette !! (i * 3)%nat) as [r|] eqn:Hr; [|discriminate].
    destruct (palette !! (i * 3 + 1)%nat) as [g|] eqn:Hg; [|discriminate].
    destruct (palette !! (i * 3 + 2)%nat) as [b|] eqn:Hb; [|discriminate].
    destruct (palette_colors palette (S i) n) as [rest|] eqn:Hrest; [|discriminate].
    injection Hl as <-. constructor.
    + cbn. split; [|split].
      * exact (Forall_lookup_1 _ _ _ _ Hp Hr).
      * exact (Forall_lookup_1 _ _ _ _ Hp Hg).
      * exact (Forall_lookup_1 _ _ _ _ Hp Hb).
    + eapply IH; eassumption.
Qed.

Lemma fallback_palette_shape :
  Forall (fun s => String.length s = 7%nat /\ PyStr.startswith s "#" = true)
    fallback_palette.
Proof. repeat constructor. Qed.

(** ** Properties of [extract_dominant_colors] *)

(** X9: [extract_dominant_colors] always answers.  Whatever the path, the
    number of colors and the codec do, the call returns a list and raises
    nothing; it writes no file and encodes nothing.  The list is either the
    fixed palette of four colors, after a logged failure, or has exactly
    [num_colors] entries (none when [num_colors] is negative), after the
    success line.  A missing file gives the fixed palette. *)
Theorem X9_extract_colors_always_answers `{Codec} `{Codec2} path n w :
  exists res ext tr,
    extract_dominant_colors path n w
      = (Ok res, {| xheap := xheap w ++ ext; xfs := xfs w; xout := xout w ++ tr |}) /\
    xbase tr = [] /\ xwebp_encodes tr = [] /\
    ((exists e, res = fallback_palette /\ last tr = Some (XLog (Colors_failed e)))
     \/ (length res = Z.to_nat n /\ last tr = Some (XLog (Colors_ok n res)))) /\
    (xfs w !! path = None -> res = fallback_palette).
Proof.
  destruct (extract_dominant_colors_run path n w) as (res & ext & tr & Hrun & Hcases).
  exists res, ext, tr. split; [exact Hrun|].
  assert (Hfb : forall e0 pre,
            xbase pre = [] -> xwebp_encodes pre = [] ->
            res = fallback_palette -> tr = pre ++ [XLog (Colors_failed e0)] ->
            xbase tr = [] /\ xwebp_encodes tr = [] /\
            ((exists e, res = fallback_palette /\
                        last tr = Some (XLog (Colors_failed e)))
             \/ (length res = Z.to_nat n /\
                 last tr = Some (XLog (Colors_ok n res)))) /\
            (xfs w !! path = None -> res = fallback_palette)).
  { intros e0 pre Hb Hw -> ->.
    rewrite xbase_app, xwebp_encodes_app, Hb, Hw.
    split; [reflexivity|]. split; [reflexivity|].
    split; [|intros _; reflexivity].
    left. exists e0. split; [reflexivity|]. apply last_snoc. }
  destruct Hcases as [(Hnone & Hres & Htr) | [(data & e & Hfile & Hopen & Hres & Htr)
    | (data & im & Hfile & Hopen & Hq)]].
  - apply (Hfb "No such file or directory"%string []);
      try reflexivity; assumption.
  - apply (Hfb e []); try reflexivity; assumption.
  - cbv zeta in Hq.
    destruct Hq as [(e & _ & Hres & Htr) | [(palette & _ & _ & Hres & Htr)
      | (palette & cols & _ & Hp & Hres & Htr)]].
    + apply (Hfb e [XQuantize (retail_working_image im) n]);
        try reflexivity; assumption.
    + apply (Hfb "list index out of range"%string
               [XQuantize (retail_working_image im) n]);
        try reflexivity; assumption.
    + subst tr. split; [reflexivity|]. split; [reflexivity|]. split.
      * right. split; [|reflexivity]. subst res.
        rewrite length_map. eapply palette_colors_length; exact Hp.
      * intros Hnone. rewrite Hnone in Hfile. discriminate.
Qed.

(** X10: the colors come from the head of the palette.  When the file
    decodes and the quantizer returns a palette with at least
    [3 * num_colors] entries, the image handed to the quantizer is the RGB
    working image (an RGBA image flattened on white, any other non-RGB mode
    converted), and the result has [num_colors] entries, the k-th being the
    hex code of the palette entries 3k, 3k+1, 3k+2. *)
Theorem X10_extract_colors_from_palette `{Codec} `{Codec2}
    path n data im palette w :
  xfs w !! path = Some data ->
  image_open data = inl im ->
  let wim := retail_working_image im in
  quantize_palette wim n = inl palette ->
  (Z.to_nat n * 3 <= length palette)%nat ->
  exists res ext,
    extract_dominant_colors path n w
      = (Ok res, {| xheap := xheap w ++ ext; xfs := xfs w;
                    xout := xout w ++ [XQuantize wim n; XLog (Colors_ok n res)] |}) /\
    mode wim = RGB /\
    length res = Z.to_nat n /\
    (forall k, (k < Z.to_nat n)%nat ->
       exists r g b,
         palette !! (k * 3)%nat = Some r /\
         palette !! (k * 3 + 1)%nat = Some g /\
         palette !! (k * 3 + 2)%nat = Some b /\
         res !! k = Some (Hex.color (r, g, b))).
Proof.
  intros Hfile Hopen wim Hq Hlen.
  destruct (palette_colors_enough palette 0 (Z.to_nat n) Hlen) as [cols Hcols].
  destruct (extract_colors_try_block_decoded path n data im w Hfile Hopen)
    as (ext & Hrun).
  cbv zeta in Hrun. fold wim in Hrun. rewrite Hq, Hcols in Hrun.
  exists (map Hex.color cols), ext.
  split; [unfold extract_dominant_colors; erewrite xtry_except_ok by exact Hrun;
          reflexivity|].
  split; [apply retail_working_image_mode|].
  split; [rewrite length_map; eapply palette_colors_length; exact Hcols|].
  intros k Hk.
  destruct (palette_colors_lookup palette 0 (Z.to_nat n) cols k Hcols Hk)
    as (r & g & b & Hlk & Hr & Hg & Hb).
  exists r, g, b. repeat split; try assumption.
  rewrite list_lookup_fmap, Hlk. reflexivity.
Qed.

Lemma X10_extract_colors_from_palette_witness :
  let C := Model.codec (Model.enc_const 100) (Model.dec_const Model.rgba_2x1) in
  let C2 := Model2.codec2 (Model2.webp_const 100) (Model2.png_const 100)
              Model2.quant_first_pixels in
  let w := Model2.xworld_with_file "logo.png" (Model.zeros 10) in
  exists w',
    @extract_dominant_colors C C2 "logo.png" 2 w
      = (Ok ["#FFFFFF"; "#28323C"]%string, w').
Proof.
  intros C C2 w.
  destruct (@X10_extract_colors_from_palette C C2 "logo.png" 2
              (Model.zeros 10) Model.rgba_2x1
              ([255; 255; 255; 40; 50; 60] ++ repeat 0 762) w)
    as (res & ext & Hrun & _ & Hlen & Hk).
  - apply lookup_singleton_eq.
  - reflexivity.
  - vm_compute. reflexivity.
  - vm_compute. lia.
  - destruct res as [|c0 [|c1 [|c2 res]]]; try discriminate.
    destruct (Hk 0%nat ltac:(vm_compute; lia)) as (r0 & g0 & b0 & E0 & E1 & E2 & Ec0).
    destruct (Hk 1%nat ltac:(vm_compute; lia)) as (r1 & g1 & b1 & F0 & F1 & F2 & Ec1).
    cbn in E0, E1, E2, F0, F1, F2, Ec0, Ec1.
    injection E0 as <-. injection E1 as <-. injection E2 as <-.
    injection F0 as <-. injection F1 as <-. injection F2 as <-.
    injection Ec0 as ->. injection Ec1 as ->.
    eexists. exact Hrun.
Defined.

(** X11: a palette that is too short gives the fixed colors.  When the
    quantizer returns fewer than [3 * num_colors] palette entries, the loop
    over the palette runs off its end and the call returns the fixed palette
    of four colors, none of them taken from the image, whatever number of
    colors was asked for. *)
Theorem X11_extract_colors_short_palette `{Codec} `{Codec2}
    path n data im palette w :
  xfs w !! path = Some data ->
  image_open data = inl im ->
  let wim := retail_working_image im in
  quantize_palette wim n = inl palette ->
  (length palette < Z.to_nat n * 3)%nat ->
  exists ext,
    extract_dominant_colors path n w
      = (Ok fallback_palette,
         {| xheap := xheap w ++ ext; xfs := xfs w;
            xout := xout w ++ [XQuantize wim n;
                               XLog (Colors_failed "list index out of range")] |}) /\
    length fallback_palette = 4%nat.
Proof.
  intros Hfile Hopen wim Hq Hlen.
  assert (Hnone : palette_colors palette 0 (Z.to_nat n) = None)
    by (apply palette_colors_short; lia).
  destruct (extract_colors_try_block_decoded path n data im w Hfile Hopen)
    as (ext & Hrun).
  cbv zeta in Hrun. fold wim in Hrun. rewrite Hq, Hnone in Hrun.
  exists ext. split; [|reflexivity].
  unfold extract_dominant_colors. erewrite xtry_except_raise by exact Hrun.
  erewrite xbind_ok by apply xlog_run.
  unfold xret, xwith_out. cbn [xheap xfs xout]. rewrite <- app_assoc.
  reflexivity.
Qed.

Lemma X11_extract_colors_short_palette_witness :
  let C := Model.codec (Model.enc_const 100) (Model.dec_const Model.rgb_2x1) in
  let C2 := Model2.codec2 (Model2.webp_const 100) (Model2.png_const 100)
              Model2.quant_trimmed in
  let w := Model2.xworld_with_file "logo.png" (Model.zeros 10) in
  exists w',
    @extract_dominant_colors C C2 "logo.png" 4 w
      = (Ok ["#FF6B6B"; "#4ECDC4"; "#45B7D1"; "#FFA07A"]%string, w').
Proof.
  intros C C2 w.
  destruct (@X11_extract_colors_short_palette C C2 "logo.png" 4
              (Model.zeros 10) Model.rgb_2x1 [10; 20; 30; 40; 50; 60] w)
    as (ext & Hrun & _).
  - apply lookup_singleton_eq.
  - reflexivity.
  - reflexivity.
  - vm_compute. lia.
  - eexists. exact Hrun.
Defined.

(** X12: the shape of the answer.  When the file decodes and the palette
    the quantizer returns holds bytes, every string of the answer, taken
    from the image or from the fixed palette, is a [#] followed by six
    characters. *)
Theorem X12_extract_colors_shape `{Codec} `{Codec2}
    path n data im palette w :
  xfs w !! path = Some data ->
  image_open data = inl im ->
  quantize_palette (retail_working_image im) n = inl palette ->
  Forall is_byte palette ->
  exists res w',
    extract_dominant_colors path n w = (Ok res, w') /\
    Forall (fun s => String.length s = 7%nat /\ PyStr.startswith s "#" = true) res.
Proof.
  intros Hfile Hopen Hq Hbytes.
  destruct (extract_dominant_colors_run path n w) as (res & ext & tr & Hrun & Hcases).
  exists res. eexists. split; [exact Hrun|].
  destruct Hcases as [(_ & -> & _) | [(_ & _ & _ & _ & -> & _)
    | (data' & im' & Hfile' & Hopen' & Hcase)]];
    try apply fallback_palette_shape.
  rewrite Hfile in Hfile'. injection Hfile' as <-.
  rewrite Hopen in Hopen'. injection Hopen' as <-.
  cbv zeta in Hcase.
  destruct Hcase as [(_ & _ & -> & _) | [(_ & _ & _ & -> & _)
    | (palette' & cols & Hq' & Hp & -> & _)]];
    try apply fallback_palette_shape.
  rewrite Hq in Hq'. injection Hq' as <-.
  pose proof (palette_colors_bytes _ _ _ _ Hbytes Hp) as Hcols.
  clear Hp Hrun. induction Hcols as [|[[r g] b] cols (Hr & Hg & Hb) _ IH];
    [constructor|].
  cbn [map]. constructor; [|exact IH].
  cbn in Hr, Hg, Hb. rewrite hex_color_bytes by assumption.
  split; reflexivity.
Qed.

Lemma X12_extract_colors_shape_witness :
  let C := Model.codec (Model.enc_const 100) (Model.dec_const Model.rgb_2x1) in
  let C2 := Model2.codec2 (Model2.webp_const 100) (Model2.png_const 100)
              Model2.quant_trimmed in
  let w := Model2.xworld_with_file "logo.png" (Model.zeros 10) in
  exists res w',
    @extract_dominant_colors C C2 "logo.png" 2 w = (Ok res, w') /\
    Forall (fun s => String.length s = 7%nat /\ PyStr.startswith s "#" = true) res.
Proof.
  intros C C2 w.
  apply (@X12_extract_colors_shape C C2 "logo.png" 2 (Model.zeros 10)
           Model.rgb_2x1 [10; 20; 30; 40; 50; 60] w).
  - apply lookup_singleton_eq.
  - reflexivity.
  - reflexivity.
  - unfold is_byte. repeat constructor; lia.
Defined.

(** X13: the hex code tells byte triples apart.  Two triples of bytes with
    the same hex code are the same triple, so equal strings in an answer
    taken from the image stand for equal palette colors. *)
Theorem X13_hex_color_injective r g b r' g' b' :
  is_byte r -> is_byte g -> is_byte b ->
  is_byte r' -> is_byte g' -> is_byte b' ->
  Hex.color (r, g, b) = Hex.color (r', g', b') ->
  (r, g, b) = (r', g', b').
Proof.
  intros Hr Hg Hb Hr' Hg' Hb' E.
  unfold Hex.color in E.
  pose proof (format_02X_byte r Hr) as Er. pose proof (format_02X_byte g Hg) as Eg.
  pose proof (format_02X_byte b Hb) as Eb.
  pose proof (format_02X_byte r' Hr') as Er'.
  pose proof (format_02X_byte g' Hg') as Eg'.
  pose proof (format_02X_byte b' Hb') as Eb'.
  rewrite Er, Eg, Eb, Er', Eg', Eb' in E. cbn [String.append] in E.
  injection E as E1 E2 E3 E4 E5 E6.
  assert (r = r')
    by (apply format_02X_byte_inj; try assumption;
        rewrite Er, Er', E1, E2; reflexivity).
  assert (g = g')
    by (apply format_02X_byte_inj; try assumption;
        rewrite Eg, Eg', E3, E4; reflexivity).
  assert (b = b')
    by (apply format_02X_byte_inj; try assumption;
        rewrite Eb, Eb', E5, E6; reflexivity).
  subst. reflexivity.
Qed.

Lemma X13_hex_color_injective_witness :
  Hex.color (255, 107, 107) = Hex.color (255, 100 + 7, 107) /\
  (255, 107, 107) = (255, 100 + 7, 107).
Proof.
  split; [reflexivity|].
  apply X13_hex_color_injective; unfold is_byte; try lia. reflexivity.
Defined.

(** ** numpy slices *)

Lemma slice_bound_le i n : (Np.slice_bound i n <= n)%nat.
Proof. unfold Np.slice_bound. destruct (i <? 0) eqn:E; lia. Qed.

Ltac slice_bounds :=
  unfold Np.slice_bound;
  repeat match goal with
         | |- context [?a <? ?b] => destruct (Z.ltb_spec a b)
         end;
  try lia.

Lemma slice_length {A} lo hi (a : list A) :
  length (Np.slice lo hi a)
    = (Np.slice_bound hi (length a) - Np.slice_bound lo (length a))%nat.
Proof.
  unfold Np.slice. rewrite length_take, length_drop.
  pose proof (slice_bound_le hi (length a)). lia.
Qed.

Lemma slice_map {A B} (f : A -> B) lo hi (a : list A) :
  Np.slice lo hi (map f a) = map f (Np.slice lo hi a).
Proof.
  unfold Np.slice. rewrite length_map.
  change (map f) with (fmap (M:=list) f). rewrite fmap_take, fmap_drop.
  reflexivity.
Qed.

Lemma slice_Forall {A} (P : A -> Prop) lo hi (a : list A) :
  Forall P a -> Forall P (Np.slice lo hi a).
Proof. intros Ha. unfold Np.slice. apply Forall_take, Forall_drop, Ha. Qed.

(** A slice of an axis of at most ten entries, between 10 and 30 from
    either end, is empty. *)
Lemma slice_head_short {A} (a : list A) :
  (length a <= 10)%nat -> Np.slice 10 30 a = [].
Proof.
  intros Hn. apply length_zero_iff_nil. rewrite slice_length.
  slice_bounds.
Qed.

Lemma slice_tail_short {A} (a : list A) :
  (length a <= 10)%nat -> Np.slice (-30) (-10) a = [].
Proof.
  intros Hn. apply length_zero_iff_nil. rewrite slice_length.
  slice_bounds.
Qed.

Lemma slice_head_long {A} (a : list A) :
  (10 < length a)%nat -> (0 < length (Np.slice 10 30 a))%nat.
Proof.
  intros Hn. rewrite slice_length. slice_bounds.
Qed.

Lemma slice2_map {A B} (f : A -> B) rlo rhi clo chi (a : list (list A)) :
  Np.slice2 rlo rhi clo chi (map (map f) a)
    = map (map f) (Np.slice2 rlo rhi clo chi a).
Proof.
  unfold Np.slice2. rewrite slice_map, !map_map.
  apply map_ext. intros row. apply slice_map.
Qed.

Lemma slice2_Forall {A} (P : A -> Prop) rlo rhi clo chi (a : list (list A)) :
  Forall (Forall P) a -> Forall (Forall P) (Np.slice2 rlo rhi clo chi a).
Proof.
  intros Ha. unfold Np.slice2. apply Forall_fmap.
  eapply Forall_impl; [apply slice_Forall, Ha|].
  intros row Hrow. apply slice_Forall, Hrow.
Qed.

Lemma rows_map (f : pixel -> pixel) h w d :
  Np.rows h w (map f d) = map (map f) (Np.rows h w d).
Proof.
  revert d. induction h as [|h IH]; intros d; [reflexivity|].
  cbn [Np.rows map]. change (map f) with (fmap (M:=list) f).
  rewrite <- fmap_take, <- fmap_drop. f_equal. apply IH.
Qed.

Lemma rows_Forall2 (R : pixel -> pixel -> Prop) h w d1 d2 :
  Forall2 R d1 d2 -> Forall2 (Forall2 R) (Np.rows h w d1) (Np.rows h w d2).
Proof.
  revert d1 d2. induction h as [|h IH]; intros d1 d2 Hd; [constructor|].
  cbn [Np.rows]. constructor.
  - apply Forall2_take, Hd.
  - apply IH, Forall2_drop, Hd.
Qed.

Lemma rows_Forall (P : pixel -> Prop) h w d :
  Forall P d -> Forall (Forall P) (Np.rows h w d).
Proof.
  revert d. induction h as [|h IH]; intros d Hd; [constructor|].
  cbn [Np.rows]. constructor.
  - apply Forall_take, Hd.
  - apply IH, Forall_drop, Hd.
Qed.

Lemma rows_length h w d : length (Np.rows h w d) = h.
Proof.
  revert d. induction h as [|h IH]; intros d; [reflexivity|].
  cbn [Np.rows length]. rewrite IH. reflexivity.
Qed.

(** The rows of a well-formed image have its width, and put together they
    are its data. *)
Lemma rows_widths h w d :
  length d = (h * w)%nat -> Forall (fun row => length row = w) (Np.rows h w d).
Proof.
  revert d. induction h as [|h IH]; intros d Hd; [constructor|].
  cbn [Np.rows]. constructor.
  - rewrite length_take. lia.
  - apply IH. rewrite length_drop. lia.
Qed.

Lemma concat_rows h w d :
  length d = (h * w)%nat -> concat (Np.rows h w d) = d.
Proof.
  revert d. induction h as [|h IH]; intros d Hd.
  - destruct d; [reflexivity | discriminate].
  - cbn [Np.rows concat]. rewrite IH by (rewrite length_drop; lia).
    apply take_drop.
Qed.

Lemma rows_widths_le h w d :
  Forall (fun row : list pixel => (length row <= w)%nat) (Np.rows h w d).
Proof.
  revert d. induction h as [|h IH]; intros d; [constructor|].
  cbn [Np.rows]. constructor; [rewrite length_take; lia | apply IH].
Qed.

Lemma concat_nils {A} (l : list (list A)) :
  Forall (fun x => x = []) l -> concat l = [].
Proof.
  induction 1 as [|x l -> _ IH]; [reflexivity|]. cbn. exact IH.
Qed.

(** ** The corner samples of [_detect_background_color] *)

Lemma corners_map (f : pixel -> pixel) arr :
  corners (map (map f) arr) = map (map (map f)) (corners arr).
Proof. unfold corners. cbn [map]. rewrite !slice2_map. reflexivity. Qed.

Lemma all_pixels_map (f : pixel -> pixel) arr :
  all_pixels (map (map f) arr) = map f (all_pixels arr).
Proof.
  unfold all_pixels. rewrite corners_map, map_map, concat_map, map_map.
  f_equal. apply map_ext. intros c. symmetry. apply concat_map.
Qed.

Lemma all_pixels_Forall (P : pixel -> Prop) arr :
  Forall (Forall P) arr -> Forall P (all_pixels arr).
Proof.
  intros Ha. unfold all_pixels, corners. cbn [map].
  apply Forall_concat. repeat constructor; apply Forall_concat, slice2_Forall, Ha.
Qed.

Lemma slice2_few_rows {A} clo chi (a : list (list A)) :
  (length a <= 10)%nat ->
  Np.slice2 10 30 clo chi a = [] /\ Np.slice2 (-30) (-10) clo chi a = [].
Proof.
  intros Hn. unfold Np.slice2.
  rewrite slice_head_short, slice_tail_short by assumption. split; reflexivity.
Qed.

Lemma slice2_narrow_rows {A} rlo rhi (a : list (list A)) :
  Forall (fun row => (length row <= 10)%nat) a ->
  concat (Np.slice2 rlo rhi 10 30 a) = [] /\
  concat (Np.slice2 rlo rhi (-30) (-10) a) = [].
Proof.
  intros Ha. unfold Np.slice2.
  split; apply concat_nils, Forall_fmap;
    (eapply Forall_impl; [apply slice_Forall, Ha|]); intros row Hrow; cbn.
  - apply slice_head_short, Hrow.
  - apply slice_tail_short, Hrow.
Qed.

Lemma all_pixels_small arr :
  (length arr <= 10)%nat \/ Forall (fun row => (length row <= 10)%nat) arr ->
  all_pixels arr = [].
Proof.
  intros [Hn | Hw]; unfold all_pixels, corners; cbn [map concat].
  - destruct (slice2_few_rows 10 30 arr Hn) as [-> ->].
    destruct (slice2_few_rows (-30) (-10) arr Hn) as [-> ->].
    reflexivity.
  - destruct (slice2_narrow_rows 10 30 arr Hw) as [-> ->].
    destruct (slice2_narrow_rows (-30) (-10) arr Hw) as [-> ->].
    reflexivity.
Qed.

Lemma all_pixels_nonempty arr :
  (10 < length arr)%nat ->
  Forall (fun row => (10 < length row)%nat) arr ->
  all_pixels arr <> [].
Proof.
  intros Hn Hw. unfold all_pixels, corners. cbn [map concat].
  unfold Np.slice2 at 1.
  pose proof (slice_head_long arr Hn) as Hrows.
  pose proof (slice_Forall _ 10 30 arr Hw) as Hsl.
  destruct (Np.slice 10 30 arr) as [|row rest]; [cbn in Hrows; lia|].
  apply Forall_cons in Hsl as [Hrow _].
  pose proof (slice_head_long row Hrow) as Hcols.
  cbn [map concat].
  destruct (Np.slice 10 30 row) as [|px pxs]; [cbn in Hcols; lia|].
  discriminate.
Qed.

(** ** Sums and means of a band *)

Lemma band_sum_bounds k (pxs : list pixel) lo hi :
  Forall (fun px => lo <= nth k px 0 <= hi) pxs ->
  lo * Z.of_nat (length pxs) <= Np.band_sum k pxs <= hi * Z.of_nat (length pxs).
Proof.
  unfold Np.band_sum. induction 1 as [|px pxs Hpx _ IH]; cbn [map fold_right length].
  - lia.
  - rewrite Nat2Z.inj_succ. lia.
Qed.

Lemma band_sum_const k (pxs : list pixel) c :
  Forall (fun px => nth k px 0 = c) pxs ->
  Np.band_sum k pxs = c * Z.of_nat (length pxs).
Proof.
  intros Hp. pose proof (band_sum_bounds k pxs c c) as Hb.
  assert (Forall (fun px => c <= nth k px 0 <= c) pxs)
    by (eapply Forall_impl; [exact Hp|]; intros px ->; lia).
  specialize (Hb ltac:(assumption)). lia.
Qed.

Lemma mean_as_int_bounds nan k (pxs : list pixel) lo hi :
  pxs <> [] -> 0 <= lo ->
  Forall (fun px => lo <= nth k px 0 <= hi) pxs ->
  lo <= mean_as_int nan k pxs <= hi.
Proof.
  intros Hne Hlo Hp. pose proof (band_sum_bounds k pxs lo hi Hp) as Hb.
  unfold mean_as_int. destruct pxs as [|px pxs]; [congruence|].
  set (l := px :: pxs) in *.
  assert (Hn : 0 < Z.of_nat (length l)) by (unfold l; cbn [length]; lia).
  clearbody l.
  assert (Hpos : 0 <= lo * Z.of_nat (length l))
    by (apply Z.mul_nonneg_nonneg; lia).
  rewrite Z.quot_div_nonneg by lia.
  split.
  - apply Z.div_le_lower_bound; lia.
  - apply Z.div_le_upper_bound; lia.
Qed.

Lemma mean_as_int_const nan k (pxs : list pixel) c :
  pxs <> [] ->
  Forall (fun px => nth k px 0 = c) pxs ->
  mean_as_int nan k pxs = c.
Proof.
  intros Hne Hp. unfold mean_as_int. destruct pxs as [|px pxs]; [congruence|].
  rewrite (band_sum_const k _ c Hp).
  apply Z.quot_mul. cbn [length]. lia.
Qed.

Lemma nth_take3 k (px : pixel) :
  (k < 3)%nat -> nth k (take 3 px) 0 = nth k px 0.
Proof.
  intros Hk. destruct px as [|a [|b [|c px]]];
    destruct k as [|[|[|k]]]; try reflexivity; lia.
Qed.

Lemma nth_is_byte k (px : pixel) : Forall is_byte px -> is_byte (nth k px 0).
Proof.
  intros Hpx. revert k. induction Hpx as [|v px Hv _ IH]; intros k.
  - destruct k; unfold is_byte; cbn; lia.
  - destruct k; [exact Hv | apply IH].
Qed.

Lemma color_distance_sq_take3 (px : pixel) bg :
  color_distance_sq (take 3 px) bg = color_distance_sq px bg.
Proof.
  destruct bg as [[r g] b]. unfold color_distance_sq.
  rewrite !nth_take3 by lia. reflexivity.
Qed.

Lemma where_mask_take3 arr bg :
  where_mask (map (map (take 3)) arr) bg = where_mask arr bg.
Proof.
  unfold where_mask. rewrite map_map. apply map_ext. intros row.
  rewrite map_map. apply map_ext. intros px.
  rewrite color_distance_sq_take3. reflexivity.
Qed.

Lemma where_mask_shape arr bg :
  map length (where_mask arr bg) = map length arr.
Proof.
  unfold where_mask. rewrite map_map. apply map_ext. intros row.
  apply length_map.
Qed.

Lemma detect_background_color_take3 nan arr :
  _detect_background_color nan (map (map (take 3)) arr)
    = _detect_background_color nan arr.
Proof.
  unfold _detect_background_color. rewrite all_pixels_map, map_map.
  assert (E : map (fun px : pixel => take 3 (take 3 px)) (all_pixels arr)
              = map (take 3) (all_pixels arr))
    by (apply map_ext; intros px; rewrite take_take; reflexivity).
  rewrite E. reflexivity.
Qed.

Lemma same_rgb_take3_rows (a1 a2 : Np.array3) :
  Forall2 (Forall2 same_rgb) a1 a2 ->
  map (map (take 3)) a1 = map (map (take 3)) a2.
Proof.
  induction 1 as [|r1 r2 a1 a2 Hr _ IH]; [reflexivity|].
  cbn [map]. f_equal; [|exact IH].
  clear IH. induction Hr as [|p q r1 r2 Hpq _ IH]; [reflexivity|].
  cbn [map]. f_equal; [|exact IH].
  destruct Hpq as (r & g & b & a & a' & -> & ->). reflexivity.
Qed.

Lemma same_rgb_set_alpha (a1 a2 : Np.array3) mask :
  Forall2 (Forall2 same_rgb) a1 a2 ->
  set_alpha a1 mask = set_alpha a2 mask.
Proof.
  intros Ha. revert mask.
  induction Ha as [|r1 r2 a1 a2 Hr _ IH]; intros mask; [reflexivity|].
  destruct mask as [|mr mask]; [reflexivity|].
  unfold set_alpha in *. cbn [zip_with]. f_equal; [|apply IH].
  clear IH. revert mr. induction Hr as [|p q r1 r2 Hpq _ IH]; intros mr;
    [reflexivity|].
  destruct mr as [|v mr]; [reflexivity|].
  cbn [zip_with]. f_equal; [|apply IH].
  destruct Hpq as (r & g & b & a & a' & -> & ->). reflexivity.
Qed.

Lemma set_alpha_keeps_rgb (arr : Np.array3) mask :
  map length mask = map length arr ->
  map (map (take 3)) (set_alpha arr mask) = map (map (take 3)) arr.
Proof.
  revert mask. induction arr as [|row arr IH]; intros mask Hshape.
  - destruct mask; reflexivity.
  - destruct mask as [|mr mask]; [discriminate|].
    injection Hshape as Hrow Hrest.
    unfold set_alpha in *. cbn [zip_with map]. f_equal; [|apply IH, Hrest].
    clear IH Hrest. revert mr Hrow.
    induction row as [|px row IH]; intros mr Hrow.
    + destruct mr; reflexivity.
    + destruct mr as [|v mr]; [discriminate|]. injection Hrow as Hrow.
      cbn [zip_with map]. f_equal; [|apply IH, Hrow].
      apply take_insert_ge. lia.
Qed.

Lemma set_alpha_shape (arr : Np.array3) mask :
  map length mask = map length arr ->
  map length (set_alpha arr mask) = map length arr.
Proof.
  revert mask. induction arr as [|row arr IH]; intros mask Hshape.
  - destruct mask; reflexivity.
  - destruct mask as [|mr mask]; [discriminate|].
    injection Hshape as Hrow Hrest.
    unfold set_alpha in *. cbn [zip_with map]. f_equal; [|apply IH, Hrest].
    rewrite length_zip_with. lia.
Qed.

(** ** Properties of the placeholder background removal *)

(** X14: an image at most ten pixels high or wide has no background
    sample.  The four corner windows of [_detect_background_color] lie
    between 10 and 30 pixels from the borders, so on such an image they are
    all empty: no pixel is read, and the color returned is three times what
    the platform makes of the cast of [nan] to an integer. *)
Theorem X14_detect_background_small_image nan (im : Image) :
  height im <= 10 \/ width im <= 10 ->
  all_pixels (Np.array im) = [] /\
  _detect_background_color nan (Np.array im) = (nan, nan, nan).
Proof.
  intros Hsmall.
  assert (Hnone : all_pixels (Np.array im) = []).
  { apply all_pixels_small. unfold Np.array.
    destruct Hsmall as [Hh | Hw].
    - left. rewrite rows_length. lia.
    - right. eapply Forall_impl; [apply rows_widths_le|].
      intros row Hrow. cbn in Hrow. lia. }
  split; [exact Hnone|].
  unfold _detect_background_color. rewrite Hnone. reflexivity.
Qed.

Lemma X14_detect_background_small_image_witness :
  all_pixels (Np.array Model.rgba_2x1) = [] /\
  _detect_background_color Model3.nan_x86 (Np.array Model.rgba_2x1)
    = (- 2 ^ 63, - 2 ^ 63, - 2 ^ 63).
Proof.
  apply (X14_detect_background_small_image Model3.nan_x86 Model.rgba_2x1).
  left. cbn. lia.
Defined.

(** X15: on a well-formed image more than ten pixels high and wide, whose
    band values are bytes, the detected background color is made of bytes
    and does not depend on the platform's cast of [nan]: there is at least
    one sample, and each band of the color is the truncated mean of that
    band over the samples. *)
Theorem X15_detect_background_in_range nan (im : Image) :
  10 < height im -> 10 < width im ->
  length (data im) = (Z.to_nat (height im) * Z.to_nat (width im))%nat ->
  Forall (Forall is_byte) (data im) ->
  all_pixels (Np.array im) <> [] /\
  (forall nan', _detect_background_color nan' (Np.array im)
                = _detect_background_color nan (Np.array im)) /\
  exists r g b,
    _detect_background_color nan (Np.array im) = (r, g, b) /\
    is_byte r /\ is_byte g /\ is_byte b.
Proof.
  intros Hh Hw Hlen Hbytes.
  assert (Hne : all_pixels (Np.array im) <> []).
  { apply all_pixels_nonempty; unfold Np.array.
    - rewrite rows_length. lia.
    - eapply Forall_impl; [apply rows_widths, Hlen|].
      intros row Hrow. cbn in Hrow. lia. }
  assert (Hne3 : map (take 3) (all_pixels (Np.array im)) <> [])
    by (destruct (all_pixels (Np.array im)); [congruence | discriminate]).
  split; [exact Hne|]. split.
  { intros nan'. unfold _detect_background_color, mean_as_int.
    destruct (map (take 3) (all_pixels (Np.array im))); [congruence | reflexivity]. }
  assert (Hsamples : forall k, (k < 3)%nat ->
            Forall (fun px : pixel => 0 <= nth k px 0 <= 255)
              (map (take 3) (all_pixels (Np.array im)))).
  { intros k Hk. apply Forall_fmap.
    eapply Forall_impl; [apply all_pixels_Forall, rows_Forall, Hbytes|].
    intros px Hpx. cbn. rewrite nth_take3 by assumption.
    apply (nth_is_byte k px Hpx). }
  eexists _, _, _. split; [reflexivity|].
  unfold is_byte.
  split; [|split];
    apply mean_as_int_bounds; try apply Hsamples; try lia; assumption.
Qed.

Lemma X15_detect_background_in_range_witness :
  let im := new_image RGBA (11, 11) [10; 20; 30; 255] in
  exists r g b,
    _detect_background_color Model3.nan_x86 (Np.array im) = (r, g, b) /\
    is_byte r /\ is_byte g /\ is_byte b.
Proof.
  intros im.
  apply (X15_detect_background_in_range Model3.nan_x86 im).
  - cbn. lia.
  - cbn. lia.
  - vm_compute. reflexivity.
  - unfold im, new_image. cbn [data fst snd].
    apply List.Forall_forall. intros px Hpx. apply repeat_spec in Hpx. subst px.
    unfold is_byte. repeat constructor; lia.
Defined.

(** X16: a plain image is masked out entirely.  On a well-formed image
    more than ten pixels high and wide whose pixels all have the same
    color, that color is the detected background, and the mask handed to
    the blur is 0 everywhere: every pixel is to be made transparent. *)
Theorem X16_plain_image_fully_masked nan (im : Image) r g b :
  10 < height im -> 10 < width im ->
  length (data im) = (Z.to_nat (height im) * Z.to_nat (width im))%nat ->
  Forall (fun px => nth 0 px 0 = r /\ nth 1 px 0 = g /\ nth 2 px 0 = b)
    (data im) ->
  _detect_background_color nan (Np.array im) = (r, g, b) /\
  where_mask (Np.array im) (r, g, b) = map (map (fun _ => 0)) (Np.array im).
Proof.
  intros Hh Hw Hlen Hplain.
  assert (Hne : all_pixels (Np.array im) <> []).
  { apply all_pixels_nonempty; unfold Np.array.
    - rewrite rows_length. lia.
    - eapply Forall_impl; [apply rows_widths, Hlen|].
      intros row Hrow. cbn in Hrow. lia. }
  assert (Hne3 : map (take 3) (all_pixels (Np.array im)) <> [])
    by (destruct (all_pixels (Np.array im)); [congruence | discriminate]).
  pose proof (rows_Forall _ (Z.to_nat (height im)) (Z.to_nat (width im)) _ Hplain)
    as Harr. fold (Np.array im) in Harr.
  assert (Hsamples : Forall (fun px : pixel =>
              nth 0 px 0 = r /\ nth 1 px 0 = g /\ nth 2 px 0 = b)
              (map (take 3) (all_pixels (Np.array im)))).
  { apply Forall_fmap. eapply Forall_impl; [apply all_pixels_Forall, Harr|].
    intros px Hpx. cbn. rewrite !nth_take3 by lia. exact Hpx. }
  split.
  - unfold _detect_background_color.
    rewrite (mean_as_int_const nan 0 _ r), (mean_as_int_const nan 1 _ g),
      (mean_as_int_const nan 2 _ b); try assumption; try reflexivity.
    all: eapply Forall_impl; [exact Hsamples|]; intros px (E0 & E1 & E2);
      assumption.
  - unfold where_mask.
    apply Forall_fmap_ext_1. eapply Forall_impl; [exact Harr|].
    intros row Hrow. cbn. apply Forall_fmap_ext_1.
    eapply Forall_impl; [exact Hrow|].
    intros px (-> & -> & ->). cbn.
    unfold color_distance_sq. rewrite !Z.sub_diag. reflexivity.
Qed.

Lemma X16_plain_image_fully_masked_witness :
  let im := new_image RGBA (11, 11) [10; 20; 30; 255] in
  _detect_background_color Model3.nan_x86 (Np.array im) = (10, 20, 30) /\
  where_mask (Np.array im) (10, 20, 30) = map (map (fun _ => 0)) (Np.array im).
Proof.
  intros im.
  apply (X16_plain_image_fully_masked Model3.nan_x86 im).
  - cbn. lia.
  - cbn. lia.
  - vm_compute. reflexivity.
  - unfold im, new_image. cbn [data fst snd].
    apply List.Forall_forall. intros px Hpx. apply repeat_spec in Hpx. subst px.
    repeat split.
Defined.

(** X17: the placeholder removal ignores the alpha it is given.
    [_create_mask] reads the original alpha into a variable it never uses,
    and the background detection drops the alpha band: two RGBA images of
    the same size whose pixels differ at most in alpha give the same
    result image. *)
Theorem X17_placeholder_ignores_alpha `{ImageFilter} nan (im1 im2 : Image) :
  width im1 = width im2 ->
  height im1 = height im2 ->
  Forall2 same_rgb (data im1) (data im2) ->
  placeholder_result nan im1 = placeholder_result nan im2.
Proof.
  intros Hw Hh Hdata.
  assert (Harr : Forall2 (Forall2 same_rgb) (Np.array im1) (Np.array im2))
    by (unfold Np.array; rewrite Hw, Hh; apply rows_Forall2, Hdata).
  pose proof (same_rgb_take3_rows _ _ Harr) as Hrgb.
  assert (Hbg : _detect_background_color nan (Np.array im1)
                = _detect_background_color nan (Np.array im2))
    by (rewrite <- (detect_background_color_take3 nan (Np.array im1)),
          <- (detect_background_color_take3 nan (Np.array im2)), Hrgb;
        reflexivity).
  assert (Hmask : forall bg, where_mask (Np.array im1) bg
                             = where_mask (Np.array im2) bg)
    by (intros bg; rewrite <- (where_mask_take3 (Np.array im1)),
          <- (where_mask_take3 (Np.array im2)), Hrgb; reflexivity).
  unfold placeholder_result, _create_mask, Np.fromarray_RGBA. cbv zeta.
  rewrite Hbg, Hmask, Hw, Hh.
  rewrite (same_rgb_set_alpha _ _ _ Harr). reflexivity.
Qed.

Lemma X17_placeholder_ignores_alpha_witness :
  let im1 := Model.rgba_2x1 in
  let im2 := {| mode := RGBA; width := 2; height := 1;
                data := [[10; 20; 30; 255]; [40; 50; 60; 7]] |} in
  @placeholder_result Model3.blur_none Model3.nan_x86 im1
    = @placeholder_result Model3.blur_none Model3.nan_x86 im2.
Proof.
  intros im1 im2.
  apply (@X17_placeholder_ignores_alpha Model3.blur_none Model3.nan_x86 im1 im2).
  - reflexivity.
  - reflexivity.
  - repeat constructor; unfold same_rgb; repeat eexists.
Defined.

(** ** Runs of the background removal *)

Section BackgroundRemoverRuns.
Context `{Codec} `{Codec2} `{ImageFilter}.
Variable nan : Z.

Lemma xencode_png_run r im optimize w :
  xheap w !! r = Some im ->
  xencode_png r optimize w
    = (match png_save im optimize with
       | inl b => Ok b
       | inr e => Raise e
       end, xwith_out w [XEncodePng im optimize]).
Proof.
  intros Hr. unfold xencode_png.
  erewrite xbind_ok by (apply xderef_run; exact Hr).
  erewrite xbind_ok by reflexivity.
  destruct (png_save im optimize); reflexivity.
Qed.

Lemma xopen_bytes_ok b im w :
  image_open b = inl im ->
  xopen_bytes b w
    = (Ok (length (xheap w)),
       {| xheap := xheap w ++ [im]; xfs := xfs w; xout := xout w |}).
Proof. intros E. unfold xopen_bytes. rewrite E. reflexivity. Qed.

Lemma xopen_bytes_raise b e w :
  image_open b = inr e -> xopen_bytes b w = (Raise e, w).
Proof. intros E. unfold xopen_bytes. rewrite E. reflexivity. Qed.

Lemma rgba_working_image_mode im : mode (rgba_working_image im) = RGBA.
Proof.
  unfold rgba_working_image. destruct (mode im) eqn:E; cbn;
    try apply convert_rgba_mode. exact E.
Qed.

Lemma xto_rgba_run img im w :
  xheap w !! img = Some im ->
  exists r,
    xto_rgba img w
      = (Ok r, {| xheap := xheap w ++ tail (rgba_objects im);
                  xfs := xfs w; xout := xout w |}) /\
    (xheap w ++ tail (rgba_objects im)) !! r = Some (rgba_working_image im).
Proof.
  intros Hr. unfold xto_rgba, rgba_working_image, rgba_objects.
  erewrite xbind_ok by (apply xderef_run; exact Hr).
  destruct (negb (Mode_eqb (mode im) RGBA)); cbn [tail].
  - exists (length (xheap w)).
    split; [reflexivity | apply list_lookup_middle; reflexivity].
  - exists img. rewrite app_nil_r. split; [|exact Hr].
    unfold xret. destruct w; reflexivity.
Qed.

(** Decoding and conversion, the common start of both functions. *)
Lemma open_to_rgba_run {A} data im (k : ref -> XM A) w :
  image_open data = inl im ->
  exists r,
    (let* img := xopen_bytes data in let* img := xto_rgba img in k img) w
      = k r {| xheap := xheap w ++ rgba_objects im;
               xfs := xfs w; xout := xout w |} /\
    (xheap w ++ rgba_objects im) !! r = Some (rgba_working_image im).
Proof.
  intros Hopen.
  erewrite xbind_ok by (apply xopen_bytes_ok; exact Hopen).
  set (w1 := {| xheap := xheap w ++ [im]; xfs := xfs w; xout := xout w |}).
  assert (Himg : xheap w1 !! length (xheap w) = Some im)
    by (apply list_lookup_middle; reflexivity).
  destruct (xto_rgba_run _ _ _ Himg) as (r & Hrun & Hwim).
  erewrite xbind_ok by exact Hrun.
  exists r. cbn [xheap xfs xout w1] in *.
  assert (E : (xheap w ++ [im]) ++ tail (rgba_objects im)
              = xheap w ++ rgba_objects im)
    by (rewrite <- app_assoc; reflexivity).
  rewrite E in *. split; [reflexivity | exact Hwim].
Qed.

Lemma placeholder_try_block_run data im w :
  image_open data = inl im ->
  let out := placeholder_result nan (rgba_working_image im) in
  _placeholder_removal_try_block nan data w
    = (match png_save out false with
       | inl b => Ok b
       | inr e => Raise e
       end,
       {| xheap := xheap w ++ rgba_objects im ++ [out]; xfs := xfs w;
          xout := xout w ++ [XEncodePng out false] |}).
Proof.
  intros Hopen out. unfold _placeholder_removal_try_block.
  destruct (open_to_rgba_run data im
              (fun img => let* im := xderef img in
                          let* result := xalloc (placeholder_result nan im) in
                          xencode_png result false) w Hopen)
    as (r & -> & Hwim).
  erewrite xbind_ok by (apply xderef_run; exact Hwim).
  erewrite xbind_ok by reflexivity.
  erewrite xencode_png_run
    by (cbn [xheap]; apply list_lookup_middle; reflexivity).
  fold out. unfold xwith_out. cbn [xheap xfs xout].
  rewrite <- app_assoc. reflexivity.
Qed.

Lemma placeholder_removal_run data im w :
  image_open data = inl im ->
  let out := placeholder_result nan (rgba_working_image im) in
  _placeholder_removal nan data w
    = (match png_save out false with
       | inl b => Ok b
       | inr e => Raise ("Error in placeholder removal: " +:+ e)
       end,
       {| xheap := xheap w ++ rgba_objects im ++ [out]; xfs := xfs w;
          xout := xout w ++ [XEncodePng out false] |}).
Proof.
  intros Hopen out.
  pose proof (placeholder_try_block_run data im w Hopen) as Hrun.
  cbv zeta in Hrun. fold out in Hrun.
  unfold _placeholder_removal.
  destruct (png_save out false) as [b|e].
  - erewrite xtry_except_ok by exact Hrun. reflexivity.
  - erewrite xtry_except_raise by exact Hrun. reflexivity.
Qed.

Lemma placeholder_removal_undecodable data e w :
  image_open data = inr e ->
  _placeholder_removal nan data w
    = (Raise ("Error in placeholder removal: " +:+ e), w).
Proof.
  intros Hopen. unfold _placeholder_removal.
  erewrite xtry_except_raise; [reflexivity|].
  unfold _placeholder_removal_try_block.
  eapply xbind_raise. apply xopen_bytes_raise, Hopen.
Qed.

End BackgroundRemoverRuns.

Lemma placeholder_result_keeps_rgb `{ImageFilter} nan (im : Image) :
  length (data im) = (Z.to_nat (height im) * Z.to_nat (width im))%nat ->
  map (take 3) (data (placeholder_result nan im)) = map (take 3) (data im).
Proof.
  intros Hlen. unfold placeholder_result, Np.fromarray_RGBA. cbn [data].
  rewrite concat_map, set_alpha_keeps_rgb.
  - rewrite <- concat_map. unfold Np.array. rewrite concat_rows by exact Hlen.
    reflexivity.
  - unfold _create_mask. rewrite gaussian_blur_shape. apply where_mask_shape.
Qed.

Lemma length_concat_shape {A B} (a : list (list A)) (b : list (list B)) :
  map length a = map length b -> length (concat a) = length (concat b).
Proof.
  revert b. induction a as [|x a IH]; intros [|y b] E; try discriminate;
    [reflexivity|].
  injection E as Ex Ea. cbn [concat]. rewrite !length_app, Ex, (IH b Ea).
  reflexivity.
Qed.

Lemma placeholder_result_length `{ImageFilter} nan (im : Image) :
  length (data im) = (Z.to_nat (height im) * Z.to_nat (width im))%nat ->
  length (data (placeholder_result nan im)) = length (data im).
Proof.
  intros Hlen. unfold placeholder_result, Np.fromarray_RGBA. cbn [data].
  rewrite (length_concat_shape _ (Np.array im)).
  - unfold Np.array. rewrite concat_rows by exact Hlen. reflexivity.
  - apply set_alpha_shape. unfold _create_mask.
    rewrite gaussian_blur_shape. apply where_mask_shape.
Qed.

(** X18: what [_placeholder_removal] encodes.  The upload is decoded,
    converted to RGBA unless it is RGBA already, and one PNG encode is made,
    without [optimize]; nothing is written to disk.  The image encoded is
    RGBA, has the size of the decoded image and, when that image is well
    formed, the same number of pixels with the same red, green and blue
    values: only alpha is replaced.  A failure of the decoder or of the
    encoder comes out with the prefix "Error in placeholder removal: ". *)
Theorem X18_placeholder_removal_keeps_colors `{Codec} `{Codec2} `{ImageFilter}
    nan idata im w :
  image_open idata = inl im ->
  let wim := rgba_working_image im in
  let out := placeholder_result nan wim in
  length (data wim) = (Z.to_nat (height wim) * Z.to_nat (width wim))%nat ->
  _placeholder_removal nan idata w
    = (match png_save out false with
       | inl b => Ok b
       | inr e => Raise ("Error in placeholder removal: " +:+ e)
       end,
       {| xheap := xheap w ++ rgba_objects im ++ [out]; xfs := xfs w;
          xout := xout w ++ [XEncodePng out false] |}) /\
  mode wim = RGBA /\ mode out = RGBA /\
  width out = width wim /\ height out = height wim /\
  length (data out) = length (data wim) /\
  map (take 3) (data out) = map (take 3) (data wim).
Proof.
  intros Hopen wim out Hlen.
  split; [apply placeholder_removal_run, Hopen|].
  split; [apply rgba_working_image_mode|].
  repeat split.
  - apply placeholder_result_length, Hlen.
  - apply placeholder_result_keeps_rgb, Hlen.
Qed.

Lemma X18_placeholder_removal_keeps_colors_witness :
  let C := Model.codec (Model.enc_const 100) (Model.dec_const Model.rgba_2x1) in
  let C2 := Model2.codec2 (Model2.webp_const 100) (Model2.png_const 100)
              Model2.quant_first_pixels in
  let w := Model2.xworld_with_file "logo.png" (Model.zeros 10) in
  let out := @placeholder_result Model3.blur_none Model3.nan_x86 Model.rgba_2x1 in
  (exists w',
     @_placeholder_removal C C2 Model3.blur_none Model3.nan_x86 (Model.zeros 10) w
       = (Ok (Model.zeros 100), w')) /\
  data out = [[10; 20; 30; 255]; [40; 50; 60; 255]].
Proof.
  intros C C2 w out.
  destruct (@X18_placeholder_removal_keeps_colors C C2 Model3.blur_none
              Model3.nan_x86 (Model.zeros 10) Model.rgba_2x1 w)
    as (Hrun & _).
  - reflexivity.
  - reflexivity.
  - split; [eexists; exact Hrun | reflexivity].
Defined.

(** X19: [remove_background] without rembg.  The upload is decoded and
    converted once for nothing, then handed as bytes to
    [_placeholder_removal], which decodes and converts it again.  An upload
    that does not decode fails at the first decoding, with the single prefix
    "Error removing background: " and before any line is printed; a failure
    of the PNG encoder carries both prefixes.  [rembg] is not consulted. *)
Theorem X19_remove_background_placeholder `{Codec} `{Codec2} `{ImageFilter}
    nan rembg data w :
  (forall e, image_open data = inr e ->
     remove_background nan false rembg data w
       = (Raise ("Error removing background: " +:+ e), w)) /\
  (forall im, image_open data = inl im ->
     let out := placeholder_result nan (rgba_working_image im) in
     remove_background nan false rembg data w
       = (match png_save out false with
          | inl b => Ok b
          | inr e =>
              Raise ("Error removing background: "
                     +:+ ("Error in placeholder removal: " +:+ e))
          end,
          {| xheap := xheap w ++ rgba_objects im ++ rgba_objects im ++ [out];
             xfs := xfs w;
             xout := xout w ++ [XLog Using_placeholder;
                                XEncodePng out false] |})).
Proof.
  split.
  - intros e Hopen. unfold remove_background.
    erewrite xtry_except_raise; [reflexivity|].
    unfold remove_background_try_block.
    eapply xbind_raise. apply xopen_bytes_raise, Hopen.
  - intros im Hopen out.
    assert (Hblock :
        remove_background_try_block nan false rembg data w
          = (match png_save out false with
             | inl b => Ok b
             | inr e => Raise ("Error in placeholder removal: " +:+ e)
             end,
             {| xheap := xheap w ++ rgba_objects im ++ rgba_objects im ++ [out];
                xfs := xfs w;
                xout := xout w ++ [XLog Using_placeholder;
                                   XEncodePng out false] |})).
    { unfold remove_background_try_block.
      destruct (open_to_rgba_run data im
                  (fun _ => do* xlog Using_placeholder in
                            _placeholder_removal nan data) w Hopen)
        as (r & -> & _).
      erewrite xbind_ok by apply xlog_run.
      rewrite (placeholder_removal_run nan data im _ Hopen).
      fold out. unfold xwith_out. cbn [xheap xfs xout].
      rewrite <- !app_assoc. reflexivity. }
    unfold remove_background.
    destruct (png_save out false) as [b|e].
    + erewrite xtry_except_ok by exact Hblock. reflexivity.
    + erewrite xtry_except_raise by exact Hblock. reflexivity.
Qed.

Lemma X19_remove_background_placeholder_witness :
  let C := Model.codec (Model.enc_const 100) (Model.dec_const Model.rgb_2x1) in
  let C2 := Model2.codec2 (Model2.webp_const 100) (Model2.png_const 100)
              Model2.quant_first_pixels in
  let w := Model2.xworld_with_file "logo.png" (Model.zeros 10) in
  exists w',
    @remove_background C C2 Model3.blur_none Model3.nan_x86 false
      (fun _ => inr "rembg is not installed"%string) (Model.zeros 10) w
      = (Ok (Model.zeros 100), w') /\
    length (xheap w') = 5%nat.
Proof.
  intros C C2 w.
  destruct (@X19_remove_background_placeholder C C2 Model3.blur_none
              Model3.nan_x86 (fun _ => inr "rembg is not installed"%string)
              (Model.zeros 10) w) as (_ & Hrun).
  specialize (Hrun Model.rgb_2x1 eq_refl). cbv zeta in Hrun.
  eexists. split; [exact Hrun | reflexivity].
Defined.

(** X20: [remove_background] with rembg.  rembg is given the decoded
    image in RGBA.  An image it returns is PNG-encoded as it is, in whatever
    mode it has; bytes it returns are decoded and the result PNG-encoded.
    Neither path computes the placeholder mask, and nothing is written to
    disk.  A failure of rembg, of the second decoding or of the encoder
    comes out with the prefix "Error removing background: ". *)
Theorem X20_remove_background_rembg `{Codec} `{Codec2} `{ImageFilter}
    nan rembg idata im w :
  image_open idata = inl im ->
  let wim := rgba_working_image im in
  let wrap (r : bytes + string) : Res bytes :=
    match r with
    | inl b => Ok b
    | inr e => Raise ("Error removing background: " +:+ e)
    end in
  mode wim = RGBA /\
  exists res ext tr,
    remove_background nan true rembg idata w
      = (res, {| xheap := xheap w ++ rgba_objects im ++ ext; xfs := xfs w;
                 xout := xout w ++ XLog Using_rembg :: tr |}) /\
    match rembg wim with
    | inr e => res = wrap (inr e) /\ ext = [] /\ tr = []
    | inl (inl output_img) =>
        res = wrap (png_save output_img false) /\
        ext = [output_img] /\ tr = [XEncodePng output_img false]
    | inl (inr output_bytes) =>
        match image_open output_bytes with
        | inr e => res = wrap (inr e) /\ ext = [] /\ tr = []
        | inl result_img =>
            res = wrap (png_save result_img false) /\
            ext = [result_img] /\ tr = [XEncodePng result_img false]
        end
    end.
Proof.
  intros Hopen wim wrap.
  split; [apply rgba_working_image_mode|].
  unfold remove_background, remove_background_try_block.
  destruct (open_to_rgba_run idata im
              (fun img =>
                 do* xlog Using_rembg in
                 let* im := xderef img in
                 match rembg im with
                 | inr e => xraise e
                 | inl (inl output_img) =>
                     let* output_img := xalloc output_img in
                     xencode_png output_img false
                 | inl (inr output_bytes) =>
                     let* result_img := xopen_bytes output_bytes in
                     xencode_png result_img false
                 end) w Hopen) as (r & Hrun & Hwim).
  set (w1 := {| xheap := xheap w ++ rgba_objects im; xfs := xfs w;
                xout := xout w |}) in *.
  set (w2 := xwith_out w1 [XLog Using_rembg]).
  assert (Hk : forall m : XM bytes,
            (do* xlog Using_rembg in
             let* im0 := xderef r in
             match rembg im0 with
             | inr e => xraise e
             | inl (inl output_img) =>
                 let* output_img := xalloc output_img in
                 xencode_png output_img false
             | inl (inr output_bytes) =>
                 let* result_img := xopen_bytes output_bytes in
                 xencode_png result_img false
             end) w1
            = match rembg wim with
              | inr e => xraise e
              | inl (inl output_img) =>
                  let* output_img := xalloc output_img in
                  xencode_png output_img false
              | inl (inr output_bytes) =>
                  let* result_img := xopen_bytes output_bytes in
                  xencode_png result_img false
              end w2).
  { intros _. erewrite xbind_ok by apply xlog_run.
    erewrite xbind_ok by (apply xderef_run; exact Hwim). reflexivity. }
  specialize (Hk (xret [])). rewrite Hk in Hrun. clear Hk.
  assert (Halloc : forall (o : Image) w0,
            (let* r0 := xalloc o in xencode_png r0 false) w0
              = (match png_save o false with
                 | inl b => Ok b
                 | inr e => Raise e
                 end,
                 {| xheap := xheap w0 ++ [o]; xfs := xfs w0;
                    xout := xout w0 ++ [XEncodePng o false] |})).
  { intros o w0. erewrite xbind_ok by reflexivity.
    erewrite xencode_png_run
      by (cbn [xheap]; apply list_lookup_middle; reflexivity).
    reflexivity. }
  destruct (rembg wim) as [[output_img | output_bytes] | e].
  - rewrite Halloc in Hrun.
    exists (wrap (png_save output_img false)), [output_img],
      [XEncodePng output_img false].
    split; [|repeat split].
    unfold w2, xwith_out, w1 in Hrun. cbn [xheap xfs xout] in Hrun.
    rewrite <- !app_assoc in Hrun. cbn [app] in Hrun.
    destruct (png_save output_img false) as [b|e].
    + erewrite xtry_except_ok by exact Hrun. reflexivity.
    + erewrite xtry_except_raise by exact Hrun. reflexivity.
  - destruct (image_open output_bytes) as [result_img | e] eqn:Hopen2.
    + assert (E : (let* result_img := xopen_bytes output_bytes in
                   xencode_png result_img false) w2
                  = (let* r0 := xalloc result_img in xencode_png r0 false) w2)
        by (unfold xopen_bytes; rewrite Hopen2; reflexivity).
      rewrite E, Halloc in Hrun.
      exists (wrap (png_save result_img false)), [result_img],
        [XEncodePng result_img false].
      split; [|repeat split].
      unfold w2, xwith_out, w1 in Hrun. cbn [xheap xfs xout] in Hrun.
      rewrite <- !app_assoc in Hrun. cbn [app] in Hrun.
      destruct (png_save result_img false) as [b|e].
      * erewrite xtry_except_ok by exact Hrun. reflexivity.
      * erewrite xtry_except_raise by exact Hrun. reflexivity.
    + assert (E : (let* result_img := xopen_bytes output_bytes in
                   xencode_png result_img false) w2 = (Raise e, w2))
        by (eapply xbind_raise; apply xopen_bytes_raise; exact Hopen2).
      rewrite E in Hrun.
      exists (wrap (inr e)), [], []. split; [|repeat split].
      erewrite xtry_except_raise by exact Hrun.
      unfold xraise, w2, xwith_out, w1. cbn [xheap xfs xout wrap].
      rewrite app_nil_r. reflexivity.
  - exists (wrap (inr e)), [], []. split; [|repeat split].
    erewrite xtry_except_raise by exact Hrun.
    unfold xraise, w2, xwith_out, w1. cbn [xheap xfs xout wrap].
    rewrite app_nil_r. reflexivity.
Qed.

Lemma X20_remove_background_rembg_witness :
  let C := Model.codec (Model.enc_const 100) (Model.dec_const Model.rgb_2x1) in
  let C2 := Model2.codec2 (Model2.webp_const 100) (Model2.png_const 100)
              Model2.quant_first_pixels in
  let w := Model2.xworld_with_file "logo.png" (Model.zeros 10) in
  exists w',
    @remove_background C C2 Model3.blur_none Model3.nan_x86 true
      (fun _ => inl (inl Model.la_1x1)) (Model.zeros 10) w
      = (Ok (Model.zeros 100), w') /\
    xout w' = [XLog Using_rembg; XEncodePng Model.la_1x1 false].
Proof.
  intros C C2 w.
  destruct (@X20_remove_background_rembg C C2 Model3.blur_none
              Model3.nan_x86 (fun _ => inl (inl Model.la_1x1))
              (Model.zeros 10) Model.rgb_2x1 w eq_refl)
    as (_ & res & ext & tr & Hrun & -> & -> & ->).
  eexists. split; [exact Hrun | reflexivity].
Defined.

(** ** Computations that leave the files alone *)

Lemma xworld_same w :
  w = {| xheap := xheap w ++ []; xfs := xfs w; xout := xout w ++ [] |}.
Proof. destruct w. cbn. rewrite !app_nil_r. reflexivity. Qed.

Lemma leaves_files_ret {A} (a : A) : leaves_files (xret a).
Proof.
  intros w. exists (Ok a), [], []. split; [|discriminate].
  unfold xret. rewrite <- xworld_same. reflexivity.
Qed.

Lemma leaves_files_raise {A} e : leaves_files (@xraise A e).
Proof.
  intros w. exists (Raise e), [], []. split; [|discriminate].
  unfold xraise. rewrite <- xworld_same. reflexivity.
Qed.

Lemma leaves_files_bind {A B} (m : XM A) (k : A -> XM B) :
  leaves_files m -> (forall a, leaves_files (k a)) -> leaves_files (xbind m k).
Proof.
  intros Hm Hk w. destruct (Hm w) as (res & ext & tr & Hrun & Hfuel).
  unfold xbind. rewrite Hrun. destruct res as [a|e|]; [| |congruence].
  - destruct (Hk a {| xheap := xheap w ++ ext; xfs := xfs w;
                      xout := xout w ++ tr |})
      as (res' & ext' & tr' & Hrun' & Hfuel').
    exists res', (ext ++ ext'), (tr ++ tr'). split; [|exact Hfuel'].
    rewrite Hrun'. cbn [xheap xfs xout]. rewrite !app_assoc. reflexivity.
  - exists (Raise e), ext, tr. split; [reflexivity | discriminate].
Qed.

Lemma leaves_files_try_except {A} (m : XM A) (h : string -> XM A) :
  leaves_files m -> (forall e, leaves_files (h e)) ->
  leaves_files (xtry_except m h).
Proof.
  intros Hm Hh w. destruct (Hm w) as (res & ext & tr & Hrun & Hfuel).
  unfold xtry_except. rewrite Hrun. destruct res as [a|e|]; [| |congruence].
  - exists (Ok a), ext, tr. split; [reflexivity | discriminate].
  - destruct (Hh e {| xheap := xheap w ++ ext; xfs := xfs w;
                      xout := xout w ++ tr |})
      as (res' & ext' & tr' & Hrun' & Hfuel').
    exists res', (ext ++ ext'), (tr ++ tr'). split; [|exact Hfuel'].
    rewrite Hrun'. cbn [xheap xfs xout]. rewrite !app_assoc. reflexivity.
Qed.

Lemma leaves_files_emit e : leaves_files (xemit e).
Proof.
  intros w. exists (Ok tt), [], [e]. split; [|discriminate].
  unfold xemit. rewrite app_nil_r. reflexivity.
Qed.

Lemma leaves_files_log m : leaves_files (xlog m).
Proof. apply leaves_files_emit. Qed.

Lemma leaves_files_alloc im : leaves_files (xalloc im).
Proof.
  intros w. exists (Ok (length (xheap w))), [im], []. split; [|discriminate].
  unfold xalloc. rewrite app_nil_r. reflexivity.
Qed.

Lemma leaves_files_deref r : leaves_files (xderef r).
Proof.
  intros w. unfold xderef.
  destruct (xheap w !! r) as [im|].
  - exists (Ok im), [], []. split; [|discriminate].
    rewrite <- xworld_same. reflexivity.
  - exists (Raise "dangling image reference"%string), [], [].
    split; [|discriminate]. rewrite <- xworld_same. reflexivity.
Qed.

Create HintDb leaves_files.
#[export] Hint Resolve leaves_files_ret leaves_files_raise leaves_files_emit
  leaves_files_log leaves_files_alloc leaves_files_deref : leaves_files.

Ltac leaves_files_tac :=
  repeat first
    [ progress intros
    | apply leaves_files_bind
    | apply leaves_files_try_except
    | solve [auto with leaves_files]
    | match goal with
      | |- leaves_files (match ?x with _ => _ end) => destruct x
      | |- leaves_files (if ?b then _ else _) => destruct b
      end ].

Section LeavesFiles.
Context `{Codec} `{Codec2} `{ImageFilter}.

Lemma leaves_files_open_bytes b : leaves_files (xopen_bytes b).
Proof. unfold xopen_bytes. leaves_files_tac. Qed.

Lemma leaves_files_encode_png r optimize : leaves_files (xencode_png r optimize).
Proof. unfold xencode_png. leaves_files_tac. Qed.

Lemma leaves_files_to_rgba r : leaves_files (xto_rgba r).
Proof. unfold xto_rgba. leaves_files_tac. Qed.

Lemma leaves_files_resize r w h : leaves_files (xresize r w h).
Proof. unfold xresize. leaves_files_tac. Qed.

Lemma leaves_files_placeholder_removal nan data :
  leaves_files (_placeholder_removal nan data).
Proof.
  unfold _placeholder_removal, _placeholder_removal_try_block.
  pose proof leaves_files_open_bytes. pose proof leaves_files_encode_png.
  pose proof leaves_files_to_rgba.
  leaves_files_tac.
Qed.

Lemma leaves_files_remove_background nan has rembg data :
  leaves_files (remove_background nan has rembg data).
Proof.
  unfold remove_background, remove_background_try_block.
  pose proof leaves_files_open_bytes. pose proof leaves_files_encode_png.
  pose proof leaves_files_to_rgba.
  pose proof (leaves_files_placeholder_removal nan).
  leaves_files_tac.
Qed.

Lemma leaves_files_convert_to_png data : leaves_files (convert_to_png data).
Proof.
  unfold convert_to_png, convert_to_png_try_block.
  pose proof leaves_files_open_bytes. pose proof leaves_files_encode_png.
  pose proof leaves_files_to_rgba.
  leaves_files_tac.
Qed.

Lemma leaves_files_resize_for_web data max_width :
  leaves_files (resize_for_web data max_width).
Proof.
  unfold resize_for_web, resize_for_web_try_block.
  pose proof leaves_files_open_bytes. pose proof leaves_files_encode_png.
  pose proof leaves_files_resize.
  leaves_files_tac.
Qed.

End LeavesFiles.

(** ** Runs of [resize_for_web] and [convert_to_png] *)

Section WebRuns.
Context `{Codec} `{Codec2}.

Lemma xresize_run img im w0 h0 w :
  xheap w !! img = Some im ->
  xresize img w0 h0 w
    = if (w0 <? 1) || (h0 <? 1)
      then (Raise "height and width must be > 0"%string, w)
      else (Ok (length (xheap w)),
            {| xheap := xheap w ++ [resize_lanczos im w0 h0];
               xfs := xfs w; xout := xout w |}).
Proof.
  intros Hr. unfold xresize.
  erewrite xbind_ok by (apply xderef_run; exact Hr).
  destruct ((w0 <? 1) || (h0 <? 1)); reflexivity.
Qed.

Lemma resize_for_web_run idata im max_width w :
  image_open idata = inl im ->
  resize_for_web idata max_width w
    = match web_image im max_width with
      | inr e =>
          (Raise ("Error resizing image: " +:+ e),
           {| xheap := xheap w ++ [im]; xfs := xfs w; xout := xout w |})
      | inl out =>
          (match png_save out true with
           | inl b => Ok b
           | inr e => Raise ("Error resizing image: " +:+ e)
           end,
           {| xheap := xheap w
                       ++ im :: (if width im >? max_width then [out] else []);
              xfs := xfs w;
              xout := xout w ++ [XEncodePng out true] |})
      end.
Proof.
  intros Hopen.
  set (w1 := {| xheap := xheap w ++ [im]; xfs := xfs w; xout := xout w |}).
  assert (Himg : xheap w1 !! length (xheap w) = Some im)
    by (apply list_lookup_middle; reflexivity).
  assert (Hblock :
      resize_for_web_try_block idata max_width w
        = match web_image im max_width with
          | inr e => (Raise e, w1)
          | inl out =>
              (match png_save out true with
               | inl b => Ok b
               | inr e => Raise e
               end,
               {| xheap := xheap w
                           ++ im :: (if width im >? max_width then [out] else []);
                  xfs := xfs w;
                  xout := xout w ++ [XEncodePng out true] |})
          end).
  { unfold resize_for_web_try_block.
    erewrite xbind_ok by (apply xopen_bytes_ok; exact Hopen).
    erewrite xbind_ok by (apply xderef_run; exact Himg).
    unfold web_image.
    destruct (width im >? max_width).
    - destruct (scaled_height (height im) max_width (width im))
        as [new_height | e].
      + pose proof (xresize_run _ im max_width new_height _ Himg) as Hres.
        destruct ((max_width <? 1) || (new_height <? 1)).
        * erewrite xbind_raise by exact Hres. reflexivity.
        * erewrite xbind_ok by exact Hres.
          erewrite xencode_png_run
            by (cbn [xheap w1]; apply list_lookup_middle; reflexivity).
          unfold xwith_out. cbn [xheap xfs xout w1].
          rewrite <- app_assoc. reflexivity.
      + erewrite xbind_raise by reflexivity. reflexivity.
    - erewrite xbind_ok by reflexivity.
      erewrite xencode_png_run by exact Himg. reflexivity. }
  unfold resize_for_web.
  destruct (web_image im max_width) as [out|e].
  - destruct (png_save out true) as [b|e].
    + erewrite xtry_except_ok by exact Hblock. reflexivity.
    + erewrite xtry_except_raise by exact Hblock. reflexivity.
  - erewrite xtry_except_raise by exact Hblock. reflexivity.
Qed.

Lemma resize_for_web_undecodable idata e max_width w :
  image_open idata = inr e ->
  resize_for_web idata max_width w
    = (Raise ("Error resizing image: " +:+ e), w).
Proof.
  intros Hopen. unfold resize_for_web.
  erewrite xtry_except_raise; [reflexivity|].
  unfold resize_for_web_try_block.
  eapply xbind_raise. apply xopen_bytes_raise, Hopen.
Qed.

Lemma convert_to_png_run idata im w :
  image_open idata = inl im ->
  let wim := rgba_working_image im in
  convert_to_png idata w
    = (match png_save wim false with
       | inl b => Ok b
       | inr e => Raise ("Error converting image: " +:+ e)
       end,
       {| xheap := xheap w ++ rgba_objects im; xfs := xfs w;
          xout := xout w ++ [XEncodePng wim false] |}).
Proof.
  intros Hopen wim.
  assert (Hblock :
      convert_to_png_try_block idata w
        = (match png_save wim false with
           | inl b => Ok b
           | inr e => Raise e
           end,
           {| xheap := xheap w ++ rgba_objects im; xfs := xfs w;
              xout := xout w ++ [XEncodePng wim false] |})).
  { unfold convert_to_png_try_block.
    destruct (open_to_rgba_run idata im (fun img => xencode_png img false)
                w Hopen) as (r & -> & Hwim).
    erewrite xencode_png_run by exact Hwim. reflexivity. }
  unfold convert_to_png.
  fold wim in Hblock. destruct (png_save wim false) as [b|e].
  - erewrite xtry_except_ok by exact Hblock. reflexivity.
  - erewrite xtry_except_raise by exact Hblock. reflexivity.
Qed.

Lemma convert_to_png_undecodable idata e w :
  image_open idata = inr e ->
  convert_to_png idata w = (Raise ("Error converting image: " +:+ e), w).
Proof.
  intros Hopen. unfold convert_to_png.
  erewrite xtry_except_raise; [reflexivity|].
  unfold convert_to_png_try_block.
  eapply xbind_raise. apply xopen_bytes_raise, Hopen.
Qed.

End WebRuns.

(** The height of a resized image is computed in floating point: it can be
    one less than the exact proportion. *)
Example scaled_height_square :
  scaled_height 2140 1080 2140 = inl 1079
  /\ scaled_height 596 1080 1341 = inl 479
  /\ 596 * 1080 / 1341 = 480
  /\ scaled_height 1 1080 3000 = inl 0.
Proof. vm_compute. repeat split. Qed.

(** ** Properties of [resize_for_web] and [convert_to_png] *)

(** X21: [resize_for_web] never enlarges and never converts.  An upload
    that decodes to an image no wider than [max_width] is PNG-encoded as it
    was decoded, whatever its height and its mode, with [optimize=True]; it
    is the only encode, and nothing is written to disk. *)
Theorem X21_resize_for_web_keeps_narrow_images `{Codec} `{Codec2}
    idata im max_width w :
  image_open idata = inl im ->
  width im <= max_width ->
  resize_for_web idata max_width w
    = (match png_save im true with
       | inl b => Ok b
       | inr e => Raise ("Error resizing image: " +:+ e)
       end,
       {| xheap := xheap w ++ [im]; xfs := xfs w;
          xout := xout w ++ [XEncodePng im true] |}).
Proof.
  intros Hopen Hw.
  rewrite (resize_for_web_run idata im max_width w Hopen).
  unfold web_image. destruct (Z.gtb_spec (width im) max_width); [lia|].
  reflexivity.
Qed.

Lemma X21_resize_for_web_keeps_narrow_images_witness :
  let C := Model.codec (Model.enc_const 100) (Model.dec_const Model.la_1x1) in
  let C2 := Model2.codec2 (Model2.webp_const 100) (Model2.png_const 100)
              Model2.quant_first_pixels in
  let w := Model2.xworld_with_file "logo.png" (Model.zeros 10) in
  exists w',
    @resize_for_web C C2 (Model.zeros 10) 1080 w = (Ok (Model.zeros 100), w') /\
    xout w' = [XEncodePng Model.la_1x1 true].
Proof.
  intros C C2 w.
  pose proof (@X21_resize_for_web_keeps_narrow_images C C2 (Model.zeros 10)
                Model.la_1x1 1080 w eq_refl) as Hrun.
  eexists. split; [apply Hrun; cbn; lia | reflexivity].
Defined.

(** X22: how [resize_for_web] shrinks.  An upload that decodes to an image
    wider than [max_width] is resampled to the width [max_width] and the
    height [int(height * (max_width / width))], computed in floating point,
    and keeps its mode; the resampled image is the one encoded.  When that
    height is below 1, or [max_width] is, Pillow refuses the size: the call
    raises with the prefix "Error resizing image: " and encodes nothing. *)
Theorem X22_resize_for_web_shrinks_wide_images `{Codec} `{Codec2}
    idata im max_width new_height w :
  image_open idata = inl im ->
  max_width < width im ->
  scaled_height (height im) max_width (width im) = inl new_height ->
  let out := resize_lanczos im max_width new_height in
  (1 <= max_width /\ 1 <= new_height ->
   resize_for_web idata max_width w
     = (match png_save out true with
        | inl b => Ok b
        | inr e => Raise ("Error resizing image: " +:+ e)
        end,
        {| xheap := xheap w ++ [im; out]; xfs := xfs w;
           xout := xout w ++ [XEncodePng out true] |}) /\
   width out = max_width /\ height out = new_height /\ mode out = mode im) /\
  (max_width < 1 \/ new_height < 1 ->
   resize_for_web idata max_width w
     = (Raise ("Error resizing image: " +:+ "height and width must be > 0"),
        {| xheap := xheap w ++ [im]; xfs := xfs w; xout := xout w |})).
Proof.
  intros Hopen Hw Hscaled out.
  rewrite (resize_for_web_run idata im max_width w Hopen).
  unfold web_image. rewrite Hscaled.
  destruct (Z.gtb_spec (width im) max_width); [|lia].
  split.
  - intros [Hmw Hnh].
    destruct (Z.ltb_spec max_width 1); [lia|].
    destruct (Z.ltb_spec new_height 1); [lia|].
    cbn [orb]. fold out. split; [reflexivity|].
    split; [apply resize_lanczos_width|].
    split; [apply resize_lanczos_height | apply resize_lanczos_mode].
  - intros Hsmall.
    destruct (Z.ltb_spec max_width 1); [reflexivity|].
    destruct (Z.ltb_spec new_height 1); [reflexivity | lia].
Qed.

Lemma X22_resize_for_web_shrinks_wide_images_witness :
  let square := new_image RGB (22, 22) [0; 0; 0] in
  let C := Model.codec (Model.enc_const 100) (Model.dec_const square) in
  let C2 := Model2.codec2 (Model2.webp_const 100) (Model2.png_const 100)
              Model2.quant_first_pixels in
  let w := Model2.xworld_with_file "logo.png" (Model.zeros 10) in
  exists out w',
    @resize_for_web C C2 (Model.zeros 10) 15 w = (Ok (Model.zeros 100), w') /\
    xout w' = [XEncodePng out true] /\
    width out = 15 /\ height out = 14.
Proof.
  intros square C C2 w.
  destruct (@X22_resize_for_web_shrinks_wide_images C C2 (Model.zeros 10)
              square 15 14 w) as (Hfits & _).
  - reflexivity.
  - cbn. lia.
  - vm_compute. reflexivity.
  - destruct Hfits as (Hrun & Hwd & Hht & _); [lia|].
    eexists _, _. split; [exact Hrun|]. split; [reflexivity|].
    split; [exact Hwd | exact Hht].
Defined.

(** X23: [convert_to_png] always encodes an RGBA image.  The upload is
    decoded, converted to RGBA unless it is RGBA already (then it is encoded
    untouched), and PNG-encoded once without [optimize]; nothing is written
    to disk.  Failures of the decoder and of the encoder come out with the
    prefix "Error converting image: ". *)
Theorem X23_convert_to_png_encodes_rgba `{Codec} `{Codec2} idata w :
  (forall e, image_open idata = inr e ->
     convert_to_png idata w = (Raise ("Error converting image: " +:+ e), w)) /\
  (forall im, image_open idata = inl im ->
     let wim := rgba_working_image im in
     convert_to_png idata w
       = (match png_save wim false with
          | inl b => Ok b
          | inr e => Raise ("Error converting image: " +:+ e)
          end,
          {| xheap := xheap w ++ rgba_objects im; xfs := xfs w;
             xout := xout w ++ [XEncodePng wim false] |}) /\
     mode wim = RGBA /\
     (mode im = RGBA -> wim = im) /\
     (mode im <> RGBA -> wim = convert_rgba im)).
Proof.
  split.
  - intros e Hopen. apply convert_to_png_undecodable, Hopen.
  - intros im Hopen wim.
    split; [apply convert_to_png_run, Hopen|].
    split; [apply rgba_working_image_mode|].
    unfold wim, rgba_working_image.
    split; intros Hm; destruct (mode im); try congruence; reflexivity.
Qed.

Lemma X23_convert_to_png_encodes_rgba_witness :
  let C := Model.codec (Model.enc_const 100) (Model.dec_const Model.la_1x1) in
  let C2 := Model2.codec2 (Model2.webp_const 100) (Model2.png_const 100)
              Model2.quant_first_pixels in
  let w := Model2.xworld_with_file "logo.png" (Model.zeros 10) in
  exists w',
    @convert_to_png C C2 (Model.zeros 10) w = (Ok (Model.zeros 100), w') /\
    xout w' = [XEncodePng (Model2.to_rgba Model.la_1x1) false].
Proof.
  intros C C2 w.
  destruct (@X23_convert_to_png_encodes_rgba C C2 (Model.zeros 10) w)
    as (_ & Hrun).
  destruct (Hrun Model.la_1x1 eq_refl) as (Hrun' & _).
  eexists. split; [exact Hrun' | reflexivity].
Defined.

(** ** Runs of [save_processed_asset] *)

Section AssetRuns.
Context `{Codec} `{Codec2} `{ImageFilter}.
Variable nan : Z.
Variable has_rembg : bool.
Variable rembg : Image -> (Image + bytes) + string.

(** Asked for four colors, [extract_dominant_colors] gives four. *)
Lemma extract_four_colors path w :
  exists res ext tr,
    extract_dominant_colors path 4 w
      = (Ok res, {| xheap := xheap w ++ ext; xfs := xfs w;
                    xout := xout w ++ tr |}) /\
    length res = 4%nat.
Proof.
  destruct (extract_dominant_colors_run path 4 w)
    as (res & ext & tr & Hrun & Hcases).
  exists res, ext, tr. split; [exact Hrun|].
  destruct Hcases as [(_ & -> & _) | [(_ & _ & _ & _ & -> & _)
    | (idata & im & _ & _ & Hcase)]]; try reflexivity.
  cbv zeta in Hcase.
  destruct Hcase as [(_ & _ & -> & _) | [(_ & _ & _ & -> & _)
    | (palette & cols & _ & Hp & -> & _)]]; try reflexivity.
  rewrite length_map. apply (palette_colors_length _ _ _ _ Hp).
Qed.

Lemma leaves_files_asset_process remove_bg idata :
  leaves_files (asset_process nan has_rembg rembg remove_bg idata).
Proof.
  unfold asset_process. destruct remove_bg.
  - apply leaves_files_remove_background.
  - apply leaves_files_convert_to_png.
Qed.

(** The block after the image has been processed and resized. *)
Lemma save_block_after_resize file_id idata name remove_bg
    w pd w1 od w2 :
  asset_process nan has_rembg rembg remove_bg idata w = (Ok pd, w1) ->
  resize_for_web pd 1080 w1 = (Ok od, w2) ->
  let filename := file_id +:+ ".png" in
  let path := processed_asset_path filename in
  let url := "http://localhost:8000/static/uploads/processed/" +:+ filename in
  let w3 := {| xheap := xheap w2; xfs := <[path := od]> (xfs w2);
               xout := xout w2 |} in
  exists colors ext tr,
    extract_dominant_colors path 4 w3
      = (Ok colors, {| xheap := xheap w3 ++ ext; xfs := xfs w3;
                       xout := xout w3 ++ tr |}) /\
    length colors = 4%nat /\
    save_processed_asset nan has_rembg rembg file_id idata name remove_bg w
      = (Ok {| asset_url := url; asset_palette := colors;
               asset_filename := filename |},
         {| xheap := xheap w3 ++ ext; xfs := xfs w3;
            xout := xout w3 ++ tr ++ [XLog (Asset_saved url);
                                      XLog (Palette_extracted colors)] |}).
Proof.
  intros Hproc Hresize filename path url w3.
  destruct (extract_four_colors path w3) as (colors & ext & tr & Hcolors & Hlen).
  exists colors, ext, tr. split; [exact Hcolors|]. split; [exact Hlen|].
  unfold save_processed_asset.
  erewrite xtry_except_ok; [reflexivity|].
  unfold save_processed_asset_try_block. cbv zeta.
  fold (asset_process nan has_rembg rembg remove_bg idata).
  erewrite xbind_ok by exact Hproc.
  erewrite xbind_ok by exact Hresize.
  erewrite xbind_ok by reflexivity.
  fold filename. fold path. fold w3.
  erewrite xbind_ok by exact Hcolors.
  erewrite xbind_ok by apply xlog_run.
  erewrite xbind_ok by apply xlog_run.
  unfold xret, xwith_out. cbn [xheap xfs xout].
  rewrite <- !app_assoc. reflexivity.
Qed.

Lemma save_block_failure file_id idata name remove_bg w e w1 :
  save_processed_asset_try_block nan has_rembg rembg file_id idata name
    remove_bg w = (Raise e, w1) ->
  save_processed_asset nan has_rembg rembg file_id idata name remove_bg w
    = (Raise ("Error saving processed asset: " +:+ e),
       xwith_out w1 [XLog (Asset_failed e)]).
Proof.
  intros Hblock. unfold save_processed_asset.
  erewrite xtry_except_raise by exact Hblock.
  erewrite xbind_ok by apply xlog_run. reflexivity.
Qed.

End AssetRuns.


(** The success run of [extract_dominant_colors], for a palette that is
    long enough. *)
Lemma extract_colors_from_palette_run `{Codec} `{Codec2}
    path n idata im palette w :
  xfs w !! path = Some idata ->
  image_open idata = inl im ->
  quantize_palette (retail_working_image im) n = inl palette ->
  (Z.to_nat n * 3 <= length palette)%nat ->
  exists res ext,
    extract_dominant_colors path n w
      = (Ok res, {| xheap := xheap w ++ ext; xfs := xfs w;
                    xout := xout w ++ [XQuantize (retail_working_image im) n;
                                       XLog (Colors_ok n res)] |}) /\
    Some res = option_map (map Hex.color)
                 (palette_colors palette 0 (Z.to_nat n)).
Proof.
  intros Hfile Hopen Hq Hlen.
  destruct (palette_colors_enough palette 0 (Z.to_nat n) Hlen) as [cols Hcols].
  destruct (extract_colors_try_block_decoded path n idata im w Hfile Hopen)
    as (ext & Hrun).
  cbv zeta in Hrun. rewrite Hq, Hcols in Hrun.
  exists (map Hex.color cols), ext.
  split; [unfold extract_dominant_colors; erewrite xtry_except_ok by exact Hrun;
          reflexivity|].
  rewrite Hcols. reflexivity.
Qed.

(** ** Properties of [save_processed_asset] *)

(** X24: the two outcomes of [save_processed_asset].  Either the call
    returns: then the file static/uploads/processed/<id>.png has been
    written and is the only change to the file system, the filename and the
    URL are built from the identifier, and the palette has exactly four
    entries.  Or it raises with the prefix "Error saving processed asset: ",
    having printed the error: then no file has been written.  Once the file
    is written the call cannot fail any more, since the color extraction
    never raises. *)
Theorem X24_save_processed_asset_outcomes `{Codec} `{Codec2} `{ImageFilter}
    nan has_rembg rembg file_id idata name remove_bg w :
  let filename := file_id +:+ ".png" in
  let path := "static/uploads/processed/" +:+ filename in
  exists res w',
    save_processed_asset nan has_rembg rembg file_id idata name remove_bg w
      = (res, w') /\
    match res with
    | Ok asset =>
        asset_filename asset = filename /\
        asset_url asset
          = "http://localhost:8000/static/uploads/processed/" +:+ filename /\
        length (asset_palette asset) = 4%nat /\
        exists optimized_data, xfs w' = <[path := optimized_data]> (xfs w)
    | Raise e =>
        exists e0,
          e = "Error saving processed asset: " +:+ e0 /\
          xfs w' = xfs w /\
          last (xout w') = Some (XLog (Asset_failed e0))
    | OutOfFuel => False
    end.
Proof.
  intros filename path.
  destruct (leaves_files_asset_process nan has_rembg rembg remove_bg idata w)
    as (res1 & ext1 & tr1 & Hproc & Hfuel1).
  set (w1 := {| xheap := xheap w ++ ext1; xfs := xfs w; xout := xout w ++ tr1 |})
    in *.
  destruct res1 as [pd|e|]; [| |congruence].
  - destruct (leaves_files_resize_for_web pd 1080 w1)
      as (res2 & ext2 & tr2 & Hresize & Hfuel2).
    set (w2 := {| xheap := xheap w1 ++ ext2; xfs := xfs w1;
                  xout := xout w1 ++ tr2 |}) in *.
    destruct res2 as [od|e|]; [| |congruence].
    + destruct (save_block_after_resize nan has_rembg rembg file_id idata name
                  remove_bg w pd w1 od w2 Hproc Hresize)
        as (colors & ext & tr & _ & Hlen & Hrun).
      cbv zeta in Hrun. eexists _, _. split; [exact Hrun|].
      cbn [asset_filename asset_url asset_palette xfs].
      repeat split; try assumption.
      exists od. reflexivity.
    + eexists _, _. split.
      * apply save_block_failure.
        unfold save_processed_asset_try_block. cbv zeta.
        fold (asset_process nan has_rembg rembg remove_bg idata).
        erewrite xbind_ok by exact Hproc.
        eapply xbind_raise. exact Hresize.
      * exists e. split; [reflexivity|]. split; [reflexivity|].
        unfold xwith_out. cbn [xout]. apply last_snoc.
  - eexists _, _. split.
    + apply save_block_failure.
      unfold save_processed_asset_try_block. cbv zeta.
      fold (asset_process nan has_rembg rembg remove_bg idata).
      eapply xbind_raise. exact Hproc.
    + exists e. split; [reflexivity|]. split; [reflexivity|].
      unfold xwith_out. cbn [xout]. apply last_snoc.
Qed.

(** X25: the pipeline of [save_processed_asset] without background
    removal.  The upload is decoded and encoded as an RGBA PNG; those bytes
    are decoded again by [resize_for_web] and encoded a second time; the
    second PNG is what is written to disk; and the palette is extracted from
    a third decoding, of the file just written.  With a palette of at least
    twelve entries the four colors returned are its first four triples. *)
Theorem X25_save_processed_asset_pipeline `{Codec} `{Codec2} `{ImageFilter}
    nan has_rembg rembg file_id idata name
    im pd im2 out od im3 palette w :
  image_open idata = inl im ->
  png_save (rgba_working_image im) false = inl pd ->
  image_open pd = inl im2 ->
  web_image im2 1080 = inl out ->
  png_save out true = inl od ->
  image_open od = inl im3 ->
  quantize_palette (retail_working_image im3) 4 = inl palette ->
  (12 <= length palette)%nat ->
  let filename := file_id +:+ ".png" in
  let path := "static/uploads/processed/" +:+ filename in
  let url := "http://localhost:8000/static/uploads/processed/" +:+ filename in
  exists cols ext,
    palette_colors palette 0 4 = Some cols /\
    save_processed_asset nan has_rembg rembg file_id idata name false w
      = (Ok {| asset_url := url; asset_palette := map Hex.color cols;
               asset_filename := filename |},
         {| xheap := xheap w ++ ext;
            xfs := <[path := od]> (xfs w);
            xout := xout w ++
              [XEncodePng (rgba_working_image im) false;
               XEncodePng out true;
               XQuantize (retail_working_image im3) 4;
               XLog (Colors_ok 4 (map Hex.color cols));
               XLog (Asset_saved url);
               XLog (Palette_extracted (map Hex.color cols))] |}).
Proof.
  intros Hopen Hpng Hopen2 Hweb Hpng2 Hopen3 Hq Hlen filename path url.
  destruct (palette_colors_enough palette 0 4 Hlen) as [cols Hcols].
  exists cols.
  (* conversion *)
  pose proof (convert_to_png_run idata im w Hopen) as Hconv.
  cbv zeta in Hconv. rewrite Hpng in Hconv.
  set (w1 := {| xheap := xheap w ++ rgba_objects im; xfs := xfs w;
                xout := xout w ++ [XEncodePng (rgba_working_image im) false] |})
    in *.
  (* resizing *)
  pose proof (resize_for_web_run pd im2 1080 w1 Hopen2) as Hres.
  rewrite Hweb, Hpng2 in Hres.
  set (w2 := {| xheap := xheap w1
                         ++ im2 :: (if width im2 >? 1080 then [out] else []);
                xfs := xfs w1;
                xout := xout w1 ++ [XEncodePng out true] |}) in *.
  destruct (save_block_after_resize nan has_rembg rembg file_id idata name
              false w pd w1 od w2 Hconv Hres)
    as (colors & ext & tr & Hcolors & _ & Hrun).
  cbv zeta in Hcolors, Hrun.
  (* extraction, from the file just written *)
  set (w3 := {| xheap := xheap w2;
                xfs := <[processed_asset_path (file_id +:+ ".png") := od]> (xfs w2);
                xout := xout w2 |}) in *.
  assert (Hfile : xfs w3 !! processed_asset_path (file_id +:+ ".png") = Some od)
    by (cbn [xfs w3]; apply lookup_insert_eq).
  destruct (extract_colors_from_palette_run _ 4 od im3 palette w3
              Hfile Hopen3 Hq Hlen)
    as (res' & ext' & Hrun' & Hres').
  rewrite Hrun' in Hcolors. injection Hcolors as <- Hext Htr.
  apply app_inv_head in Htr. subst tr.
  change (Z.to_nat 4) with 4%nat in Hres'.
  rewrite Hcols in Hres'. cbn [option_map] in Hres'. injection Hres' as ->.
  eexists. split; [exact Hcols|].
  rewrite Hrun. unfold w3, w2, w1. cbn [xheap xfs xout].
  rewrite <- !app_assoc. cbn [app]. reflexivity.
Qed.

Lemma X25_save_processed_asset_pipeline_witness :
  let C := Model.codec (Model.enc_const 100) (Model.dec_const Model.rgba_2x1) in
  let C2 := Model2.codec2 (Model2.webp_const 100) (Model2.png_const 100)
              Model2.quant_first_pixels in
  let w := Model2.xworld_with_file "upload.bin" (Model.zeros 10) in
  exists w',
    @save_processed_asset C C2 Model3.blur_none Model3.nan_x86 false
      (fun _ => inr "rembg is not installed"%string)
      "abc" (Model.zeros 10) "logo.gif" false w
      = (Ok {| asset_url :=
                 "http://localhost:8000/static/uploads/processed/abc.png";
               asset_palette := ["#FFFFFF"; "#28323C"; "#000000"; "#000000"];
               asset_filename := "abc.png" |}, w') /\
    xfs w' !! "static/uploads/processed/abc.png"%string = Some (Model.zeros 100).
Proof.
  intros C C2 w.
  destruct (@X25_save_processed_asset_pipeline C C2 Model3.blur_none
              Model3.nan_x86 false
              (fun _ => inr "rembg is not installed"%string)
              "abc" (Model.zeros 10) "logo.gif"
              Model.rgba_2x1 (Model.zeros 100) Model.rgba_2x1 Model.rgba_2x1
              (Model.zeros 100) Model.rgba_2x1
              ([255; 255; 255; 40; 50; 60] ++ repeat 0 762) w)
    as (cols & ext & Hcols & Hrun).
  - reflexivity.
  - reflexivity.
  - reflexivity.
  - reflexivity.
  - reflexivity.
  - reflexivity.
  - vm_compute. reflexivity.
  - vm_compute. lia.
  - vm_compute in Hcols. injection Hcols as <-.
    eexists. split; [exact Hrun|].
    cbn [xfs]. apply lookup_insert_eq.
Defined.
